(** * The scale-to-zero proxy of [watchdog/proxy.py]

    A shallow embedding of the smart proxy that fronts the vLLM server:
    the [ServerManager] (idle tracker, backend controller and readiness
    protocol), the idle monitor loop and the request forwarder.

    Conventions of the embedding.

    - A Python coroutine is a value of [Prog A]: a tree whose nodes are the
      operations the coroutine performs (field accesses of the shared
      [ServerManager], lock operations, calls into the outside world) and
      whose leaves are [Ret] (the function returned), [Raise] (an exception
      escaped) or [Pending] (the unbounded [while] loop of the source was
      cut after the given number of iterations: the call has not finished).
    - The outside world (clock, docker, the backend's HTTP interface) is an
      arbitrary type [W] with a function [respond] that answers every
      external call; theorems quantify over it.
    - [time.monotonic()] is a float of seconds in the source.  Clock
      readings are integers here, counted in ticks, [hz] ticks to the
      second, for an arbitrary resolution [hz].
    - Log statements are not modelled: they do not influence control flow.
    - A Python [str] is held as its UTF-8 encoding, one [ascii] per byte.
    - One [Prog] is run alone by [run]; several are interleaved by [step],
      which lets any task perform its next operation, an [Acquire] only
      when the lock is free. *)

From Stdlib Require Import ZArith Lia Bool String Ascii List.
From stdpp Require Import base list gmap strings.

Local Open Scope string_scope.
Local Open Scope list_scope.
Local Open Scope Z_scope.

(** ** Python values used by the proxy *)

(** The exceptions that reach the code.  [TimeoutException] is
    [httpx.TimeoutException]; [OtherException] stands for every other
    subclass of [Exception] (connection refused, [subprocess.TimeoutExpired],
    ...) with its [str(e)]; [CancelledError] is [asyncio.CancelledError],
    which derives from [BaseException] only. *)
Inductive exn : Type :=
  | TimeoutException (msg : string)
  | OtherException (msg : string)
  | CancelledError.

Definition is_Exception (e : exn) : bool :=
  match e with
  | CancelledError => false
  | _ => true
  end.

Definition is_TimeoutException (e : exn) : bool :=
  match e with
  | TimeoutException _ => true
  | _ => false
  end.

Definition str_of_exn (e : exn) : string :=
  match e with
  | TimeoutException m => m
  | OtherException m => m
  | CancelledError => ""
  end.

(** What a call into the outside world gives back: a value or an exception. *)
Inductive result (A : Type) : Type :=
  | Ok (a : A)
  | Err (e : exn).
Arguments Ok {A} a.
Arguments Err {A} e.

(** [subprocess.CompletedProcess] with [capture_output=True, text=True]. *)
Record CompletedProcess : Type := mkCompleted {
  returncode : Z;
  stdout : string;
  stderr : string
}.

(** Header dictionaries: [dict(request.headers)], [dict(response.headers)]. *)
Abbreviation Headers := (gmap string string).

(** The request handed to [http_client.build_request]. *)
Record BackendRequest : Type := mkBackendRequest {
  rq_method : string;
  rq_url : string;
  rq_headers : Headers;
  rq_content : string
}.

(** What [http_client.send(..., stream=True)] returns: status line and
    headers; the body is read later. *)
Record BackendResponse : Type := mkBackendResponse {
  rs_status_code : Z;
  rs_headers : Headers
}.

(** ** Calls into the outside world *)

Inductive ExtOp : Type -> Type :=
  | TimeMonotonic : ExtOp Z
  | ClientGet (url : string) (timeout : Z) : ExtOp (result Z)
  | SubprocessRun (args : list string) (timeout : Z)
      : ExtOp (result CompletedProcess)
  | AsyncioSleep (seconds : Z) : ExtOp (result unit)
  | ClientSend (rq : BackendRequest) : ExtOp (result BackendResponse)
  | ResponseARead : ExtOp (result string)
  | ResponseAClose : ExtOp (result unit).

(** One entry of the log of external calls: the call and its answer. *)
Inductive Event : Type :=
  | Ev {X : Type} (op : ExtOp X) (answer : X).

(** ** The shared [ServerManager] object *)

Record ServerManager : Type := mkManager {
  last_activity_time : Z;
  _lock : bool;          (* asyncio.Lock: true when held *)
  _starting : bool;
  _healthy : bool
}.

Definition set_last_activity_time (t : Z) (m : ServerManager) :=
  mkManager t (_lock m) (_starting m) (_healthy m).
Definition set_lock (b : bool) (m : ServerManager) :=
  mkManager (last_activity_time m) b (_starting m) (_healthy m).
Definition set_starting (b : bool) (m : ServerManager) :=
  mkManager (last_activity_time m) (_lock m) b (_healthy m).
Definition set_healthy (b : bool) (m : ServerManager) :=
  mkManager (last_activity_time m) (_lock m) (_starting m) b.

(** ** Operations of a coroutine and the program tree *)

Inductive Op : Type -> Type :=
  | GetLastActivity : Op Z
  | SetLastActivity (t : Z) : Op unit
  | GetStarting : Op bool
  | SetStarting (b : bool) : Op unit
  | GetHealthy : Op bool
  | SetHealthy (b : bool) : Op unit
  | Acquire : Op unit
  | Release : Op unit
  | Call {X : Type} (e : ExtOp X) : Op X.

Inductive Prog (A : Type) : Type :=
  | Ret (a : A)
  | Raise (e : exn)
  | Pending
  | Act {X : Type} (op : Op X) (k : X -> Prog A).
Arguments Ret {A} a.
Arguments Raise {A} e.
Arguments Pending {A}.
Arguments Act {A X} op k.

Fixpoint bind {A B : Type} (p : Prog A) (f : A -> Prog B) : Prog B :=
  match p with
  | Ret a => f a
  | Raise e => Raise e
  | Pending => Pending
  | Act op k => Act op (fun x => bind (k x) f)
  end.

Definition perform {X : Type} (op : Op X) : Prog X := Act op Ret.

(** An external call whose exception, if any, is raised in the caller. *)
Definition call {A : Type} (e : ExtOp (result A)) : Prog A :=
  Act (Call e) (fun r => match r with Ok a => Ret a | Err x => Raise x end).

Notation "'let*' x ':=' p 'in' q" := (bind p (fun x => q))
  (at level 10, x name, p at level 100, q at level 200,
   format "'[v' 'let*'  x  ':='  p  'in' '/' q ']'").
Notation "'do' p 'then' q" := (bind p (fun _ => q))
  (at level 10, p at level 100, q at level 200,
   format "'[v' 'do'  p  'then' '/' q ']'").

(** [try: p except Exception as e: h e]. Only subclasses of [Exception]
    are caught. *)
Fixpoint try_except {A : Type} (p : Prog A) (h : exn -> Prog A) : Prog A :=
  match p with
  | Ret a => Ret a
  | Raise e => if is_Exception e then h e else Raise e
  | Pending => Pending
  | Act op k => Act op (fun x => try_except (k x) h)
  end.

(** [try: p finally: q]. *)
Fixpoint try_finally {A : Type} (p : Prog A) (q : Prog unit) : Prog A :=
  match p with
  | Ret a => do q then Ret a
  | Raise e => do q then Raise e
  | Pending => Pending
  | Act op k => Act op (fun x => try_finally (k x) q)
  end.

(** [async with self._lock: p]. *)
Definition with_lock {A : Type} (p : Prog A) : Prog A :=
  Act Acquire (fun _ => try_finally p (perform Release)).

(** ** Strings: the Python string methods the proxy uses

    A Python [str] is held as its UTF-8 encoding, one [ascii] per byte, as
    the string literals of this file are: U+00A0 is the two bytes 194 160.
    A byte sequence that is not valid UTF-8 stands for no [str]. *)

(** The code points [c] for which [chr(c).isspace()] holds: the
    characters that [str.strip] removes. *)
Definition py_whitespace : list N :=
  [9; 10; 11; 12; 13; 28; 29; 30; 31; 32; 133; 160; 5760;
   8192; 8193; 8194; 8195; 8196; 8197; 8198; 8199; 8200; 8201; 8202;
   8232; 8233; 8239; 8287; 12288]%N.

(** The UTF-8 encoding of a code point. *)
Definition utf8 (c : N) : list ascii :=
  if (c <? 128)%N then [ascii_of_N c]
  else if (c <? 2048)%N then
    [ascii_of_N (192 + c / 64); ascii_of_N (128 + c mod 64)]
  else if (c <? 65536)%N then
    [ascii_of_N (224 + c / 4096); ascii_of_N (128 + (c / 64) mod 64);
     ascii_of_N (128 + c mod 64)]
  else
    [ascii_of_N (240 + c / 262144); ascii_of_N (128 + (c / 4096) mod 64);
     ascii_of_N (128 + (c / 64) mod 64); ascii_of_N (128 + c mod 64)].

Definition space_chars : list (list ascii) := map utf8 py_whitespace.

(** What follows the prefix [p] in [l], if [l] starts with [p]. *)
Fixpoint after_prefix (p l : list ascii) : option (list ascii) :=
  match p, l with
  | [], _ => Some l
  | a :: p', b :: l' => if Ascii.eqb a b then after_prefix p' l' else None
  | _ :: _, [] => None
  end.

(** [l] without the character of [chars] it starts with, if any. *)
Fixpoint drop_char (chars : list (list ascii)) (l : list ascii)
  : option (list ascii) :=
  match chars with
  | [] => None
  | c :: chars' =>
      match after_prefix c l with
      | Some rest => Some rest
      | None => drop_char chars' l
      end
  end.

(** [l] without the characters of [chars] at its head; [fuel] bounds
    their number. *)
Fixpoint drop_chars (chars : list (list ascii)) (fuel : nat) (l : list ascii)
  : list ascii :=
  match fuel with
  | O => l
  | S fuel' =>
      match drop_char chars l with
      | Some rest => drop_chars chars fuel' rest
      | None => l
      end
  end.

(** [s.lstrip()]: drop the leading white space. *)
Definition py_lstrip (s : string) : string :=
  let l := list_ascii_of_string s in
  string_of_list_ascii (drop_chars space_chars (length l) l).

(** [s.rstrip()]: drop the trailing white space. *)
Definition py_rstrip (s : string) : string :=
  let l := rev (list_ascii_of_string s) in
  string_of_list_ascii
    (rev (drop_chars (map (@rev ascii) space_chars) (length l) l)).

Definition py_strip (s : string) : string := py_rstrip (py_lstrip s).

(** Is [l] made of characters of [chars] only? *)
Fixpoint all_chars (chars : list (list ascii)) (fuel : nat) (l : list ascii)
  : bool :=
  match l, fuel with
  | [], _ => true
  | _, O => false
  | _, S fuel' =>
      match drop_char chars l with
      | Some rest => all_chars chars fuel' rest
      | None => false
      end
  end.

(** A string of white space only (the empty string included). *)
Definition blank (s : string) : bool :=
  let l := list_ascii_of_string s in
  all_chars space_chars (length l) l.

(** The strings made of characters of [chars]. *)
Inductive made_of (chars : list (list ascii)) : list ascii -> Prop :=
  | made_nil : made_of chars []
  | made_cons c l :
      In c chars -> made_of chars l -> made_of chars (c ++ l).

(** [str.lower] on the ASCII letters, the other bytes left as they are.
    The proxy only compares the result with ["true"]; Python's [lower]
    turns no character outside ASCII into one of the letters t, r, u, e, so
    the comparison comes out the same. *)
Definition py_lower_ascii (c : ascii) : ascii :=
  let n := nat_of_ascii c in
  if ((65 <=? n) && (n <=? 90))%nat then ascii_of_nat (n + 32) else c.

Fixpoint py_lower (s : string) : string :=
  match s with
  | EmptyString => EmptyString
  | String c s' => String (py_lower_ascii c) (py_lower s')
  end.

(** The word true, each letter in upper or lower case. *)
Definition spells_true (word : string) : Prop :=
  exists t r u e : ascii,
    word = String t (String r (String u (String e "")))
    /\ (t = "t" \/ t = "T")%char /\ (r = "r" \/ r = "R")%char
    /\ (u = "u" \/ u = "U")%char /\ (e = "e" \/ e = "E")%char.

(** [sub in s] for strings. *)
Fixpoint py_contains (sub s : string) : bool :=
  String.prefix sub s ||
  match s with
  | EmptyString => false
  | String _ s' => py_contains sub s'
  end.

(** The double quote, for the JSON bodies of the synthetic responses. *)
Definition dq : string := String (ascii_of_nat 34) EmptyString.

(** ** Configuration *)

Record Config : Type := mkConfig {
  VLLM_URL : string;
  PROXY_PORT : Z;
  IDLE_TIMEOUT : Z;
  CHECK_INTERVAL : Z;
  STARTUP_TIMEOUT : Z;
  CONTAINER_NAME : string
}.

Section Configuration.
(** Python's [int(value)] on a string: [None] when it raises
    [ValueError]. *)
Variable py_int : string -> option Z.
(** [os.environ]. *)
Variable environ : string -> option string.

Definition environ_get (name default : string) : string :=
  match environ name with
  | Some v => v
  | None => default
  end.

Definition get_env_int (name : string) (default : Z) : Z :=
  let value := environ_get name "" in
  if negb (String.eqb (py_strip value) "") then
    match py_int value with
    | Some n => n
    | None => default
    end
  else default.

Definition load_config : Config := {|
  VLLM_URL := environ_get "VLLM_URL" "http://hunyuan-ocr:8000";
  PROXY_PORT := get_env_int "PROXY_PORT" 8000;
  IDLE_TIMEOUT := get_env_int "IDLE_TIMEOUT" 300;
  CHECK_INTERVAL := get_env_int "CHECK_INTERVAL" 30;
  STARTUP_TIMEOUT := get_env_int "STARTUP_TIMEOUT" 600;
  CONTAINER_NAME := environ_get "CONTAINER_NAME" "hunyuan-ocr"
|}.
End Configuration.

(** ** Running programs *)

Section Semantics.
Context {W : Type}.
(** The outside world: the answer to each external call and the world
    after it. *)
Variable respond : forall X : Type, ExtOp X -> W -> X * W.

Record State : Type := mkState {
  mgr : ServerManager;
  world : W;
  trace : list Event        (* external calls so far, oldest first *)
}.

Definition with_mgr (f : ServerManager -> ServerManager) (s : State) :=
  mkState (f (mgr s)) (world s) (trace s).

(** The state once the call [e] has been answered by [x], leaving the
    world [w]. *)
Definition logged {X : Type} (s : State) (e : ExtOp X) (x : X) (w : W) :=
  mkState (mgr s) w (trace s ++ [Ev e x]).

Definition exec {X : Type} (op : Op X) (s : State) : X * State :=
  match op in Op X return X * State with
  | GetLastActivity => (last_activity_time (mgr s), s)
  | SetLastActivity t => (tt, with_mgr (set_last_activity_time t) s)
  | GetStarting => (_starting (mgr s), s)
  | SetStarting b => (tt, with_mgr (set_starting b) s)
  | GetHealthy => (_healthy (mgr s), s)
  | SetHealthy b => (tt, with_mgr (set_healthy b) s)
  | Acquire => (tt, with_mgr (set_lock true) s)
  | Release => (tt, with_mgr (set_lock false) s)
  | Call e =>
      let '(x, w) := respond _ e (world s) in
      (x, logged s e x w)
  end.

(** Every operation can go ahead at once, except taking a held lock. *)
Definition enabled {X : Type} (op : Op X) (s : State) : bool :=
  match op with
  | Acquire => negb (_lock (mgr s))
  | _ => true
  end.

(** One operation of a task: [None] when the task has finished or is
    blocked on the lock. *)
Definition step_task {A : Type} (p : Prog A) (s : State)
  : option (Prog A * State) :=
  match p with
  | Act op k =>
      if enabled op s then
        let '(x, s') := exec op s in Some (k x, s')
      else None
  | _ => None
  end.

(** A task run on its own, up to its leaf (or to the [Acquire] it blocks
    on for ever). *)
Fixpoint run {A : Type} (p : Prog A) (s : State) : Prog A * State :=
  match p with
  | Act op k =>
      if enabled op s then
        let '(x, s') := exec op s in run (k x) s'
      else (p, s)
  | _ => (p, s)
  end.

(** The state after [m] calls of [p] made one after the other. *)
Fixpoint serial {A : Type} (p : Prog A) (m : nat) (s : State) : State :=
  match m with
  | O => s
  | S m' => snd (run p (serial p m' s))
  end.

(** Several tasks on one event loop: any task may take the next step. *)
Definition Pool (A : Type) : Type := list (Prog A) * State.

Definition step_at {A : Type} (i : nat) (ps : Pool A) : option (Pool A) :=
  match fst ps !! i with
  | Some p =>
      match step_task p (snd ps) with
      | Some (p', s') => Some (<[i := p']> (fst ps), s')
      | None => None
      end
  | None => None
  end.

Definition step {A : Type} (ps ps' : Pool A) : Prop :=
  exists i, step_at i ps = Some ps'.

Inductive steps {A : Type} : Pool A -> Pool A -> Prop :=
  | steps_refl ps : steps ps ps
  | steps_step ps1 ps2 ps3 : steps ps1 ps2 -> step ps2 ps3 -> steps ps1 ps3.

(** A schedule played from a pool: the tasks to step, in order;
    steps that cannot be taken are skipped. *)
Fixpoint schedule {A : Type} (order : list nat) (ps : Pool A) : Pool A :=
  match order with
  | [] => ps
  | i :: order' =>
      match step_at i ps with
      | Some ps' => schedule order' ps'
      | None => schedule order' ps
      end
  end.
End Semantics.
Arguments State W : clear implicits.

(** ** The proxy *)

(** [dict(request.headers)] from the header lines of the request, in
    the order they came.  A dictionary holds one value per name; for a name
    that several lines carry, Starlette's [Headers] gives the first. *)
Definition dict_of_lines (lines : list (string * string)) : Headers :=
  list_to_map lines.

(** The inbound request, as the handler reads it. *)
Record Request : Type := mkRequest {
  method : string;
  query : string;            (* request.url.query *)
  headers : Headers;         (* dict(request.headers) *)
  body : string              (* await request.body() *)
}.

(** What the handler returns: a [Response] with its content, or a
    [StreamingResponse] whose content is the backend's byte stream, relayed
    by [stream_response] after the handler has returned. *)
Inductive HandlerResponse : Type :=
  | Response (content : string) (status_code : Z) (hdrs : Headers)
      (media_type : option string)
  | StreamingResponse (status_code : Z) (hdrs : Headers)
      (media_type : string).

Definition response_status (r : HandlerResponse) : Z :=
  match r with
  | Response _ c _ _ => c
  | StreamingResponse c _ _ => c
  end.

Definition response_headers (r : HandlerResponse) : Headers :=
  match r with
  | Response _ _ h _ => h
  | StreamingResponse _ h _ => h
  end.

(** [for h in names: d.pop(h, None)]. *)
Definition pop_all (names : list string) (d : Headers) : Headers :=
  foldl (fun acc h => delete h acc) d names.

(** [d.get(key, "")]. *)
Definition get_or_empty (d : Headers) (key : string) : string :=
  match d !! key with
  | Some v => v
  | None => ""
  end.

Section Proxy.
(** Clock ticks per second. *)
Variable hz : Z.
Variable cfg : Config.

(** [time.monotonic()]. *)
Definition monotonic : Prog Z := perform (Call TimeMonotonic).

Definition record_activity : Prog unit :=
  let* t := monotonic in
  perform (SetLastActivity t).

(** The idle time, counted in clock ticks. *)
Definition get_idle_seconds : Prog Z :=
  let* t := monotonic in
  let* last := perform GetLastActivity in
  Ret (t - last).

(** [f"{VLLM_URL}/health"]. *)
Definition health_url : string := (VLLM_URL cfg ++ "/health")%string.

Definition check_health : Prog bool :=
  try_except
    (let* status := call (ClientGet health_url 5) in
     Ret (status =? 200))
    (fun _ => Ret false).

Definition docker_inspect : ExtOp (result CompletedProcess) :=
  SubprocessRun
    ["docker"; "inspect"; "-f"; "{{.State.Running}}"; CONTAINER_NAME cfg] 10.
Definition docker_start : ExtOp (result CompletedProcess) :=
  SubprocessRun ["docker"; "start"; CONTAINER_NAME cfg] 30.
Definition docker_stop : ExtOp (result CompletedProcess) :=
  SubprocessRun ["docker"; "stop"; CONTAINER_NAME cfg] 60.

Definition is_container_running : Prog bool :=
  try_except
    (let* result := call docker_inspect in
     Ret (String.eqb (py_lower (py_strip (stdout result))) "true"))
    (fun _ => Ret false).

Definition start_container : Prog bool :=
  try_except
    (let* result := call docker_start in
     if returncode result =? 0 then Ret true else Ret false)
    (fun _ => Ret false).

Definition stop_container : Prog bool :=
  try_except
    (let* result := call docker_stop in
     if returncode result =? 0 then
       do perform (SetHealthy false) then
       Ret true
     else Ret false)
    (fun _ => Ret false).

(** The [while] loop of [ensure_server_ready], cut after [fuel]
    evaluations of its condition. *)
Fixpoint poll (fuel : nat) (start_time check_count : Z) : Prog bool :=
  match fuel with
  | O => Pending
  | S fuel' =>
      let* now := monotonic in
      if now - start_time <? STARTUP_TIMEOUT cfg * hz then
        let check_count := check_count + 1 in
        let* ok := check_health in
        if ok then
          let* elapsed_at := monotonic in
          do perform (SetHealthy true) then
          do record_activity then
          Ret true
        else
          let* now := monotonic in
          let wait_time := if now - start_time <? 30 * hz then 2 else 5 in
          do call (AsyncioSleep wait_time) then
          poll fuel' start_time check_count
      else Ret false
  end.

(** "Wait for health check to pass". *)
Definition wait_for_health (fuel : nat) : Prog bool :=
  let* start_time := monotonic in
  poll fuel start_time 0.

(** The part of [ensure_server_ready] after the quick check. *)
Definition slow_path (fuel : nat) : Prog bool :=
  do perform (SetHealthy false) then
  do perform (SetStarting true) then
  try_finally
    (let* running := is_container_running in
     if negb running then
       let* started := start_container in
       if negb started then Ret false else wait_for_health fuel
     else wait_for_health fuel)
    (perform (SetStarting false)).

(** The block under [async with self._lock]. *)
Definition ensure_body (fuel : nat) : Prog bool :=
  let* healthy := perform GetHealthy in
  let* quick := if healthy then check_health else Ret false in
  if quick then Ret true else slow_path fuel.

(** [fuel] bounds the evaluations of the loop condition; when it runs
    out the call is [Pending]. *)
Definition ensure_server_ready (fuel : nat) : Prog bool :=
  with_lock (ensure_body fuel).

(** The [is_starting] property. *)
Definition is_starting : Prog bool := perform GetStarting.

(** One turn of the [while True] loop of [idle_monitor]. *)
Definition idle_monitor_turn : Prog unit :=
  do call (AsyncioSleep (CHECK_INTERVAL cfg)) then
  let* starting := is_starting in
  if starting then Ret tt else
  let* healthy := perform GetHealthy in
  if negb healthy then Ret tt else
  let* idle_seconds := get_idle_seconds in
  let remaining := IDLE_TIMEOUT cfg * hz - idle_seconds in
  if remaining <=? 0 then
    do stop_container then
    Ret tt
  else Ret tt.

Fixpoint idle_monitor (turns : nat) : Prog unit :=
  match turns with
  | O => Pending
  | S turns' =>
      do idle_monitor_turn then
      idle_monitor turns'
  end.

Definition json_error (msg : string) : string :=
  "{" ++ dq ++ "error" ++ dq ++ ": " ++ dq ++ msg ++ dq ++ "}".

Definition request_hop_by_hop : list string :=
  ["host"; "connection"; "keep-alive"; "transfer-encoding"; "upgrade"].
Definition response_hop_by_hop : list string :=
  ["connection"; "keep-alive"; "transfer-encoding"].

(** The request built for the backend. *)
Definition backend_request (request : Request) (path : string)
  : BackendRequest :=
  let url := (VLLM_URL cfg ++ "/" ++ path)%string in
  let url :=
    if negb (String.eqb (query request) "")
    then (url ++ "?" ++ query request)%string else url in
  let body := body request in
  let headers := pop_all request_hop_by_hop (headers request) in
  mkBackendRequest (method request) url headers body.

(** The [try] block of [proxy]. *)
Definition relay (rq : BackendRequest) : Prog HandlerResponse :=
  let* response := call (ClientSend rq) in
  let content_type := get_or_empty (rs_headers response) "content-type" in
  let is_streaming :=
    py_contains "text/event-stream" content_type
    || py_contains "chunked"
         (get_or_empty (rs_headers response) "transfer-encoding") in
  let response_headers :=
    pop_all response_hop_by_hop (rs_headers response) in
  if is_streaming then
    Ret (StreamingResponse (rs_status_code response) response_headers
           content_type)
  else
    let* content := call ResponseARead in
    do call ResponseAClose then
    Ret (Response content (rs_status_code response) response_headers None).

(** The two [except] clauses of [proxy]. *)
Definition relay_failed (e : exn) : Prog HandlerResponse :=
  if is_TimeoutException e then
    Ret (Response (json_error "Backend request timeout") 504 ∅
           (Some "application/json"))
  else
    do perform (SetHealthy false) then
    Ret (Response
           (json_error ("Backend request failed: " ++ str_of_exn e)) 502 ∅
           (Some "application/json")).

(** The handler of every path; [fuel] is passed to
    [ensure_server_ready]. *)
Definition proxy (fuel : nat) (request : Request) (path : string)
  : Prog HandlerResponse :=
  do record_activity then
  let* ready := ensure_server_ready fuel in
  if negb ready then
    Ret (Response (json_error "Backend server failed to start") 503 ∅
           (Some "application/json"))
  else
    try_except (relay (backend_request request path)) relay_failed.
End Proxy.

(** ** A concrete outside world

    A small simulated deployment, used to run the proxy on concrete
    inputs: a container that is up or down, a backend that answers its
    health probe with 200 once a number of probes have failed after the
    start, and a clock that only sleeping advances. *)

Inductive BackendMood : Type :=
  | Serves            (* answers the forwarded request *)
  | TimesOut          (* httpx.TimeoutException on send *)
  | Refuses.          (* connection refused on send *)

Record Mock : Type := mkMock {
  clock : Z;
  container_up : bool;
  warmup : nat;               (* probes that still fail once the container is up *)
  start_works : bool;         (* does docker start exit with 0? *)
  mood : BackendMood
}.

Definition nl : string := String (ascii_of_nat 10) EmptyString.

Definition completed (code : Z) (out : string) : result CompletedProcess :=
  Ok (mkCompleted code out "").

Definition mock_subprocess (args : list string) (w : Mock)
  : result CompletedProcess * Mock :=
  match args with
  | _ :: verb :: _ =>
      if String.eqb verb "inspect" then
        (completed 0 ((if container_up w then "true" else "false") ++ nl), w)
      else if String.eqb verb "start" then
        if start_works w then
          (completed 0 "",
           mkMock (clock w) true (warmup w) (start_works w) (mood w))
        else (completed 1 "", w)
      else if String.eqb verb "stop" then
        (completed 0 "",
         mkMock (clock w) false (warmup w) (start_works w) (mood w))
      else (Err (OtherException "unknown command"), w)
  | _ => (Err (OtherException "unknown command"), w)
  end.

Definition mock_probe (w : Mock) : result Z * Mock :=
  if container_up w then
    match warmup w with
    | O => (Ok 200, w)
    | S n =>
        (Ok 503, mkMock (clock w) true n (start_works w) (mood w))
    end
  else (Err (OtherException "connection refused"), w).

Definition mock_send (w : Mock) : result BackendResponse :=
  match mood w with
  | Serves =>
      Ok (mkBackendResponse 200
            (<["content-type" := "application/json"]>
               (<["connection" := "keep-alive"]> ∅)))
  | TimesOut => Err (TimeoutException "read timeout")
  | Refuses => Err (OtherException "connection refused")
  end.

Definition mock_respond (hz : Z) (X : Type) (op : ExtOp X) (w : Mock)
  : X * Mock :=
  match op in ExtOp X return X * Mock with
  | TimeMonotonic => (clock w, w)
  | ClientGet _ _ => mock_probe w
  | SubprocessRun args _ => mock_subprocess args w
  | AsyncioSleep d =>
      (Ok tt,
       mkMock (clock w + Z.max 0 d * hz) (container_up w) (warmup w)
         (start_works w) (mood w))
  | ClientSend _ => (mock_send w, w)
  | ResponseARead => (Ok "{}", w)
  | ResponseAClose => (Ok tt, w)
  end.

(** A deployment whose backend never gets healthy: the container runs,
    every health probe is answered with status 500; the world is the clock
    alone. *)
Definition dead_respond (hz : Z) (X : Type) (op : ExtOp X) (t : Z) : X * Z :=
  match op in ExtOp X return X * Z with
  | TimeMonotonic => (t, t)
  | ClientGet _ _ => (Ok 500, t)
  | SubprocessRun _ _ => (completed 0 ("true" ++ nl), t)
  | AsyncioSleep d => (Ok tt, t + Z.max 0 d * hz)
  | ClientSend _ => (Err (OtherException "connection refused"), t)
  | ResponseARead => (Err (OtherException "connection refused"), t)
  | ResponseAClose => (Ok tt, t)
  end.

(** A deployment whose container runs and refuses to stop, and whose
    backend is healthy and streams its answers; the world is the clock
    alone. *)
Definition stubborn_respond (hz : Z) (X : Type) (op : ExtOp X) (t : Z)
  : X * Z :=
  match op in ExtOp X return X * Z with
  | TimeMonotonic => (t, t)
  | ClientGet _ _ => (Ok 200, t)
  | SubprocessRun args _ =>
      (match args with
       | _ :: verb :: _ =>
           if String.eqb verb "stop" then completed 1 ""
           else completed 0 ("true" ++ nl)
       | _ => Err (OtherException "unknown command")
       end, t)
  | AsyncioSleep d => (Ok tt, t + Z.max 0 d * hz)
  | ClientSend _ =>
      (Ok (mkBackendResponse 200
             (<["content-type" := "text/event-stream"]>
                (<["transfer-encoding" := "chunked"]> ∅))), t)
  | ResponseARead => (Ok "", t)
  | ResponseAClose => (Ok tt, t)
  end.

(** An inbound request. *)
Definition sample_request : Request :=
  mkRequest "POST" ""
    (<["host" := "proxy:8000"]> (<["content-type" := "application/json"]> ∅))
    "{}".

(** The configuration when no environment variable is set. *)
Definition default_config : Config :=
  load_config (fun _ => None) (fun _ => None).

(** A fresh [ServerManager], as [__init__] leaves it at time [t]. *)
Definition new_manager (t : Z) : ServerManager := mkManager t false false false.

Definition mock_state (m : ServerManager) (w : Mock) : State Mock :=
  mkState m w [].

(** ** Reading the log of external calls *)

Definition ev_is_send (ev : Event) : bool :=
  match ev with
  | Ev (ClientSend _) _ => true
  | _ => false
  end.

(** [subprocess.run(["docker", verb, ...])]. *)
Definition ev_is_docker (verb : string) (ev : Event) : bool :=
  match ev with
  | Ev (SubprocessRun (_ :: v :: _) _) _ => String.eqb v verb
  | _ => false
  end.

Fixpoint count_events (f : Event -> bool) (tr : list Event) : nat :=
  match tr with
  | [] => O
  | ev :: tr' => ((if f ev then 1 else 0) + count_events f tr')%nat
  end.

(** The clock reading an event carries, if it is one. *)
Definition ev_reading (ev : Event) : option Z :=
  match ev with
  | Ev op answer =>
      match op in ExtOp X return X -> option Z with
      | TimeMonotonic => fun t => Some t
      | _ => fun _ => None
      end answer
  end.

(** The pace of the polling loop started at clock reading [start], told
    from the log: a sleep comes right after a clock reading and lasts 2
    seconds when less than 30 seconds had elapsed at that reading, 5
    otherwise; a probe comes right after a clock reading at which less than
    the startup timeout had elapsed. *)
Definition pace_rule (hz timeout start : Z) (prev : option Event) (ev : Event)
  : Prop :=
  match ev with
  | Ev (AsyncioSleep d) _ =>
      exists t, prev = Some (Ev TimeMonotonic t)
                /\ d = (if t - start <? 30 * hz then 2 else 5)
  | Ev (ClientGet _ _) _ =>
      exists t, prev = Some (Ev TimeMonotonic t) /\ t - start < timeout * hz
  | _ => True
  end.

Fixpoint paced (hz timeout start : Z) (prev : option Event) (tr : list Event)
  : Prop :=
  match tr with
  | [] => True
  | ev :: tr' =>
      pace_rule hz timeout start prev ev /\ paced hz timeout start (Some ev) tr'
  end.

(** A program has come to its end: it returned or raised. *)
Definition finished {A : Type} (p : Prog A) : bool :=
  match p with
  | Ret _ | Raise _ => true
  | _ => false
  end.

(** An answer that is a value or an exception derived from [Exception]. *)
Definition ordinary {A : Type} (r : result A) : Prop :=
  match r with
  | Ok _ => True
  | Err e => is_Exception e = true
  end.

(** The outcomes of a health probe: an HTTP status, or an exception of
    the HTTP client (a network error, a timeout). *)
Definition probe_outcome (r : result Z) : Prop := ordinary r.

(** The probe found the backend healthy: status 200. *)
Definition says_healthy (r : result Z) : bool :=
  match r with
  | Ok status => status =? 200
  | Err _ => false
  end.

(** What [check_health] makes of the answer to its probe. *)
Definition probe_verdict (r : result Z) : result bool :=
  match r with
  | Ok status => Ok (status =? 200)
  | Err e => if is_Exception e then Ok false else Err e
  end.

(** The sleep between two probes, decided at the clock reading [t]. *)
Definition wait_time (hz start t : Z) : Z :=
  if t - start <? 30 * hz then 2 else 5.

(** The log of the polling loop started at clock reading [start], round
    by round, with the outcome of the loop; the number is the bound on the
    evaluations of the loop condition.  A round reads the clock; at or past
    the timeout the loop ends with false; otherwise it probes.  A probe
    answered with 200 ends the loop with true after two more clock
    readings (the elapsed time for the log message, and
    [record_activity]).  After any other answer the round reads the clock
    again, sleeps for the time that reading decides, and the next round
    follows.  An exception that [check_health] does not catch, or one raised
    by the sleep, ends the loop there. *)
Inductive poll_rounds (hz timeout : Z) (url : string) (start : Z)
  : nat -> list Event -> Prog bool -> Prop :=
  | rounds_cut :
      poll_rounds hz timeout url start O [] Pending
  | rounds_timed_out fuel t :
      timeout * hz <= t - start ->
      poll_rounds hz timeout url start (S fuel) [Ev TimeMonotonic t] (Ret false)
  | rounds_healthy fuel t r t2 t3 :
      t - start < timeout * hz ->
      probe_verdict r = Ok true ->
      poll_rounds hz timeout url start (S fuel)
        [Ev TimeMonotonic t; Ev (ClientGet url 5) r;
         Ev TimeMonotonic t2; Ev TimeMonotonic t3]
        (Ret true)
  | rounds_probe_raised fuel t r e :
      t - start < timeout * hz ->
      probe_verdict r = Err e ->
      poll_rounds hz timeout url start (S fuel)
        [Ev TimeMonotonic t; Ev (ClientGet url 5) r] (Raise e)
  | rounds_sleep_raised fuel t r t2 e :
      t - start < timeout * hz ->
      probe_verdict r = Ok false ->
      poll_rounds hz timeout url start (S fuel)
        [Ev TimeMonotonic t; Ev (ClientGet url 5) r; Ev TimeMonotonic t2;
         Ev (AsyncioSleep (wait_time hz start t2)) (Err e)]
        (Raise e)
  | rounds_again fuel t r t2 u tr out :
      t - start < timeout * hz ->
      probe_verdict r = Ok false ->
      poll_rounds hz timeout url start fuel tr out ->
      poll_rounds hz timeout url start (S fuel)
        (Ev TimeMonotonic t :: Ev (ClientGet url 5) r :: Ev TimeMonotonic t2
         :: Ev (AsyncioSleep (wait_time hz start t2)) (Ok u) :: tr)
        out.

(** [docker inspect] printed that the container is running. *)
Definition says_running (r : result CompletedProcess) : bool :=
  match r with
  | Ok c => String.eqb (py_lower (py_strip (stdout c))) "true"
  | Err _ => false
  end.

(** The command ran and exited with code 0. *)
Definition exit_zero (r : result CompletedProcess) : bool :=
  match r with
  | Ok c => returncode c =? 0
  | Err _ => false
  end.

(** A property of every operation a program can perform. *)
Inductive Always {A : Type} (P : forall X : Type, Op X -> Prop)
  : Prog A -> Prop :=
  | Always_ret a : Always P (Ret a)
  | Always_raise e : Always P (Raise e)
  | Always_pending : Always P Pending
  | Always_act X (op : Op X) k :
      P X op -> (forall x, Always P (k x)) -> Always P (Act op k).

(** Operations other than those on the lock. *)
Definition not_lock_op (X : Type) (op : Op X) : Prop :=
  match op with
  | Acquire | Release => False
  | _ => True
  end.

(** External calls are restricted to those [ok] accepts. *)
Definition calls_only (ok : forall X : Type, ExtOp X -> Prop)
  (X : Type) (op : Op X) : Prop :=
  match op with
  | Call e => ok _ e
  | _ => True
  end.

Definition ev_ok (ok : forall X : Type, ExtOp X -> Prop) (ev : Event) : Prop :=
  match ev with
  | Ev e _ => ok _ e
  end.

(** Calls other than sending a request to the backend. *)
Definition op_not_send (X : Type) (e : ExtOp X) : Prop :=
  match e with
  | ClientSend _ => False
  | _ => True
  end.

(** Calls that send nothing to the backend but the request [rq]. *)
Definition op_sends_only (rq : BackendRequest) (X : Type) (e : ExtOp X) : Prop :=
  match e with
  | ClientSend rq' => rq' = rq
  | _ => True
  end.

(** Calls other than [subprocess.run]. *)
Definition op_not_subprocess (X : Type) (e : ExtOp X) : Prop :=
  match e with
  | SubprocessRun _ _ => False
  | _ => True
  end.

(** The calls of the idle monitor: its sleep, clock readings and
    [docker stop]. *)
Definition op_monitor (cfg : Config) (X : Type) (e : ExtOp X) : Prop :=
  match e with
  | AsyncioSleep d => d = CHECK_INTERVAL cfg
  | TimeMonotonic => True
  | SubprocessRun args timeout =>
      args = ["docker"; "stop"; CONTAINER_NAME cfg] /\ timeout = 60
  | _ => False
  end.

(** Operations that leave the [ServerManager] alone. *)
Definition call_op (X : Type) (op : Op X) : Prop :=
  match op with
  | Call _ => True
  | _ => False
  end.

Definition is_acquire {X : Type} (op : Op X) : bool :=
  match op with
  | Acquire => true
  | _ => false
  end.

Definition is_release {X : Type} (op : Op X) : bool :=
  match op with
  | Release => true
  | _ => false
  end.

(** A task inside the region guarded by the lock: it performs no lock
    operation until the [Release] after which it has finished (or it is
    cut short, still holding the lock). *)
Fixpoint InCS {A : Type} (p : Prog A) : Prop :=
  match p with
  | Act op k =>
      if is_acquire op then False
      else if is_release op then forall x, finished (k x) = true
      else forall x, InCS (k x)
  | Pending => True
  | Ret _ | Raise _ => False
  end.

(** The tasks of a pool that have not come to their end. *)
Fixpoint unfinished {A : Type} (ts : list (Prog A)) : nat :=
  match ts with
  | [] => O
  | t :: ts' => ((if finished t then 0 else 1) + unfinished ts')%nat
  end.

(** The log [new] extends the log [old] by calls among which a health
    probe was answered with status 200. *)
Definition saw_healthy_probe (cfg : Config) (old new : list Event) : Prop :=
  exists pre post,
    new = old ++ pre ++ Ev (ClientGet (health_url cfg) 5) (Ok 200) :: post.

(** ** The status endpoint *)

(** The dictionary [proxy_status] returns (its constant entry
    ["proxy": "healthy"] left out).  Idle time and remaining time are in
    clock ticks, the timeout in seconds as configured. *)
Record StatusReport : Type := mkStatus {
  st_container : string;
  st_running : bool;
  st_healthy : bool;
  st_starting : bool;
  st_idle_seconds : Z;
  st_timeout : Z;
  st_remaining : Z
}.

Definition proxy_status (hz : Z) (cfg : Config) : Prog StatusReport :=
  let* is_running := is_container_running cfg in
  let* is_healthy := if is_running then check_health cfg else Ret false in
  let* starting := is_starting in
  let* seconds := get_idle_seconds in
  let* idle := get_idle_seconds in
  Ret (mkStatus (CONTAINER_NAME cfg) is_running is_healthy starting seconds
         (IDLE_TIMEOUT cfg) (Z.max 0 (IDLE_TIMEOUT cfg * hz - idle))).

(** The calls of the status endpoint: [docker inspect], the health
    probe and clock readings. *)
Definition op_status (cfg : Config) (X : Type) (e : ExtOp X) : Prop :=
  match e with
  | TimeMonotonic => True
  | ClientGet url timeout => url = health_url cfg /\ timeout = 5
  | SubprocessRun args timeout =>
      args = ["docker"; "inspect"; "-f"; "{{.State.Running}}";
              CONTAINER_NAME cfg] /\ timeout = 10
  | _ => False
  end.

(** Operations that do not write to the [ServerManager]. *)
Definition reading_op (X : Type) (op : Op X) : Prop :=
  match op with
  | Call _ | GetLastActivity | GetStarting | GetHealthy => True
  | _ => False
  end.

(** ** The time of the last activity *)

Definition is_set_last {X : Type} (op : Op X) : bool :=
  match op with
  | SetLastActivity _ => true
  | _ => false
  end.

(** A program that writes [last_activity_time] only as [record_activity]
    does: with the clock reading it has just taken. *)
Inductive Stamps {A : Type} : Prog A -> Prop :=
  | Stamps_ret a : Stamps (Ret a)
  | Stamps_raise e : Stamps (Raise e)
  | Stamps_pending : Stamps Pending
  | Stamps_act X (op : Op X) k :
      is_set_last op = false -> (forall x, Stamps (k x)) -> Stamps (Act op k)
  | Stamps_record k :
      (forall u, Stamps (k u)) ->
      Stamps (Act (Call TimeMonotonic) (fun t => Act (SetLastActivity t) k)).

(** ** Counting the calls a program can make *)

(** An operation that [cls] does not count, whatever the answer. *)
Definition uncounted (cls : Event -> bool) (X : Type) (op : Op X) : Prop :=
  match op with
  | Call e => forall answer, cls (Ev e answer) = false
  | _ => True
  end.

(** [Budget cls n p]: along every path, [p] makes at most [n] of the
    calls that [cls] counts. *)
Inductive Budget {A : Type} (cls : Event -> bool) : nat -> Prog A -> Prop :=
  | Budget_ret n a : Budget cls n (Ret a)
  | Budget_raise n e : Budget cls n (Raise e)
  | Budget_pending n : Budget cls n Pending
  | Budget_free n X (op : Op X) k :
      uncounted cls X op -> (forall x, Budget cls n (k x)) ->
      Budget cls n (Act op k)
  | Budget_pay n X (op : Op X) k :
      (forall x, Budget cls n (k x)) -> Budget cls (S n) (Act op k).

(** ** The pools that concurrent callers of one locked block reach *)

Section PoolInvariant.
Context {W : Type}.
Variable respond : forall X : Type, ExtOp X -> W -> X * W.
Context {A : Type}.
Variable body : Prog A.

(** A task of the pool that is not under the lock: it has not started,
    or it was one of the first [m] to go through and has finished with
    the outcome of that call. *)
Definition settled (s0 : State W) (m : nat) (t : Prog A) : Prop :=
  t = with_lock body
  \/ exists j, (j < m)%nat
       /\ t = fst (run respond (with_lock body) (serial respond (with_lock body) j s0))
       /\ finished t = true.

(** The first [m] calls in a row have all come to their end. *)
Definition completed_calls (s0 : State W) (m : nat) : Prop :=
  forall j, (j < m)%nat ->
    finished (fst (run respond (with_lock body)
                     (serial respond (with_lock body) j s0))) = true.

(** The pools that [n] callers can reach: nobody under the lock and the
    state that of [m] calls in a row, or one task under the lock, on its way
    to the state of [m + 1] calls in a row. *)
Inductive pool_inv (n : nat) (s0 : State W) : Pool A -> Prop :=
  | pool_idle m ts s :
      completed_calls s0 m ->
      s = serial respond (with_lock body) m s0 ->
      _lock (mgr s) = false ->
      Forall (settled s0 m) ts ->
      (unfinished ts + m = n)%nat ->
      pool_inv n s0 (ts, s)
  | pool_busy m l1 t l2 s :
      completed_calls s0 m ->
      _lock (mgr s) = true ->
      InCS t ->
      run respond t s
      = run respond (with_lock body) (serial respond (with_lock body) m s0) ->
      Forall (settled s0 m) (l1 ++ l2) ->
      (unfinished (l1 ++ l2) + m + 1 = n)%nat ->
      pool_inv n s0 (l1 ++ t :: l2, s).
End PoolInvariant.

(** ** Protocols: what a task may do, operation by operation *)

Section Protocols.
Context {St : Type}.
(** May a task in state [st] perform [op]? *)
Variable allowed : St -> forall X : Type, Op X -> Prop.
(** The answers to [op] that are taken into account. *)
Variable feasible : St -> forall X : Type, Op X -> X -> Prop.
(** The state of the task once [op] has been answered. *)
Variable next : St -> forall X : Type, Op X -> X -> St.

(** [Follows Q QE st p]: from state [st], every operation of [p] is
    allowed where it comes, whatever the answers among the feasible ones,
    and [p] returns or raises only in a state that [Q] or [QE] accepts. *)
Fixpoint Follows {A : Type} (Q : St -> A -> Prop) (QE : St -> exn -> Prop)
  (st : St) (p : Prog A) : Prop :=
  match p with
  | Ret a => Q st a
  | Raise e => QE st e
  | Pending => True
  | Act op k =>
      allowed st _ op
      /\ forall x, feasible st _ op x -> Follows Q QE (next st _ op x) (k x)
  end.

(** An operation that is allowed in [st] and leaves the task there. *)
Definition stays (st : St) (X : Type) (op : Op X) : Prop :=
  allowed st X op /\ forall x, next st X op x = st.
End Protocols.

(** *** The discipline of the lock and of the start command *)

(** Where a task stands: outside the block under the lock, or inside
    it; inside, [may_start] tells whether its last [docker inspect] found
    the container not running and no command has followed yet. *)
Inductive Role : Type :=
  | Outside
  | Inside (may_start : bool).

(** [args[1]] of a docker command line. *)
Definition docker_verb (args : list string) : string :=
  match args with
  | _ :: verb :: _ => verb
  | _ => ""
  end.

(** Outside the lock a task runs no command; it takes the lock only
    from outside and releases it only from inside; inside, it runs
    [docker inspect], and [docker start] only right after an inspect that
    found the container not running. *)
Definition role_allowed (cfg : Config) (r : Role) (X : Type) (op : Op X)
  : Prop :=
  match op with
  | Acquire => r = Outside
  | Release => r <> Outside
  | Call e =>
      match e with
      | SubprocessRun args timeout =>
          (r <> Outside /\ SubprocessRun args timeout = docker_inspect cfg)
          \/ (r = Inside true /\ SubprocessRun args timeout = docker_start cfg)
      | _ => True
      end
  | _ => True
  end.

Definition role_next (r : Role) (X : Type) (op : Op X) : X -> Role :=
  match op in Op X return X -> Role with
  | Acquire => fun _ => Inside false
  | Release => fun _ => Outside
  | Call e =>
      match e in ExtOp X return X -> Role with
      | SubprocessRun args _ =>
          fun answer =>
            if String.eqb (docker_verb args) "inspect"
            then Inside (negb (says_running answer))
            else Inside false
      | _ => fun _ => r
      end
  | _ => fun _ => r
  end.

(** Operations other than those on the lock and the docker commands. *)
Definition plain (X : Type) (op : Op X) : Prop :=
  not_lock_op X op /\ calls_only op_not_subprocess X op.

(** A task that keeps to the discipline and ends outside the lock. *)
Definition obeys {A : Type} (cfg : Config) (r : Role) (p : Prog A) : Prop :=
  Follows (role_allowed cfg) (fun _ _ _ _ => True) role_next
    (fun r' _ => r' = Outside) (fun r' _ => r' = Outside) r p.

(** *** A start command is due *)

(** The answers of a stopped backend: the health probe finds no healthy
    backend, [docker inspect] reports no running container. *)
Definition cold_answer (cfg : Config) (X : Type) (op : Op X) : X -> Prop :=
  match op in Op X return X -> Prop with
  | Call e =>
      match e in ExtOp X return X -> Prop with
      | ClientGet url timeout =>
          fun r => url = health_url cfg -> timeout = 5 ->
                   probe_verdict r = Ok false
      | SubprocessRun args timeout =>
          fun r => SubprocessRun args timeout = docker_inspect cfg ->
                   ordinary r /\ says_running r = false
      | _ => fun _ => True
      end
  | _ => fun _ => True
  end.

(** [true] until the task has issued a start command. *)
Definition owes_next (due : bool) (X : Type) (op : Op X) : X -> bool :=
  match op in Op X return X -> bool with
  | Call e => fun answer => due && negb (ev_is_docker "start" (Ev e answer))
  | _ => fun _ => due
  end.

(** A task that, as long as the backend answers as a stopped one, does
    not come to its end before it has issued a start command. *)
Definition owes_start {A : Type} (cfg : Config) (p : Prog A) : Prop :=
  Follows (fun _ _ _ => True)
    (fun due X op x => due = true -> cold_answer cfg X op x) owes_next
    (fun due _ => due = false) (fun due _ => due = false) true p.

(** *** A healthy probe was seen *)

(** The health probe, answered with status 200. *)
Definition ev_is_healthy_probe (cfg : Config) (ev : Event) : bool :=
  match ev with
  | Ev op answer =>
      match op in ExtOp X return X -> bool with
      | ClientGet url timeout =>
          fun r => String.eqb url (health_url cfg) && (timeout =? 5)
                   && says_healthy r
      | _ => fun _ => false
      end answer
  end.

(** [true] once the task has had a health probe answered with 200. *)
Definition seen_next (cfg : Config) (seen : bool) (X : Type) (op : Op X)
  : X -> bool :=
  match op in Op X return X -> bool with
  | Call e => fun answer => seen || ev_is_healthy_probe cfg (Ev e answer)
  | _ => fun _ => seen
  end.

(** A task that returns true only after one of its own health probes was
    answered with 200, whatever it reads from the manager and whatever the
    world answers. *)
Definition earns_true (cfg : Config) (seen : bool) (p : Prog bool) : Prop :=
  Follows (fun _ _ _ => True) (fun _ _ _ _ => True) (seen_next cfg)
    (fun seen' b => b = true -> seen' = true) (fun _ _ => True) seen p.

(** *** The pools that handlers running side by side reach *)

Section FlightInvariant.
Context {W : Type} {A : Type}.
Variable cfg : Config.
(** The worlds in which the container is down, and those in which it is
    up. *)
Variables down up : W -> Prop.
(** The start commands in the log at the beginning. *)
Variable before : nat.

(** The role of task [i] when [holder] tells who is under the lock. *)
Definition role_at (holder : option (nat * bool)) (i : nat) : Role :=
  match holder with
  | Some (j, may_start) => if Nat.eqb i j then Inside may_start else Outside
  | None => Outside
  end.

(** No start command yet, the container down and every task still to
    issue one before it ends; or one start command, and the container
    up. *)
Definition flight_phase (ps : Pool A) : Prop :=
  let starts := count_events (ev_is_docker "start") (trace (snd ps)) in
  (starts = before /\ down (world (snd ps))
   /\ forall i t, fst ps !! i = Some t -> owes_start cfg t)
  \/ (starts = S before /\ up (world (snd ps))).

(** At most one task is under the lock, the lock is held exactly then,
    every task keeps to the discipline from where it stands, and a task
    that may start the container has seen no start command yet. *)
Definition flight (ps : Pool A) : Prop :=
  exists holder : option (nat * bool),
    _lock (mgr (snd ps)) = (match holder with Some _ => true | None => false end)
    /\ (forall i t, fst ps !! i = Some t -> obeys cfg (role_at holder i) t)
    /\ (forall j, holder = Some (j, true) ->
        count_events (ev_is_docker "start") (trace (snd ps)) = before)
    /\ flight_phase ps.
End FlightInvariant.

(** ** General facts on running programs *)

Section RunFacts.
Context {W : Type}.
Variable respond : forall X : Type, ExtOp X -> W -> X * W.

Lemma run_bind {A B : Type} (p : Prog A) (f : A -> Prog B) (s : State W) :
  run respond (bind p f) s =
  match run respond p s with
  | (Ret a, s1) => run respond (f a) s1
  | (Raise e, s1) => (Raise e, s1)
  | (Pending, s1) => (Pending, s1)
  | (Act op k, s1) => (bind (Act op k) f, s1)
  end.
Proof.
  revert s; induction p as [a|e| |X op k IH]; intros s; simpl; try reflexivity.
  destruct (enabled op s); [|reflexivity].
  destruct (exec respond op s) as [x s']. apply IH.
Qed.

Lemma run_try_except {A : Type} (p : Prog A) (h : exn -> Prog A) (s : State W) :
  run respond (try_except p h) s =
  match run respond p s with
  | (Ret a, s1) => (Ret a, s1)
  | (Raise e, s1) =>
      if is_Exception e then run respond (h e) s1 else (Raise e, s1)
  | (Pending, s1) => (Pending, s1)
  | (Act op k, s1) => (try_except (Act op k) h, s1)
  end.
Proof.
  revert s; induction p as [a|e| |X op k IH]; intros s; simpl; try reflexivity.
  - destruct (is_Exception e); reflexivity.
  - destruct (enabled op s); [|reflexivity].
    destruct (exec respond op s) as [x s']. apply IH.
Qed.

Lemma run_try_finally {A : Type} (p : Prog A) (q : Prog unit) (s : State W) :
  run respond (try_finally p q) s =
  match run respond p s with
  | (Ret a, s1) => run respond (do q then Ret a) s1
  | (Raise e, s1) => run respond (do q then Raise e) s1
  | (Pending, s1) => (Pending, s1)
  | (Act op k, s1) => (try_finally (Act op k) q, s1)
  end.
Proof.
  revert s; induction p as [a|e| |X op k IH]; intros s; simpl; try reflexivity.
  destruct (enabled op s); [|reflexivity].
  destruct (exec respond op s) as [x s']. apply IH.
Qed.

(** The log only grows, and by calls the program can perform. *)
Lemma run_trace {A : Type} (ok : forall X : Type, ExtOp X -> Prop)
  (p : Prog A) (s : State W) :
  Always (calls_only ok) p ->
  exists tr, trace (snd (run respond p s)) = trace s ++ tr
             /\ Forall (ev_ok ok) tr.
Proof.
  intros H; revert s; induction H as [a|e| |X op k Hop _ IH]; intros s; simpl;
    try (exists []; rewrite app_nil_r; split; [reflexivity|constructor]).
  destruct (enabled op s); simpl;
    [|exists []; rewrite app_nil_r; split; [reflexivity|constructor]].
  destruct (exec respond op s) as [x s'] eqn:E.
  destruct (IH x s') as (tr & -> & Htr).
  destruct op as [ |t| |b| |b| | |Y e]; simpl in E;
    try (inversion E; subst; exists tr; split; [reflexivity|assumption]).
  destruct (respond Y e (world s)) as [y w].
  inversion E; subst; unfold logged; simpl.
  exists (Ev e x :: tr). rewrite <- app_assoc. split; [reflexivity|].
  constructor; assumption.
Qed.

Lemma Always_bind {A B : Type} P (p : Prog A) (f : A -> Prog B) :
  Always P p -> (forall a, Always P (f a)) -> Always P (bind p f).
Proof.
  intros H Hf; induction H; simpl; try constructor; auto.
Qed.

Lemma Always_try_except {A : Type} P (p : Prog A) h :
  Always P p -> (forall e, Always P (h e)) -> Always P (try_except p h).
Proof.
  intros H Hh; induction H; simpl; try constructor; auto.
  destruct (is_Exception e); [apply Hh|constructor].
Qed.

Lemma Always_try_finally {A : Type} P (p : Prog A) q :
  Always P p -> Always P q -> Always P (try_finally p q).
Proof.
  intros H Hq; induction H; simpl; try constructor; auto.
  - apply Always_bind; [assumption|intros; constructor].
  - apply Always_bind; [assumption|intros; constructor].
Qed.

Lemma Always_perform {X : Type} (P : forall X : Type, Op X -> Prop)
  (op : Op X) :
  P X op -> Always P (perform op).
Proof. intros H; constructor; [assumption|intros; constructor]. Qed.

Lemma Always_call {A : Type} (P : forall X : Type, Op X -> Prop)
  (e : ExtOp (result A)) :
  P _ (Call e) -> Always P (call e).
Proof. intros H; constructor; [assumption|intros [a|x]; constructor]. Qed.
End RunFacts.

(** Breaks a goal [Always P p] down along the structure of [p]. *)
Ltac shape :=
  repeat first
    [ apply Always_bind | apply Always_try_except | apply Always_try_finally
    | apply Always_perform | apply Always_call
    | match goal with |- Always _ (if ?b then _ else _) => destruct b end
    | constructor | intro | solve [auto] ].

(** ** The methods of [ServerManager] *)

Section ManagerFacts.
Context {W : Type}.
Variable respond : forall X : Type, ExtOp X -> W -> X * W.
Variable hz : Z.
Variable cfg : Config.

Lemma run_perform {X : Type} (op : Op X) (s : State W) :
  enabled op s = true ->
  run respond (perform op) s =
  (Ret (fst (exec respond op s)), snd (exec respond op s)).
Proof.
  intros E; unfold perform; simpl. rewrite E.
  destruct (exec respond op s); reflexivity.
Qed.

Lemma run_monotonic (s : State W) t w :
  respond _ TimeMonotonic (world s) = (t, w) ->
  run respond monotonic s = (Ret t, logged s TimeMonotonic t w).
Proof. intros E; unfold monotonic, perform; simpl. rewrite E. reflexivity. Qed.

Lemma run_call {A : Type} (e : ExtOp (result A)) (s : State W) r w :
  respond _ e (world s) = (r, w) ->
  run respond (call e) s =
  (match r with Ok a => Ret a | Err x => Raise x end, logged s e r w).
Proof.
  intros E; unfold call; simpl. rewrite E. destruct r; reflexivity.
Qed.

Lemma run_record_activity (s : State W) t w :
  respond _ TimeMonotonic (world s) = (t, w) ->
  run respond record_activity s =
  (Ret tt, with_mgr (set_last_activity_time t) (logged s TimeMonotonic t w)).
Proof.
  intros E; unfold record_activity. rewrite run_bind, (run_monotonic _ _ _ E).
  reflexivity.
Qed.

Lemma run_get_idle_seconds (s : State W) t w :
  respond _ TimeMonotonic (world s) = (t, w) ->
  run respond get_idle_seconds s =
  (Ret (t - last_activity_time (mgr s)), logged s TimeMonotonic t w).
Proof.
  intros E; unfold get_idle_seconds. rewrite run_bind, (run_monotonic _ _ _ E).
  reflexivity.
Qed.

Lemma run_check_health (s : State W) r w :
  respond _ (ClientGet (health_url cfg) 5) (world s) = (r, w) ->
  run respond (check_health cfg) s =
  (match r with
   | Ok status => Ret (status =? 200)
   | Err e => if is_Exception e then Ret false else Raise e
   end, logged s (ClientGet (health_url cfg) 5) r w).
Proof.
  intros E; unfold check_health. rewrite run_try_except, run_bind.
  rewrite (run_call _ _ _ _ E). destruct r as [status|e]; simpl; [reflexivity|].
  destruct (is_Exception e); reflexivity.
Qed.

Lemma run_check_health_ordinary (s : State W) r w :
  respond _ (ClientGet (health_url cfg) 5) (world s) = (r, w) ->
  ordinary r ->
  run respond (check_health cfg) s =
  (Ret (says_healthy r), logged s (ClientGet (health_url cfg) 5) r w).
Proof.
  intros E Hr. rewrite (run_check_health _ _ _ E).
  destruct r as [status|e]; simpl in *; [reflexivity|]. rewrite Hr. reflexivity.
Qed.

Lemma run_is_container_running (s : State W) r w :
  respond _ (docker_inspect cfg) (world s) = (r, w) ->
  ordinary r ->
  run respond (is_container_running cfg) s =
  (Ret (says_running r), logged s (docker_inspect cfg) r w).
Proof.
  intros E Hr; unfold is_container_running.
  rewrite run_try_except, run_bind, (run_call _ _ _ _ E).
  destruct r as [c|e]; simpl in *; [reflexivity|]. rewrite Hr. reflexivity.
Qed.

Lemma run_start_container (s : State W) r w :
  respond _ (docker_start cfg) (world s) = (r, w) ->
  ordinary r ->
  run respond (start_container cfg) s =
  (Ret (exit_zero r), logged s (docker_start cfg) r w).
Proof.
  intros E Hr; unfold start_container.
  rewrite run_try_except, run_bind, (run_call _ _ _ _ E).
  destruct r as [c|e]; simpl in *.
  - destruct (returncode c =? 0); reflexivity.
  - rewrite Hr. reflexivity.
Qed.

Lemma run_stop_container (s : State W) r w :
  respond _ (docker_stop cfg) (world s) = (r, w) ->
  ordinary r ->
  run respond (stop_container cfg) s =
  (Ret (exit_zero r),
   if exit_zero r
   then with_mgr (set_healthy false) (logged s (docker_stop cfg) r w)
   else logged s (docker_stop cfg) r w).
Proof.
  intros E Hr; unfold stop_container.
  rewrite run_try_except, run_bind, (run_call _ _ _ _ E).
  destruct r as [c|e]; simpl in *.
  - destruct (returncode c =? 0); reflexivity.
  - rewrite Hr. reflexivity.
Qed.

(** *** The idle tracker *)

(** C9. [get_idle_seconds] returns the clock reading it takes minus the
    time stamp that the last [record_activity] stored, which is the clock
    reading that call took; when the clock has not advanced between the
    two readings, [record_activity] followed by [get_idle_seconds] gives
    zero. *)
Theorem idle_seconds_since_last_activity (s : State W) t1 w1 t2 w2 :
  respond _ TimeMonotonic (world s) = (t1, w1) ->
  respond _ TimeMonotonic w1 = (t2, w2) ->
  let s1 := snd (run respond record_activity s) in
  fst (run respond record_activity s) = Ret tt
  /\ last_activity_time (mgr s1) = t1
  /\ world s1 = w1
  /\ fst (run respond get_idle_seconds s1) = Ret (t2 - t1)
  /\ fst (run respond (do record_activity then get_idle_seconds) s)
     = Ret (t2 - t1)
  /\ (t2 = t1 ->
      fst (run respond (do record_activity then get_idle_seconds) s) = Ret 0).
Proof.
  intros E1 E2 s1. subst s1.
  rewrite run_bind, (run_record_activity _ _ _ E1). cbn [fst snd].
  assert (H : run respond get_idle_seconds
            (with_mgr (set_last_activity_time t1) (logged s TimeMonotonic t1 w1))
          = (Ret (t2 - t1),
             logged (with_mgr (set_last_activity_time t1)
                       (logged s TimeMonotonic t1 w1)) TimeMonotonic t2 w2)).
  { apply run_get_idle_seconds. exact E2. }
  rewrite H. cbn [fst snd]. repeat split; try reflexivity.
  intros ->. f_equal. lia.
Qed.

(** *** The health probe *)

(** C8. Whatever the probe's outcome (an HTTP status, a network error, a
    timeout), [check_health] returns a boolean and does not raise; the
    boolean is true exactly when the health endpoint answered with status
    200; the probe is issued with a timeout of 5 seconds. *)
Theorem check_health_never_raises (s : State W) r w :
  respond _ (ClientGet (health_url cfg) 5) (world s) = (r, w) ->
  probe_outcome r ->
  exists b : bool,
    run respond (check_health cfg) s
    = (Ret b, logged s (ClientGet (health_url cfg) 5) r w)
    /\ (b = true <-> r = Ok 200)
    /\ (match r with Ok 200 => False | _ => True end -> b = false).
Proof.
  intros E Hr. exists (says_healthy r).
  split; [apply run_check_health_ordinary; assumption|].
  destruct r as [status|e]; simpl.
  - split.
    + rewrite Z.eqb_eq. split; [intros ->; reflexivity|intros [= ->]; reflexivity].
    + intros H. destruct (Z.eqb_spec status 200) as [->|]; [destruct H|reflexivity].
  - split; [split; discriminate|reflexivity].
Qed.
End ManagerFacts.

(** ** The readiness protocol *)

Section Readiness.
Context {W : Type}.
Variable respond : forall X : Type, ExtOp X -> W -> X * W.
Variable hz : Z.
Variable cfg : Config.

(** The state in which the [try] block of the slow path starts. *)
Lemma run_slow_path (fuel : nat) (s : State W) :
  run respond (slow_path hz cfg fuel) s =
  run respond
    (try_finally
       (let* running := is_container_running cfg in
        if negb running then
          let* started := start_container cfg in
          if negb started then Ret false else wait_for_health hz cfg fuel
        else wait_for_health hz cfg fuel)
       (perform (SetStarting false)))
    (with_mgr (set_starting true) (with_mgr (set_healthy false) s)).
Proof. reflexivity. Qed.

Lemma run_with_lock {A : Type} (p : Prog A) (s : State W) :
  _lock (mgr s) = false ->
  run respond (with_lock p) s =
  run respond (try_finally p (perform Release)) (with_mgr (set_lock true) s).
Proof. intros E; unfold with_lock; simpl. rewrite E. reflexivity. Qed.

Lemma slow_path_resets_starting (fuel : nat) (s : State W) :
  finished (fst (run respond (slow_path hz cfg fuel) s)) = true ->
  _starting (mgr (snd (run respond (slow_path hz cfg fuel) s))) = false.
Proof.
  rewrite run_slow_path, run_try_finally.
  destruct (run respond _ _) as [[a|e| |X op k] s3]; simpl;
    try discriminate; reflexivity.
Qed.

(** The two ways through the block under the lock. *)
Lemma run_ensure_body (fuel : nat) (s : State W) :
  run respond (ensure_body hz cfg fuel) s =
  if _healthy (mgr s) then
    let '(r, w) := respond _ (ClientGet (health_url cfg) 5) (world s) in
    let s1 := logged s (ClientGet (health_url cfg) 5) r w in
    match r with
    | Ok status =>
        if status =? 200 then (Ret true, s1)
        else run respond (slow_path hz cfg fuel) s1
    | Err e =>
        if is_Exception e then run respond (slow_path hz cfg fuel) s1
        else (Raise e, s1)
    end
  else run respond (slow_path hz cfg fuel) s.
Proof.
  unfold ensure_body. rewrite run_bind, run_perform by reflexivity.
  cbn [exec fst snd]. destruct (_healthy (mgr s)).
  - rewrite run_bind.
    destruct (respond _ (ClientGet (health_url cfg) 5) (world s)) as [r w] eqn:E.
    rewrite (run_check_health _ _ _ _ _ E).
    destruct r as [status|e].
    + destruct (status =? 200); reflexivity.
    + destruct (is_Exception e); reflexivity.
  - rewrite run_bind. reflexivity.
Qed.

Lemma ensure_body_resets_starting (fuel : nat) (s : State W) :
  _starting (mgr s) = false ->
  finished (fst (run respond (ensure_body hz cfg fuel) s)) = true ->
  _starting (mgr (snd (run respond (ensure_body hz cfg fuel) s))) = false.
Proof.
  intros Hs. rewrite run_ensure_body.
  destruct (_healthy (mgr s)); [|apply slow_path_resets_starting].
  destruct (respond _ _ _) as [[status|e] w]; cbn zeta.
  - destruct (status =? 200); [intros _; exact Hs|apply slow_path_resets_starting].
  - destruct (is_Exception e); [apply slow_path_resets_starting|intros _; exact Hs].
Qed.

(** When a call that was under the lock has come to its end, the lock
    is free again. *)
Lemma run_locked_finished {A : Type} (p : Prog A) (s : State W) :
  finished (fst (run respond (try_finally p (perform Release)) s)) = true ->
  finished (fst (run respond p s)) = true
  /\ fst (run respond (try_finally p (perform Release)) s)
     = fst (run respond p s)
  /\ snd (run respond (try_finally p (perform Release)) s)
     = with_mgr (set_lock false) (snd (run respond p s)).
Proof.
  rewrite run_try_finally.
  destruct (run respond p s) as [[a|e| |X op k] s1]; simpl;
    try discriminate; auto.
Qed.

(** Once [ensure_server_ready] has come to its end, [_starting] is false
    and the lock is free. *)
Lemma ensure_resets_starting (fuel : nat) (s : State W) :
  _lock (mgr s) = false ->
  _starting (mgr s) = false ->
  finished (fst (run respond (ensure_server_ready hz cfg fuel) s)) = true ->
  _starting (mgr (snd (run respond (ensure_server_ready hz cfg fuel) s))) = false
  /\ _lock (mgr (snd (run respond (ensure_server_ready hz cfg fuel) s))) = false.
Proof.
  intros Hl Hs. unfold ensure_server_ready. rewrite run_with_lock by exact Hl.
  intros Hf. destruct (run_locked_finished _ _ Hf) as (Hf' & _ & ->).
  split; [|reflexivity].
  apply (ensure_body_resets_starting fuel (with_mgr (set_lock true) s));
    assumption.
Qed.
(** C4. In the slow path, when [docker inspect] does not report a
    running container and the start command fails (non-zero exit code or
    an exception), the function returns false at once: the only external
    calls are the inspect and the start, no health probe and no sleep
    follow, for any bound on the loop, even none. *)
Theorem start_failure_fails_fast (fuel : nat) (s : State W) r1 w1 r2 w2 :
  respond _ (docker_inspect cfg) (world s) = (r1, w1) ->
  ordinary r1 ->
  says_running r1 = false ->
  respond _ (docker_start cfg) w1 = (r2, w2) ->
  ordinary r2 ->
  exit_zero r2 = false ->
  let calls := [Ev (docker_inspect cfg) r1; Ev (docker_start cfg) r2] in
  run respond (slow_path hz cfg fuel) s
  = (Ret false,
     mkState (set_starting false (set_starting true (set_healthy false (mgr s))))
       w2 (trace s ++ calls))
  /\ (_lock (mgr s) = false ->
      _healthy (mgr s) = false ->
      fst (run respond (ensure_server_ready hz cfg fuel) s) = Ret false
      /\ trace (snd (run respond (ensure_server_ready hz cfg fuel) s))
         = trace s ++ calls).
Proof.
  intros E1 O1 R1 E2 O2 Z2 calls.
  assert (Hslow : forall s0 : State W, world s0 = world s ->
    run respond (slow_path hz cfg fuel) s0
    = (Ret false,
       mkState (set_starting false (set_starting true (set_healthy false (mgr s0))))
         w2 (trace s0 ++ calls))).
  { intros s0 Hw. rewrite run_slow_path, run_try_finally, run_bind.
    rewrite (run_is_container_running respond cfg _ r1 w1)
      by (simpl; rewrite Hw; exact E1) || exact O1.
    rewrite R1. cbn [negb]. rewrite run_bind.
    rewrite (run_start_container respond cfg _ r2 w2) by exact E2 || exact O2.
    rewrite Z2. simpl. unfold with_mgr, logged; simpl.
    rewrite <- app_assoc. reflexivity. }
  split; [apply Hslow; reflexivity|].
  intros Hl Hh. unfold ensure_server_ready.
  rewrite run_with_lock by exact Hl. rewrite run_try_finally, run_ensure_body.
  cbn [with_mgr mgr set_lock _healthy]. rewrite Hh.
  rewrite Hslow by reflexivity. simpl. split; reflexivity.
Qed.
(** *** The polling loop *)

(** One evaluation of the loop condition and, if it holds, one turn. *)
Lemma run_poll_S (fuel : nat) (start count : Z) (s : State W) :
  run respond (poll hz cfg (S fuel) start count) s =
  let '(t1, w1) := respond _ TimeMonotonic (world s) in
  let s1 := logged s TimeMonotonic t1 w1 in
  if t1 - start <? STARTUP_TIMEOUT cfg * hz then
    let '(r, w2) := respond _ (ClientGet (health_url cfg) 5) w1 in
    let s2 := logged s1 (ClientGet (health_url cfg) 5) r w2 in
    match probe_verdict r with
    | Err e => (Raise e, s2)
    | Ok true =>
        let '(t2, w3) := respond _ TimeMonotonic w2 in
        let s3 := with_mgr (set_healthy true) (logged s2 TimeMonotonic t2 w3) in
        let '(t3, w4) := respond _ TimeMonotonic w3 in
        (Ret true,
         with_mgr (set_last_activity_time t3) (logged s3 TimeMonotonic t3 w4))
    | Ok false =>
        let '(t2, w3) := respond _ TimeMonotonic w2 in
        let s3 := logged s2 TimeMonotonic t2 w3 in
        let wait_time := if t2 - start <? 30 * hz then 2 else 5 in
        let '(a, w4) := respond _ (AsyncioSleep wait_time) w3 in
        let s4 := logged s3 (AsyncioSleep wait_time) a w4 in
        match a with
        | Ok _ => run respond (poll hz cfg fuel start (count + 1)) s4
        | Err e => (Raise e, s4)
        end
    end
  else (Ret false, s1).
Proof.
  cbn [poll]. rewrite run_bind.
  destruct (respond _ TimeMonotonic (world s)) as [t1 w1] eqn:E1.
  rewrite (run_monotonic respond _ _ _ E1). cbn zeta.
  destruct (t1 - start <? STARTUP_TIMEOUT cfg * hz); [|reflexivity].
  rewrite run_bind.
  destruct (respond _ (ClientGet (health_url cfg) 5) w1) as [r w2] eqn:E2.
  rewrite (run_check_health respond cfg _ r w2) by exact E2.
  assert (Hidle : forall s2 : State W, world s2 = w2 ->
    run respond
      (let* now := monotonic in
       do call (AsyncioSleep (if now - start <? 30 * hz then 2 else 5)) then
       poll hz cfg fuel start (count + 1)) s2
    = let '(t2, w3) := respond _ TimeMonotonic w2 in
      let s3 := logged s2 TimeMonotonic t2 w3 in
      let wait_time := if t2 - start <? 30 * hz then 2 else 5 in
      let '(a, w4) := respond _ (AsyncioSleep wait_time) w3 in
      let s4 := logged s3 (AsyncioSleep wait_time) a w4 in
      match a with
      | Ok _ => run respond (poll hz cfg fuel start (count + 1)) s4
      | Err e => (Raise e, s4)
      end).
  { intros s2 Hw. rewrite run_bind.
    destruct (respond _ TimeMonotonic w2) as [t2 w3] eqn:E3.
    rewrite (run_monotonic respond s2 t2 w3) by (rewrite Hw; exact E3).
    cbn zeta. rewrite run_bind.
    destruct (respond _ (AsyncioSleep _) w3) as [a w4] eqn:E4.
    rewrite (run_call respond _ _ a w4) by exact E4.
    destruct a; reflexivity. }
  destruct r as [status|e]; cbn [probe_verdict].
  - destruct (status =? 200).
    + rewrite run_bind.
      destruct (respond _ TimeMonotonic w2) as [t2 w3] eqn:E3.
      rewrite (run_monotonic respond _ t2 w3) by exact E3.
      rewrite run_bind, run_perform by reflexivity. cbn [exec fst snd].
      rewrite run_bind.
      destruct (respond _ TimeMonotonic w3) as [t3 w4] eqn:E4.
      rewrite (run_record_activity respond _ t3 w4) by exact E4.
      reflexivity.
    + apply Hidle. reflexivity.
  - destruct (is_Exception e); [apply Hidle|]; reflexivity.
Qed.
Lemma paced_first_free start prev ev tr :
  paced hz (STARTUP_TIMEOUT cfg) start None (ev :: tr) ->
  paced hz (STARTUP_TIMEOUT cfg) start prev (ev :: tr).
Proof.
  intros [Hr Ht]; split; [|exact Ht].
  destruct ev as [X op a]; destruct op; simpl in *; auto;
    destruct Hr as (t & [=] & _).
Qed.

Lemma paced_weaken start prev tr :
  paced hz (STARTUP_TIMEOUT cfg) start None tr ->
  paced hz (STARTUP_TIMEOUT cfg) start prev tr.
Proof. destruct tr; [trivial|apply paced_first_free]. Qed.

Lemma paced_middle start prev pre ev post :
  paced hz (STARTUP_TIMEOUT cfg) start prev (pre ++ ev :: post) ->
  pace_rule hz (STARTUP_TIMEOUT cfg) start
    (match last pre with Some e => Some e | None => prev end) ev.
Proof.
  revert prev; induction pre as [|e pre IH]; intros prev; simpl.
  - intros [H _]; exact H.
  - intros [_ H]. specialize (IH _ H).
    destruct pre as [|e' pre]; [exact IH|].
    rewrite last_cons. destruct (last (e' :: pre)); exact IH.
Qed.

Lemma poll_paced (fuel : nat) (start count : Z) (s : State W) :
  exists tr,
    trace (snd (run respond (poll hz cfg fuel start count) s)) = trace s ++ tr
    /\ paced hz (STARTUP_TIMEOUT cfg) start None tr.
Proof.
  revert count s; induction fuel as [|fuel IH]; intros count s.
  { exists []; simpl. rewrite app_nil_r. split; [reflexivity|exact I]. }
  rewrite run_poll_S.
  destruct (respond _ TimeMonotonic (world s)) as [t1 w1].
  cbn zeta. destruct (Z.ltb_spec (t1 - start) (STARTUP_TIMEOUT cfg * hz)) as [G|G].
  2: { exists [Ev TimeMonotonic t1]; simpl; auto. }
  destruct (respond _ (ClientGet (health_url cfg) 5) w1) as [r w2].
  assert (Hprobe : pace_rule hz (STARTUP_TIMEOUT cfg) start
                     (Some (Ev TimeMonotonic t1))
                     (Ev (ClientGet (health_url cfg) 5) r)).
  { exists t1; split; [reflexivity|exact G]. }
  destruct (probe_verdict r) as [[|]|e].
  - destruct (respond _ TimeMonotonic w2) as [t2 w3].
    destruct (respond _ TimeMonotonic w3) as [t3 w4].
    exists [Ev TimeMonotonic t1; Ev (ClientGet (health_url cfg) 5) r;
            Ev TimeMonotonic t2; Ev TimeMonotonic t3].
    unfold logged, with_mgr; simpl. rewrite <- !app_assoc. simpl.
    split; [reflexivity|repeat split; auto].
  - destruct (respond _ TimeMonotonic w2) as [t2 w3]. cbn zeta.
    destruct (respond _ (AsyncioSleep _) w3) as [a w4].
    set (d := if t2 - start <? 30 * hz then 2 else 5).
    assert (Hsleep : pace_rule hz (STARTUP_TIMEOUT cfg) start
                       (Some (Ev TimeMonotonic t2)) (Ev (AsyncioSleep d) a)).
    { exists t2; split; reflexivity. }
    destruct a as [u|e].
    + destruct (IH (count + 1)
                  (logged (logged (logged (logged s TimeMonotonic t1 w1)
                     (ClientGet (health_url cfg) 5) r w2) TimeMonotonic t2 w3)
                     (AsyncioSleep d) (Ok u) w4)) as (tr & -> & Htr).
      exists ([Ev TimeMonotonic t1; Ev (ClientGet (health_url cfg) 5) r;
               Ev TimeMonotonic t2; Ev (AsyncioSleep d) (Ok u)] ++ tr).
      unfold logged; simpl. rewrite <- !app_assoc. simpl.
      split; [reflexivity|]. repeat split; auto. apply paced_weaken, Htr.
    + exists [Ev TimeMonotonic t1; Ev (ClientGet (health_url cfg) 5) r;
              Ev TimeMonotonic t2; Ev (AsyncioSleep d) (Err e)].
      unfold logged; simpl. rewrite <- !app_assoc. simpl.
      split; [reflexivity|repeat split; auto].
  - exists [Ev TimeMonotonic t1; Ev (ClientGet (health_url cfg) 5) r].
    unfold logged; simpl. rewrite <- !app_assoc. simpl.
    split; [reflexivity|repeat split; auto].
Qed.

(** The log of the loop is made of whole rounds, and the outcome is the
    one the last round gives. *)
Lemma poll_rounds_run (fuel : nat) (start count : Z) (s : State W) :
  exists tr,
    trace (snd (run respond (poll hz cfg fuel start count) s)) = trace s ++ tr
    /\ poll_rounds hz (STARTUP_TIMEOUT cfg) (health_url cfg) start fuel tr
         (fst (run respond (poll hz cfg fuel start count) s)).
Proof.
  revert count s; induction fuel as [|fuel IH]; intros count s.
  { exists []; simpl. rewrite app_nil_r. split; [reflexivity|constructor]. }
  rewrite run_poll_S.
  destruct (respond _ TimeMonotonic (world s)) as [t1 w1].
  cbn zeta. destruct (Z.ltb_spec (t1 - start) (STARTUP_TIMEOUT cfg * hz)) as [G|G].
  2: { exists [Ev TimeMonotonic t1]; simpl. split; [reflexivity|].
       constructor. exact G. }
  destruct (respond _ (ClientGet (health_url cfg) 5) w1) as [r w2].
  destruct (probe_verdict r) as [[|]|e] eqn:Hv.
  - destruct (respond _ TimeMonotonic w2) as [t2 w3].
    destruct (respond _ TimeMonotonic w3) as [t3 w4].
    exists [Ev TimeMonotonic t1; Ev (ClientGet (health_url cfg) 5) r;
            Ev TimeMonotonic t2; Ev TimeMonotonic t3].
    split; [|constructor; assumption].
    unfold logged, with_mgr; cbn [trace snd fst]. rewrite <- !app_assoc.
    reflexivity.
  - destruct (respond _ TimeMonotonic w2) as [t2 w3]. cbn zeta.
    change (if t2 - start <? 30 * hz then 2 else 5)
      with (wait_time hz start t2).
    destruct (respond _ (AsyncioSleep _) w3) as [a w4].
    destruct a as [u|e].
    + destruct (IH (count + 1)
                  (logged (logged (logged (logged s TimeMonotonic t1 w1)
                     (ClientGet (health_url cfg) 5) r w2) TimeMonotonic t2 w3)
                     (AsyncioSleep (wait_time hz start t2)) (Ok u) w4))
        as (tr & Htr & Hr).
      exists ([Ev TimeMonotonic t1; Ev (ClientGet (health_url cfg) 5) r;
               Ev TimeMonotonic t2;
               Ev (AsyncioSleep (wait_time hz start t2)) (Ok u)] ++ tr).
      split; [|apply rounds_again; assumption].
      rewrite Htr. unfold logged; cbn [trace]. rewrite <- !app_assoc.
      reflexivity.
    + exists [Ev TimeMonotonic t1; Ev (ClientGet (health_url cfg) 5) r;
              Ev TimeMonotonic t2;
              Ev (AsyncioSleep (wait_time hz start t2)) (Err e)].
      split; [|constructor; assumption].
      unfold logged; cbn [trace snd fst]. rewrite <- !app_assoc. reflexivity.
  - exists [Ev TimeMonotonic t1; Ev (ClientGet (health_url cfg) 5) r].
    split; [|constructor; assumption].
    unfold logged; cbn [trace snd fst]. rewrite <- !app_assoc. reflexivity.
Qed.

(** C6. The wait for health reads the clock once, [start], and then
    goes round the loop; its log is made of whole rounds and nothing else
    ([poll_rounds]).  A round reads the clock and ends the loop with false
    when the elapsed wait has reached the startup timeout; below the
    timeout it probes, and after a probe that did not find the backend
    healthy it reads the clock again and sleeps before the next round: 2
    seconds when the elapsed wait at that reading is under 30 seconds, 5
    seconds otherwise.  So two probes are always separated by one such
    sleep, every sleep in the log is one of these, and every probe directly
    follows a clock reading at which the elapsed wait was below the
    timeout, whose default is 600 seconds. *)
Theorem polling_pace (fuel : nat) (s : State W) :
  exists start tr,
    trace (snd (run respond (wait_for_health hz cfg fuel) s))
    = trace s ++ Ev TimeMonotonic start :: tr
    /\ poll_rounds hz (STARTUP_TIMEOUT cfg) (health_url cfg) start fuel tr
         (fst (run respond (wait_for_health hz cfg fuel) s))
    /\ (forall pre d a post,
          tr = pre ++ Ev (AsyncioSleep d) a :: post ->
          exists pre' t,
            pre = pre' ++ [Ev TimeMonotonic t]
            /\ d = (if t - start <? 30 * hz then 2 else 5))
    /\ (forall pre url timeout a post,
          tr = pre ++ Ev (ClientGet url timeout) a :: post ->
          exists pre' t,
            pre = pre' ++ [Ev TimeMonotonic t]
            /\ t - start < STARTUP_TIMEOUT cfg * hz)
    /\ STARTUP_TIMEOUT default_config = 600.
Proof.
  unfold wait_for_health. rewrite run_bind.
  destruct (respond _ TimeMonotonic (world s)) as [start w0] eqn:E0.
  rewrite (run_monotonic respond s start w0 E0).
  destruct (poll_paced fuel start 0 (logged s TimeMonotonic start w0))
    as (tr & Htr & Hp).
  destruct (poll_rounds_run fuel start 0 (logged s TimeMonotonic start w0))
    as (tr' & Htr' & Hrounds).
  assert (tr' = tr) as ->.
  { rewrite Htr in Htr'. apply app_inv_head in Htr'. congruence. }
  exists start, tr. split.
  { rewrite Htr. unfold logged; simpl. rewrite <- app_assoc. reflexivity. }
  split; [exact Hrounds|].
  repeat split.
  - intros pre d a post ->. apply paced_middle in Hp. simpl in Hp.
    destruct Hp as (t & Hl & Hd).
    destruct (last pre) as [e|] eqn:El; [|discriminate].
    injection Hl as ->. apply last_Some in El as [pre' ->].
    exists pre', t. split; [reflexivity|exact Hd].
  - intros pre url timeout a post ->. apply paced_middle in Hp. simpl in Hp.
    destruct Hp as (t & Hl & Hd).
    destruct (last pre) as [e|] eqn:El; [|discriminate].
    injection Hl as ->. apply last_Some in El as [pre' ->].
    exists pre', t. split; [reflexivity|exact Hd].
Qed.
(** *** The external calls of the readiness protocol *)

Section Shape.
Variable P : forall X : Type, Op X -> Prop.
Hypothesis P_get_healthy : P _ GetHealthy.
Hypothesis P_set_healthy : forall b, P _ (SetHealthy b).
Hypothesis P_set_starting : forall b, P _ (SetStarting b).
Hypothesis P_set_last : forall t, P _ (SetLastActivity t).
Hypothesis P_clock : P _ (Call TimeMonotonic).
Hypothesis P_probe : P _ (Call (ClientGet (health_url cfg) 5)).
Hypothesis P_inspect : P _ (Call (docker_inspect cfg)).
Hypothesis P_start : P _ (Call (docker_start cfg)).
Hypothesis P_sleep : forall d, P _ (Call (AsyncioSleep d)).

Lemma monotonic_shape : Always P monotonic.
Proof. unfold monotonic. shape. Qed.

Lemma check_health_shape : Always P (check_health cfg).
Proof. unfold check_health. shape. Qed.

Lemma record_activity_shape : Always P record_activity.
Proof. unfold record_activity, monotonic. shape. Qed.

Lemma poll_shape fuel start count :
  Always P (poll hz cfg fuel start count).
Proof.
  revert count; induction fuel as [|fuel IH]; intros count; cbn [poll].
  - constructor.
  - apply Always_bind; [apply monotonic_shape|intros t1].
    destruct (t1 - start <? _); [|constructor].
    apply Always_bind; [apply check_health_shape|intros [|]].
    + apply Always_bind; [apply monotonic_shape|intros _].
      apply Always_bind; [shape|intros _].
      apply Always_bind; [apply record_activity_shape|shape].
    + apply Always_bind; [apply monotonic_shape|intros t2].
      apply Always_bind; [apply Always_call, P_sleep|intros _; apply IH].
Qed.

Lemma ensure_body_shape fuel : Always P (ensure_body hz cfg fuel).
Proof.
  assert (Hw : Always P (wait_for_health hz cfg fuel)).
  { apply Always_bind; [apply monotonic_shape|intros; apply poll_shape]. }
  unfold ensure_body.
  apply Always_bind; [shape|intros healthy].
  apply Always_bind;
    [destruct healthy; [apply check_health_shape|constructor]|intros [|]].
  { constructor. }
  unfold slow_path.
  apply Always_bind; [shape|intros _].
  apply Always_bind; [shape|intros _].
  apply Always_try_finally; [|shape].
  apply Always_bind; [unfold is_container_running; shape|intros [|]];
    cbn [negb].
  { exact Hw. }
  apply Always_bind; [unfold start_container; shape|intros [|]]; cbn [negb].
  - exact Hw.
  - constructor.
Qed.
End Shape.

(** The block under the lock performs no lock operation of its own. *)
Lemma ensure_body_no_lock fuel : Always not_lock_op (ensure_body hz cfg fuel).
Proof. apply ensure_body_shape; intros; exact I. Qed.

(** The external calls of [ensure_server_ready] are clock readings,
    health probes, [docker inspect], [docker start] and sleeps. *)
Lemma ensure_server_ready_calls (ok : forall X : Type, ExtOp X -> Prop) fuel :
  ok _ TimeMonotonic ->
  ok _ (ClientGet (health_url cfg) 5) ->
  ok _ (docker_inspect cfg) ->
  ok _ (docker_start cfg) ->
  (forall d, ok _ (AsyncioSleep d)) ->
  Always (calls_only ok) (ensure_server_ready hz cfg fuel).
Proof.
  intros. unfold ensure_server_ready, with_lock.
  constructor; [exact I|intros _].
  apply Always_try_finally; [|shape].
  apply ensure_body_shape; intros; simpl; auto.
Qed.

(** *** A backend that never becomes healthy *)

Section NeverHealthy.
(** The time at which the world is, in ticks. *)
Variable now : W -> Z.
Hypothesis hz_pos : 0 < hz.
(** A clock reading lies between the time before and the time after. *)
Hypothesis clock_reads : forall w,
  now w <= fst (respond _ TimeMonotonic w)
  /\ fst (respond _ TimeMonotonic w) <= now (snd (respond _ TimeMonotonic w)).
(** No call takes the world back in time. *)
Hypothesis clock_monotone : forall X (e : ExtOp X) w,
  now w <= now (snd (respond _ e w)).
(** [asyncio.sleep(d)] returns after [d] seconds at least. *)
Hypothesis sleep_sleeps : forall d w,
  fst (respond _ (AsyncioSleep d) w) = Ok tt
  /\ now w + d * hz <= now (snd (respond _ (AsyncioSleep d) w)).
(** Every health probe fails: an error, a timeout or a status other
    than 200. *)
Hypothesis never_healthy : forall w,
  probe_verdict (fst (respond _ (ClientGet (health_url cfg) 5) w)) = Ok false.
(** The docker commands run or fail with an ordinary exception. *)
Hypothesis docker_ordinary : forall args timeout w,
  ordinary (fst (respond _ (SubprocessRun args timeout) w)).

Lemma poll_times_out (fuel : nat) (start count : Z) (s : State W) :
  start + STARTUP_TIMEOUT cfg * hz <= now (world s) + 2 * hz * Z.of_nat fuel ->
  fst (run respond (poll hz cfg (S fuel) start count) s) = Ret false
  /\ mgr (snd (run respond (poll hz cfg (S fuel) start count) s)) = mgr s.
Proof.
  revert count s; induction fuel as [|fuel IH]; intros count s Hb;
    rewrite run_poll_S;
    pose proof (clock_reads (world s)) as [Hr1 Hr2];
    destruct (respond _ TimeMonotonic (world s)) as [t1 w1]; cbn [fst snd] in *;
    cbn zeta;
    (destruct (Z.ltb_spec (t1 - start) (STARTUP_TIMEOUT cfg * hz)) as [G|G];
     [|split; reflexivity]).
  - lia.
  - pose proof (never_healthy w1) as Hv.
    pose proof (clock_monotone _ (ClientGet (health_url cfg) 5) w1) as Hm2.
    destruct (respond _ (ClientGet (health_url cfg) 5) w1) as [r w2];
      cbn [fst snd] in *.
    rewrite Hv.
    pose proof (clock_monotone _ TimeMonotonic w2) as Hm3.
    destruct (respond _ TimeMonotonic w2) as [t2 w3]; cbn [fst snd] in *.
    cbn zeta.
    set (d := if t2 - start <? 30 * hz then 2 else 5).
    assert (Hd : 2 <= d) by (subst d; destruct (_ <? _); lia).
    pose proof (sleep_sleeps d w3) as [Ha Hs4].
    destruct (respond _ (AsyncioSleep d) w3) as [a w4]; cbn [fst snd] in *.
    subst a.
    match goal with
    | |- context [run respond _ ?s4] =>
        destruct (IH (count + 1) s4) as [-> ->]
    end; [cbn [logged world]; nia|split; reflexivity].
Qed.

Lemma wait_for_health_times_out (fuel : nat) (s : State W) :
  Z.max 0 (STARTUP_TIMEOUT cfg) + 2 <= 2 * Z.of_nat fuel ->
  fst (run respond (wait_for_health hz cfg fuel) s) = Ret false
  /\ mgr (snd (run respond (wait_for_health hz cfg fuel) s)) = mgr s.
Proof.
  intros Hf. destruct fuel as [|fuel]; [lia|].
  unfold wait_for_health. rewrite run_bind.
  pose proof (clock_reads (world s)) as [_ Hr].
  destruct (respond _ TimeMonotonic (world s)) as [t0 w0] eqn:E0;
    cbn [fst snd] in *.
  rewrite (run_monotonic respond _ _ _ E0).
  destruct (poll_times_out fuel t0 0 (logged s TimeMonotonic t0 w0))
    as [-> ->]; [cbn [logged world]; nia|split; reflexivity].
Qed.

Lemma slow_path_times_out (fuel : nat) (s : State W) :
  Z.max 0 (STARTUP_TIMEOUT cfg) + 2 <= 2 * Z.of_nat fuel ->
  fst (run respond (slow_path hz cfg fuel) s) = Ret false
  /\ mgr (snd (run respond (slow_path hz cfg fuel) s))
     = set_starting false (set_starting true (set_healthy false (mgr s))).
Proof.
  intros Hf. rewrite run_slow_path, run_try_finally, run_bind.
  set (s0 := with_mgr (set_starting true) (with_mgr (set_healthy false) s)).
  assert (Hwait : forall s3 : State W, mgr s3 = mgr s0 ->
    (let '(p, s4) := run respond (wait_for_health hz cfg fuel) s3 in
     match p with
     | Ret a => run respond (do perform (SetStarting false) then Ret a) s4
     | Raise e => run respond (do perform (SetStarting false) then Raise e) s4
     | Pending => (Pending, s4)
     | Act op k => (try_finally (Act op k) (perform (SetStarting false)), s4)
     end).1 = Ret false
    /\ mgr (let '(p, s4) := run respond (wait_for_health hz cfg fuel) s3 in
     match p with
     | Ret a => run respond (do perform (SetStarting false) then Ret a) s4
     | Raise e => run respond (do perform (SetStarting false) then Raise e) s4
     | Pending => (Pending, s4)
     | Act op k => (try_finally (Act op k) (perform (SetStarting false)), s4)
     end).2 = set_starting false (mgr s0)).
  { intros s3 Hm. destruct (wait_for_health_times_out fuel s3 Hf) as [H1 H2].
    destruct (run respond (wait_for_health hz cfg fuel) s3) as [p s4].
    cbn [fst snd] in *. subst p. simpl. rewrite H2, Hm. split; reflexivity. }
  pose proof (docker_ordinary
    ["docker"; "inspect"; "-f"; "{{.State.Running}}"; CONTAINER_NAME cfg]
    10 (world s0)) as O1.
  destruct (respond _ (docker_inspect cfg) (world s0)) as [r1 w1] eqn:E1.
  unfold docker_inspect in E1. rewrite E1 in O1. cbn [fst] in O1.
  rewrite (run_is_container_running respond cfg s0 r1 w1 E1 O1).
  destruct (says_running r1); cbn [negb].
  { apply Hwait. reflexivity. }
  rewrite run_bind.
  pose proof (docker_ordinary ["docker"; "start"; CONTAINER_NAME cfg] 30 w1)
    as O2.
  destruct (respond _ (docker_start cfg) w1) as [r2 w2] eqn:E2.
  unfold docker_start in E2. rewrite E2 in O2. cbn [fst] in O2.
  rewrite (run_start_container respond cfg
             (logged s0 (docker_inspect cfg) r1 w1) r2 w2 E2 O2).
  destruct (exit_zero r2); cbn [negb].
  - apply Hwait. reflexivity.
  - simpl. split; reflexivity.
Qed.

Lemma ensure_times_out (fuel : nat) (s : State W) :
  _lock (mgr s) = false ->
  Z.max 0 (STARTUP_TIMEOUT cfg) + 2 <= 2 * Z.of_nat fuel ->
  fst (run respond (ensure_server_ready hz cfg fuel) s) = Ret false
  /\ mgr (snd (run respond (ensure_server_ready hz cfg fuel) s))
     = set_lock false (set_starting false (set_healthy false (mgr s))).
Proof.
  intros Hl Hf. unfold ensure_server_ready.
  rewrite run_with_lock by exact Hl. rewrite run_try_finally, run_ensure_body.
  set (s0 := with_mgr (set_lock true) s).
  assert (Hslow : forall s1 : State W, mgr s1 = mgr s0 ->
    (let '(p, s2) := run respond (slow_path hz cfg fuel) s1 in
     match p with
     | Ret a => run respond (do perform Release then Ret a) s2
     | Raise e => run respond (do perform Release then Raise e) s2
     | Pending => (Pending, s2)
     | Act op k => (try_finally (Act op k) (perform Release), s2)
     end).1 = Ret false
    /\ mgr (let '(p, s2) := run respond (slow_path hz cfg fuel) s1 in
     match p with
     | Ret a => run respond (do perform Release then Ret a) s2
     | Raise e => run respond (do perform Release then Raise e) s2
     | Pending => (Pending, s2)
     | Act op k => (try_finally (Act op k) (perform Release), s2)
     end).2 = set_lock false (set_starting false (set_healthy false (mgr s)))).
  { intros s1 Hm. destruct (slow_path_times_out fuel s1 Hf) as [H1 H2].
    destruct (run respond (slow_path hz cfg fuel) s1) as [p s2].
    cbn [fst snd] in *. subst p. simpl. rewrite H2, Hm.
    split; reflexivity. }
  destruct (_healthy (mgr s0)); [|apply Hslow; reflexivity].
  pose proof (never_healthy (world s0)) as Hv.
  destruct (respond _ (ClientGet (health_url cfg) 5) (world s0)) as [r w1].
  cbn [fst] in Hv. cbn zeta.
  destruct r as [status|e]; cbn [probe_verdict] in Hv.
  - injection Hv as ->. apply Hslow. reflexivity.
  - destruct (is_Exception e); [|discriminate]. apply Hslow. reflexivity.
Qed.

Lemma not_send_event (ev : Event) :
  ev_ok op_not_send ev -> ev_is_send ev = false.
Proof. destruct ev as [X op a]; destruct op; simpl; tauto. Qed.

(** C2. When every health probe fails and the clock advances as it
    should, [ensure_server_ready] returns false once the startup timeout
    has run out (the loop bound [fuel] being large enough for the
    timeout), and the handler answers 503 without any request sent to
    the backend; the backend stays cached as not healthy and no
    startup is left marked in progress. *)
Theorem unhealthy_backend_gives_503 (fuel : nat) (request : Request)
  (path : string) (s : State W) :
  _lock (mgr s) = false ->
  Z.max 0 (STARTUP_TIMEOUT cfg) + 2 <= 2 * Z.of_nat fuel ->
  let s1 := snd (run respond record_activity s) in
  let s' := snd (run respond (proxy hz cfg fuel request path) s) in
  fst (run respond (ensure_server_ready hz cfg fuel) s1) = Ret false
  /\ fst (run respond (proxy hz cfg fuel request path) s)
     = Ret (Response (json_error "Backend server failed to start") 503 ∅
              (Some "application/json"))
  /\ (exists tr, trace s' = trace s ++ tr
                 /\ Forall (fun ev => ev_is_send ev = false) tr)
  /\ _healthy (mgr s') = false
  /\ _starting (mgr s') = false.
Proof.
  intros Hl Hf s1 s'. subst s1 s'. unfold proxy.
  destruct (respond _ TimeMonotonic (world s)) as [t0 w0] eqn:E0.
  rewrite run_bind, (run_record_activity respond s t0 w0 E0). cbn [snd].
  set (s1 := with_mgr (set_last_activity_time t0) (logged s TimeMonotonic t0 w0)).
  destruct (ensure_times_out fuel s1 Hl Hf) as [He Hm].
  destruct (run_trace respond op_not_send (ensure_server_ready hz cfg fuel) s1)
    as (tr & Htr & Hok).
  { apply ensure_server_ready_calls; intros; exact I. }
  rewrite run_bind.
  destruct (run respond (ensure_server_ready hz cfg fuel) s1) as [p s2].
  cbn [fst snd] in *. subst p. cbn [negb run fst snd].
  split; [reflexivity|]. split; [reflexivity|]. split.
  - exists (Ev TimeMonotonic t0 :: tr). rewrite Htr. subst s1.
    unfold with_mgr, logged; simpl. rewrite <- app_assoc. split; [reflexivity|].
    constructor; [reflexivity|].
    eapply Forall_impl; [exact Hok|apply not_send_event].
  - rewrite Hm. split; reflexivity.
Qed.
End NeverHealthy.
End Readiness.

(** ** The idle monitor *)

Section Monitor.
Context {W : Type}.
Variable respond : forall X : Type, ExtOp X -> W -> X * W.
Variable hz : Z.
Variable cfg : Config.

Lemma run_idle_monitor_turn (s : State W) :
  run respond (idle_monitor_turn hz cfg) s =
  let '(a, w1) := respond _ (AsyncioSleep (CHECK_INTERVAL cfg)) (world s) in
  let s1 := logged s (AsyncioSleep (CHECK_INTERVAL cfg)) a w1 in
  match a with
  | Err e => (Raise e, s1)
  | Ok _ =>
      if _starting (mgr s) then (Ret tt, s1)
      else if negb (_healthy (mgr s)) then (Ret tt, s1)
      else
        let '(t, w2) := respond _ TimeMonotonic w1 in
        let s2 := logged s1 TimeMonotonic t w2 in
        if IDLE_TIMEOUT cfg * hz - (t - last_activity_time (mgr s)) <=? 0
        then run respond (do stop_container cfg then Ret tt) s2
        else (Ret tt, s2)
  end.
Proof.
  unfold idle_monitor_turn. rewrite run_bind.
  destruct (respond _ (AsyncioSleep (CHECK_INTERVAL cfg)) (world s))
    as [a w1] eqn:E1.
  rewrite (run_call respond _ s a w1 E1).
  destruct a as [u|e]; [|reflexivity]. cbn zeta.
  unfold is_starting. rewrite run_bind, run_perform by reflexivity.
  cbn [exec fst snd logged mgr].
  destruct (_starting (mgr s)); [reflexivity|].
  rewrite run_bind, run_perform by reflexivity. cbn [exec fst snd logged mgr].
  destruct (_healthy (mgr s)); [|reflexivity]. cbn [negb].
  rewrite run_bind.
  destruct (respond _ TimeMonotonic w1) as [t w2] eqn:E2.
  rewrite (run_get_idle_seconds respond _ t w2) by exact E2.
  cbn [logged mgr].
  destruct (_ <=? 0); reflexivity.
Qed.

(** While the backend is cached as not healthy the monitor stops
    nothing and leaves the cached state as it is. *)
Lemma idle_monitor_quiet (turns : nat) (s : State W) :
  _healthy (mgr s) = false ->
  exists tr,
    trace (snd (run respond (idle_monitor hz cfg turns) s)) = trace s ++ tr
    /\ count_events (ev_is_docker "stop") tr = O
    /\ _healthy (mgr (snd (run respond (idle_monitor hz cfg turns) s))) = false.
Proof.
  revert s; induction turns as [|turns IH]; intros s Hh.
  { exists []; simpl. rewrite app_nil_r. auto. }
  cbn [idle_monitor]. rewrite run_bind, run_idle_monitor_turn.
  destruct (respond _ (AsyncioSleep (CHECK_INTERVAL cfg)) (world s)) as [a w1].
  cbn zeta. rewrite Hh. cbn [negb].
  set (s1 := logged s (AsyncioSleep (CHECK_INTERVAL cfg)) a w1).
  assert (Hgo : exists tr,
    trace (snd (run respond (idle_monitor hz cfg turns) s1)) = trace s ++ tr
    /\ count_events (ev_is_docker "stop") tr = O
    /\ _healthy (mgr (snd (run respond (idle_monitor hz cfg turns) s1)))
       = false).
  { destruct (IH s1 Hh) as (tr & Htr & Hc & Hh').
    exists (Ev (AsyncioSleep (CHECK_INTERVAL cfg)) a :: tr).
    rewrite Htr. subst s1; unfold logged; simpl. rewrite <- app_assoc.
    auto. }
  destruct a as [u|e].
  - destruct (_starting (mgr s)); exact Hgo.
  - exists [Ev (AsyncioSleep (CHECK_INTERVAL cfg)) (Err e)]. simpl. auto.
Qed.

(** C5. A turn of the monitor that finds no startup in progress, the
    backend cached as healthy and an idle time of at least the idle
    timeout issues exactly one [docker stop]; when that stop succeeds the
    cached state is no longer healthy, and from any state in which it is
    not, the monitor issues no stop and does not make it healthy: only
    [ensure_server_ready] does. *)
Theorem idle_monitor_stops_once (s : State W) u w1 t w2 r w3 :
  respond _ (AsyncioSleep (CHECK_INTERVAL cfg)) (world s) = (Ok u, w1) ->
  _starting (mgr s) = false ->
  _healthy (mgr s) = true ->
  respond _ TimeMonotonic w1 = (t, w2) ->
  IDLE_TIMEOUT cfg * hz <= t - last_activity_time (mgr s) ->
  respond _ (docker_stop cfg) w2 = (r, w3) ->
  ordinary r ->
  let s' := snd (run respond (idle_monitor_turn hz cfg) s) in
  let calls := [Ev (AsyncioSleep (CHECK_INTERVAL cfg)) (Ok u);
                Ev TimeMonotonic t; Ev (docker_stop cfg) r] in
  fst (run respond (idle_monitor_turn hz cfg) s) = Ret tt
  /\ trace s' = trace s ++ calls
  /\ count_events (ev_is_docker "stop") calls = 1%nat
  /\ _healthy (mgr s') = negb (exit_zero r)
  /\ (exit_zero r = true ->
      forall turns, exists tr,
        trace (snd (run respond (idle_monitor hz cfg turns) s')) = trace s' ++ tr
        /\ count_events (ev_is_docker "stop") tr = O
        /\ _healthy (mgr (snd (run respond (idle_monitor hz cfg turns) s')))
           = false).
Proof.
  intros E1 Hs Hh E2 Hidle E3 Or s' calls. subst s' calls.
  rewrite run_idle_monitor_turn, E1. cbn zeta. rewrite Hs, Hh. cbn [negb].
  rewrite E2. cbn zeta.
  replace (IDLE_TIMEOUT cfg * hz - (t - last_activity_time (mgr s)) <=? 0)
    with true by (symmetry; apply Z.leb_le; lia).
  rewrite run_bind.
  rewrite (run_stop_container respond cfg _ r w3) by exact E3 || exact Or.
  assert (Hc : count_events (ev_is_docker "stop")
                 [Ev (AsyncioSleep (CHECK_INTERVAL cfg)) (Ok u);
                  Ev TimeMonotonic t; Ev (docker_stop cfg) r] = 1%nat)
    by reflexivity.
  destruct (exit_zero r) eqn:Ez; cbn [run fst snd negb].
  - split; [reflexivity|]. split.
    { unfold with_mgr, logged; simpl. rewrite <- !app_assoc. reflexivity. }
    split; [exact Hc|]. split; [reflexivity|].
    intros _ turns. apply idle_monitor_quiet. reflexivity.
  - split; [reflexivity|]. split.
    { unfold logged; simpl. rewrite <- !app_assoc. reflexivity. }
    split; [exact Hc|]. split; [simpl; exact Hh|]. discriminate.
Qed.
End Monitor.

(** ** The request forwarder *)

Section Forwarder.
Context {W : Type}.
Variable respond : forall X : Type, ExtOp X -> W -> X * W.
Variable hz : Z.
Variable cfg : Config.

Lemma pop_all_lookup (names : list string) (d : Headers) (k : string) :
  pop_all names d !! k = if decide (k ∈ names) then None else d !! k.
Proof.
  revert d; induction names as [|n names IH]; intros d.
  - destruct (decide (k ∈ [])) as [H|_]; [inversion H|reflexivity].
  - unfold pop_all in *. cbn [foldl]. rewrite IH.
    destruct (decide (k ∈ names)) as [Hin|Hout].
    + rewrite decide_True by (right; exact Hin). reflexivity.
    + destruct (decide (k = n)) as [->|Hne].
      * rewrite decide_True by left. apply lookup_delete_eq.
      * rewrite decide_False by (intros [->|H]%elem_of_cons; tauto).
        apply lookup_delete_ne. congruence.
Qed.

(** A program made of external calls leaves the manager as it was. *)
Lemma run_calls_keep_mgr {A : Type} (p : Prog A) (s : State W) :
  Always call_op p -> mgr (snd (run respond p s)) = mgr s.
Proof.
  intros H; revert s; induction H as [a|e| |X op k Hop _ IH]; intros s;
    simpl; try reflexivity.
  destruct op; try destruct Hop. simpl.
  destruct (respond X e (world s)) as [x w]. rewrite IH. reflexivity.
Qed.

Lemma relay_shape (P : forall X : Type, Op X -> Prop) (rq : BackendRequest) :
  P _ (Call (ClientSend rq)) -> P _ (Call ResponseARead) ->
  P _ (Call ResponseAClose) -> Always P (relay rq).
Proof.
  intros H1 H2 H3. unfold relay.
  apply Always_bind; [apply Always_call, H1|intros response].
  destruct (_ || _); [constructor|].
  apply Always_bind; [apply Always_call, H2|intros content].
  apply Always_bind; [apply Always_call, H3|intros _; constructor].
Qed.

(** What the [try] block returns when it returns. *)
Lemma relay_returns (rq : BackendRequest) (s : State W) resp :
  fst (run respond (relay rq) s) = Ret resp ->
  exists response,
    fst (respond _ (ClientSend rq) (world s)) = Ok response
    /\ response_status resp = rs_status_code response
    /\ response_headers resp
       = pop_all response_hop_by_hop (rs_headers response)
    /\ match resp with
       | Response content _ _ _ =>
           fst (respond _ ResponseARead
                  (snd (respond _ (ClientSend rq) (world s)))) = Ok content
       | StreamingResponse _ _ _ => True
       end.
Proof.
  unfold relay. rewrite run_bind.
  destruct (respond _ (ClientSend rq) (world s)) as [r w1] eqn:E1.
  rewrite (run_call respond _ s r w1 E1).
  destruct r as [response|e]; [|discriminate]. cbn [fst].
  destruct (_ || _).
  - intros [= <-]. exists response. cbn [fst snd]. auto.
  - rewrite run_bind.
    destruct (respond _ ResponseARead w1) as [r2 w2] eqn:E2.
    rewrite (run_call respond _ _ r2 w2) by exact E2.
    destruct r2 as [content|e]; [|discriminate].
    rewrite run_bind.
    destruct (respond _ ResponseAClose w2) as [r3 w3] eqn:E3.
    rewrite (run_call respond _ _ r3 w3) by exact E3.
    destruct r3 as [u|e]; [|discriminate].
    intros [= <-]. exists response. cbn [fst snd]. rewrite E2. auto.
Qed.
Lemma proxy_calls (fuel : nat) (request : Request) (path : string) :
  Always (calls_only (op_sends_only (backend_request cfg request path)))
    (proxy hz cfg fuel request path).
Proof.
  unfold proxy.
  apply Always_bind; [apply record_activity_shape; intros; exact I|intros _].
  apply Always_bind;
    [apply ensure_server_ready_calls; intros; exact I|intros ready].
  destruct (negb ready); [constructor|].
  apply Always_try_except.
  - apply relay_shape; simpl; auto.
  - intros e. unfold relay_failed. shape.
Qed.

(** The handler, once the backend is ready: it sends the request it
    built and relays the answer. *)
Lemma run_proxy_ready (fuel : nat) (request : Request) (path : string)
  (s s1 : State W) :
  run respond (do record_activity then ensure_server_ready hz cfg fuel) s
  = (Ret true, s1) ->
  run respond (proxy hz cfg fuel request path) s
  = run respond
      (try_except (relay (backend_request cfg request path)) relay_failed) s1.
Proof.
  unfold proxy. rewrite !run_bind.
  destruct (run respond record_activity s) as [[[]|e| |X op k] s0];
    try discriminate.
  rewrite run_bind. intros ->. reflexivity.
Qed.

(** C7, as the code has it.  Headers are the dictionaries the handler
    makes with [dict(...)], one entry per name.  The request sent to the
    backend carries the method and the body of the inbound request and the
    entries of its dictionary without [host], [connection], [keep-alive],
    [transfer-encoding] and [upgrade], all others as they are; the handler
    sends no other request.  When the
    readiness protocol has returned true, the handler sends that request
    next, and when the backend answers it the handler returns the answer:
    the backend's status, and the entries of the backend's header
    dictionary without [connection], [keep-alive] and [transfer-encoding],
    all others as they are; a
    response that is not streamed carries the body read from the backend.
    Whenever the [try] block returns a response, it is such a one. *)
Theorem forwarding_strips_hop_by_hop (fuel : nat) (request : Request)
  (path : string) (s : State W) :
  let rq := backend_request cfg request path in
  rq_method rq = method request
  /\ rq_content rq = body request
  /\ (forall k : string,
        rq_headers rq !! k =
        if decide (k ∈ ["host"; "connection"; "keep-alive";
                        "transfer-encoding"; "upgrade"])
        then None else headers request !! k)
  /\ (exists tr,
        trace (snd (run respond (proxy hz cfg fuel request path) s))
        = trace s ++ tr
        /\ Forall (ev_ok (op_sends_only rq)) tr)
  /\ (forall (s1 : State W) response w,
        run respond (do record_activity then ensure_server_ready hz cfg fuel) s
        = (Ret true, s1) ->
        respond _ (ClientSend rq) (world s1) = (Ok response, w) ->
        let content_type := get_or_empty (rs_headers response) "content-type" in
        let is_streaming :=
          py_contains "text/event-stream" content_type
          || py_contains "chunked"
               (get_or_empty (rs_headers response) "transfer-encoding") in
        exists hdrs : Headers,
          (forall k : string,
             hdrs !! k =
             if decide (k ∈ ["connection"; "keep-alive"; "transfer-encoding"])
             then None else rs_headers response !! k)
          /\ (is_streaming = true ->
              run respond (proxy hz cfg fuel request path) s
              = (Ret (StreamingResponse (rs_status_code response) hdrs
                        content_type),
                 logged s1 (ClientSend rq) (Ok response) w))
          /\ (is_streaming = false ->
              forall content w2 u w3,
                respond _ ResponseARead w = (Ok content, w2) ->
                respond _ ResponseAClose w2 = (Ok u, w3) ->
                run respond (proxy hz cfg fuel request path) s
                = (Ret (Response content (rs_status_code response) hdrs None),
                   mkState (mgr s1) w3
                     (trace s1 ++ [Ev (ClientSend rq) (Ok response);
                                   Ev ResponseARead (Ok content);
                                   Ev ResponseAClose (Ok u)]))))
  /\ (forall (s0 : State W) resp,
        fst (run respond (relay rq) s0) = Ret resp ->
        exists response,
          fst (respond _ (ClientSend rq) (world s0)) = Ok response
          /\ response_status resp = rs_status_code response
          /\ (forall k : string,
                response_headers resp !! k =
                if decide (k ∈ ["connection"; "keep-alive";
                                "transfer-encoding"])
                then None else rs_headers response !! k)
          /\ match resp with
             | Response content _ _ _ =>
                 fst (respond _ ResponseARead
                        (snd (respond _ (ClientSend rq) (world s0))))
                 = Ok content
             | StreamingResponse _ _ _ => True
             end).
Proof.
  intros rq. split; [reflexivity|]. split; [reflexivity|]. split.
  { intros k. apply pop_all_lookup. }
  split.
  { apply run_trace, proxy_calls. }
  split.
  { intros s1 response w Hready Hsend content_type is_streaming.
    exists (pop_all response_hop_by_hop (rs_headers response)).
    split; [intros k; apply pop_all_lookup|].
    rewrite (run_proxy_ready fuel request path s s1 Hready).
    fold rq. rewrite run_try_except. unfold relay. rewrite run_bind.
    rewrite (run_call respond _ s1 (Ok response) w Hsend).
    fold content_type. fold is_streaming.
    split.
    - intros ->. reflexivity.
    - intros -> content w2 u w3 Hread Hclose.
      rewrite run_bind.
      rewrite (run_call respond _ _ (Ok content) w2) by exact Hread.
      rewrite run_bind.
      rewrite (run_call respond _ _ (Ok u) w3) by exact Hclose.
      unfold logged; simpl. rewrite <- !app_assoc. reflexivity. }
  intros s0 resp Hr.
  destruct (relay_returns rq s0 resp Hr) as (response & H1 & H2 & H3 & H4).
  exists response. split; [exact H1|]. split; [exact H2|].
  split; [|exact H4]. intros k. rewrite H3. apply pop_all_lookup.
Qed.

(** What the two [except] clauses make of an exception of the [try]
    block. *)
Lemma run_relay_failed (rq : BackendRequest) (s s1 : State W) e :
  run respond (relay rq) s = (Raise e, s1) ->
  is_Exception e = true ->
  run respond (try_except (relay rq) relay_failed) s =
  if is_TimeoutException e then
    (Ret (Response (json_error "Backend request timeout") 504 ∅
            (Some "application/json")), s1)
  else
    (Ret (Response (json_error ("Backend request failed: " ++ str_of_exn e))
            502 ∅ (Some "application/json")),
     with_mgr (set_healthy false) s1).
Proof.
  intros Hr He. rewrite run_try_except, Hr, He. unfold relay_failed.
  destruct (is_TimeoutException e); reflexivity.
Qed.

(** C3, as the code has it. An exception of class [Exception] raised in
    the [try] block of the handler (while the request is sent, or while a
    buffered response is read or closed) gives a synthetic response: 504
    for [httpx.TimeoutException], with the cached backend state left as it
    was, and 502 for every other exception, with the cached state
    demoted to not healthy.  A failure of the send is such an
    exception. *)
Theorem relay_failure_response (rq : BackendRequest) (s s1 : State W) e :
  run respond (relay rq) s = (Raise e, s1) ->
  is_Exception e = true ->
  let out := run respond (try_except (relay rq) relay_failed) s in
  (is_TimeoutException e = true ->
   fst out = Ret (Response (json_error "Backend request timeout") 504 ∅
                    (Some "application/json"))
   /\ mgr (snd out) = mgr s)
  /\ (is_TimeoutException e = false ->
      fst out = Ret (Response
                       (json_error ("Backend request failed: " ++ str_of_exn e))
                       502 ∅ (Some "application/json"))
      /\ mgr (snd out) = set_healthy false (mgr s))
  /\ (forall e' w, respond _ (ClientSend rq) (world s) = (Err e', w) ->
      run respond (relay rq) s = (Raise e', logged s (ClientSend rq) (Err e') w)).
Proof.
  intros Hr He out. subst out. rewrite (run_relay_failed rq s s1 e Hr He).
  assert (Hm : mgr s1 = mgr s).
  { change s1 with (snd (Raise (A:=HandlerResponse) e, s1)). rewrite <- Hr.
    apply run_calls_keep_mgr, relay_shape; exact I. }
  split; [|split].
  - intros ->. split; [reflexivity|exact Hm].
  - intros ->. split; [reflexivity|]. simpl. rewrite Hm. reflexivity.
  - intros e' w E. unfold relay. rewrite run_bind, (run_call respond _ s _ w E).
    reflexivity.
Qed.
End Forwarder.

(** ** Calls under the lock run one at a time *)

Section Serial.
Context {W : Type}.
Variable respond : forall X : Type, ExtOp X -> W -> X * W.
Context {A : Type}.
Variable body : Prog A.
Hypothesis body_no_lock : Always not_lock_op body.

Lemma InCS_try_finally (p : Prog A) :
  Always not_lock_op p -> InCS (try_finally p (perform Release)).
Proof.
  induction 1 as [a|e| |X op k Hop _ IH]; simpl; auto.
  destruct op; simpl in *; auto; destruct Hop.
Qed.

Lemma unfinished_app (l1 l2 : list (Prog A)) :
  unfinished (l1 ++ l2) = (unfinished l1 + unfinished l2)%nat.
Proof. induction l1 as [|t l1 IH]; simpl; [reflexivity|rewrite IH; lia]. Qed.

Lemma unfinished_replicate (n : nat) (p : Prog A) :
  finished p = false -> unfinished (replicate n p) = n.
Proof. intros H; induction n as [|n IH]; simpl; [reflexivity|rewrite H, IH; lia]. Qed.

Lemma unfinished_none (ts : list (Prog A)) :
  Forall (fun t => finished t = true) ts -> unfinished ts = O.
Proof. induction 1 as [|t ts Ht _ IH]; simpl; [reflexivity|rewrite Ht, IH; lia]. Qed.

Lemma finished_no_step (p : Prog A) (s : State W) :
  finished p = true -> step_task respond p s = None.
Proof. destruct p; simpl; congruence. Qed.

Lemma run_finished (p : Prog A) (s : State W) :
  finished p = true -> run respond p s = (p, s).
Proof. destruct p; simpl; congruence. Qed.

Lemma settled_mono (s0 : State W) (m : nat) (t : Prog A) :
  settled respond body s0 m t -> settled respond body s0 (S m) t.
Proof.
  intros [H|(j & Hj & H)]; [left; exact H|right; exists j; split; [lia|exact H]].
Qed.

Lemma settled_step (s0 s : State W) (m : nat) (t : Prog A) p' s' :
  settled respond body s0 m t -> step_task respond t s = Some (p', s') ->
  t = with_lock body /\ _lock (mgr s) = false
  /\ p' = try_finally body (perform Release)
  /\ s' = with_mgr (set_lock true) s.
Proof.
  intros [->|(j & _ & _ & Hf)] Hs.
  - unfold with_lock in Hs; simpl in Hs.
    destruct (_lock (mgr s)); simpl in Hs; [discriminate|].
    injection Hs as <- <-. auto.
  - rewrite finished_no_step in Hs by exact Hf. discriminate.
Qed.

Lemma pool_inv_init (n : nat) (s0 : State W) :
  _lock (mgr s0) = false -> pool_inv respond body n s0 (replicate n (with_lock body), s0).
Proof.
  intros Hl. apply (pool_idle respond body n s0 O); auto.
  - intros j Hj. lia.
  - apply Forall_replicate. left; reflexivity.
  - rewrite unfinished_replicate by reflexivity. lia.
Qed.

Lemma pool_inv_step (n : nat) (s0 : State W) (ps ps' : Pool A) :
  pool_inv respond body n s0 ps -> step respond ps ps' -> pool_inv respond body n s0 ps'.
Proof.
  intros Hinv [i Hstep]. unfold step_at in Hstep.
  destruct Hinv as [m ts s Hd Hs Hl Hts Hn|m l1 t l2 s Hd Hl Hcs Hrun Hts Hn];
    cbn [fst snd] in Hstep.
  - destruct (ts !! i) as [p|] eqn:Hi; [|discriminate].
    destruct (step_task respond p s) as [[p' s']|] eqn:Hp; [|discriminate].
    injection Hstep as <-.
    destruct (settled_step s0 s m p p' s' (Forall_lookup_1 _ _ _ _ Hts Hi) Hp)
      as (-> & _ & -> & ->).
    pose proof (lookup_lt_Some _ _ _ Hi) as Hlen.
    rewrite insert_take_drop by exact Hlen.
    rewrite <- (take_drop_middle ts i (with_lock body) Hi) in Hts, Hn.
    apply Forall_app in Hts as [Ht1 Ht2]. apply Forall_cons in Ht2 as [_ Ht2].
    rewrite unfinished_app in Hn. simpl in Hn.
    apply (pool_busy respond body n s0 m).
    + exact Hd.
    + reflexivity.
    + apply InCS_try_finally, body_no_lock.
    + rewrite <- Hs. unfold with_lock. simpl. rewrite Hl. reflexivity.
    + apply Forall_app; split; assumption.
    + rewrite unfinished_app. lia.
  - destruct ((l1 ++ t :: l2) !! i) as [p|] eqn:Hi; [|discriminate].
    destruct (step_task respond p s) as [[p' s']|] eqn:Hp; [|discriminate].
    injection Hstep as <-.
    apply lookup_app_Some in Hi as [Hi|[Hge Hi]].
    { apply Forall_app in Hts as [Ht1 _].
      destruct (settled_step s0 s m p p' s' (Forall_lookup_1 _ _ _ _ Ht1 Hi) Hp)
        as (_ & Hfree & _). congruence. }
    apply lookup_cons_Some in Hi as [[Hz <-]|[Hpos Hi]].
    2: { apply Forall_app in Hts as [_ Ht2].
         destruct (settled_step s0 s m p p' s' (Forall_lookup_1 _ _ _ _ Ht2 Hi) Hp)
           as (_ & Hfree & _). congruence. }
    assert (i = length l1) as -> by lia.
    replace (<[length l1 := p']> (l1 ++ t :: l2)) with (l1 ++ p' :: l2)
      by (rewrite insert_app_r_alt by lia;
          replace (length l1 - length l1)%nat with O by lia; reflexivity).
    destruct t as [a|e| |X op k]; simpl in Hp; try discriminate.
    destruct op; simpl in Hcs, Hp; try (destruct Hcs; fail);
      try (injection Hp as <- <-;
           apply (pool_busy respond body n s0 m);
           [exact Hd|exact Hl|apply Hcs
           |cbn [run enabled exec] in Hrun; exact Hrun|exact Hts|exact Hn]).
    + (* Release *)
      injection Hp as <- <-.
      cbn [run enabled exec] in Hrun. rewrite run_finished in Hrun by apply Hcs.
      apply (pool_idle respond body n s0 (S m)).
      * intros j Hj. destruct (decide (j = m)) as [->|Hne];
          [rewrite <- Hrun; apply Hcs|apply Hd; lia].
      * cbn [serial]. rewrite <- Hrun. reflexivity.
      * reflexivity.
      * apply Forall_app in Hts as [Ht1 Ht2].
        apply Forall_app; split; [|apply Forall_cons; split].
        -- eapply Forall_impl; [exact Ht1|apply settled_mono].
        -- right. exists m. split; [lia|]. rewrite <- Hrun. split; [reflexivity|apply Hcs].
        -- eapply Forall_impl; [exact Ht2|apply settled_mono].
      * rewrite unfinished_app in *. simpl. rewrite (Hcs tt). lia.
    + (* an external call *)
      destruct (respond X e (world s)) as [x w] eqn:E.
      injection Hp as <- <-.
      apply (pool_busy respond body n s0 m);
        [exact Hd|exact Hl|apply Hcs| |exact Hts|exact Hn].
      cbn [run enabled exec] in Hrun. rewrite E in Hrun. exact Hrun.
Qed.

(** Every pool that [n] callers reach from a state with the lock free
    satisfies the invariant. *)
Lemma serialization (n : nat) (s0 : State W) (ps : Pool A) :
  _lock (mgr s0) = false ->
  steps respond (replicate n (with_lock body), s0) ps ->
  pool_inv respond body n s0 ps.
Proof.
  intros Hl Hsteps.
  remember (replicate n (with_lock body), s0) as ps0 eqn:E.
  induction Hsteps as [ps|ps1 ps2 ps3 _ IH Hstep].
  - subst ps. apply pool_inv_init, Hl.
  - eapply pool_inv_step; [apply IH, E|exact Hstep].
Qed.
End Serial.


(** ** Single flight *)

Section SingleFlight.
Context {W : Type}.
Variable respond : forall X : Type, ExtOp X -> W -> X * W.
Variable hz : Z.
Variable cfg : Config.

Lemma count_events_app f (l1 l2 : list Event) :
  count_events f (l1 ++ l2) = (count_events f l1 + count_events f l2)%nat.
Proof. induction l1 as [|ev l1 IH]; simpl; [reflexivity|rewrite IH; lia]. Qed.

Lemma count_events_none f (tr : list Event) :
  Forall (fun ev => f ev = false) tr -> count_events f tr = O.
Proof. induction 1 as [|ev tr Hev _ IH]; simpl; [reflexivity|rewrite Hev, IH; lia]. Qed.

Lemma not_subprocess_event verb (ev : Event) :
  ev_ok op_not_subprocess ev -> ev_is_docker verb ev = false.
Proof. destruct ev as [X op a]; destruct op; simpl; tauto. Qed.

Lemma Always_any {A : Type} (P : forall X : Type, Op X -> Prop) (p : Prog A) :
  (forall X op, P X op) -> Always P p.
Proof. intros H; induction p; constructor; auto. Qed.

(** Running a program only adds to the log. *)
Lemma run_trace_grows {A : Type} (p : Prog A) (s : State W) :
  exists tr, trace (snd (run respond p s)) = trace s ++ tr.
Proof.
  destruct (run_trace respond (fun _ _ => True) p s) as (tr & H & _).
  - apply Always_any. intros X op; destruct op; exact I.
  - exists tr; exact H.
Qed.

Lemma schedule_steps {A : Type} (order : list nat) (ps : Pool A) :
  steps respond ps (schedule respond order ps).
Proof.
  assert (H : forall ps0 ps1 : Pool A, steps respond ps0 ps1 ->
            steps respond ps0 (schedule respond order ps1)).
  { induction order as [|i order IH]; intros ps0 ps1 H01; simpl; [exact H01|].
    destruct (step_at respond i ps1) as [ps2|] eqn:E; apply IH; [|exact H01].
    eapply steps_step; [exact H01|exists i; exact E]. }
  apply H. constructor.
Qed.

Lemma run_start_container_any (s : State W) r w :
  respond _ (docker_start cfg) (world s) = (r, w) ->
  run respond (start_container cfg) s =
  (match r with
   | Ok c => Ret (returncode c =? 0)
   | Err e => if is_Exception e then Ret false else Raise e
   end, logged s (docker_start cfg) r w).
Proof.
  intros E; unfold start_container.
  rewrite run_try_except, run_bind, (run_call respond _ s r w E).
  destruct r as [c|e]; simpl.
  - destruct (returncode c =? 0); reflexivity.
  - destruct (is_Exception e); reflexivity.
Qed.

Lemma poll_true_healthy (fuel : nat) (start count : Z) (s : State W) :
  fst (run respond (poll hz cfg fuel start count) s) = Ret true ->
  _healthy (mgr (snd (run respond (poll hz cfg fuel start count) s))) = true.
Proof.
  revert count s; induction fuel as [|fuel IH]; intros count s;
    [simpl; discriminate|].
  rewrite run_poll_S.
  destruct (respond _ TimeMonotonic (world s)) as [t1 w1]. cbn zeta.
  destruct (_ <? _); [|discriminate].
  destruct (respond _ (ClientGet (health_url cfg) 5) w1) as [r w2].
  destruct (probe_verdict r) as [[|]|e]; [| |discriminate].
  - destruct (respond _ TimeMonotonic w2) as [t2 w3].
    destruct (respond _ TimeMonotonic w3) as [t3 w4]. reflexivity.
  - destruct (respond _ TimeMonotonic w2) as [t2 w3]. cbn zeta.
    destruct (respond _ (AsyncioSleep _) w3) as [[u|e] w4]; [apply IH|discriminate].
Qed.

Lemma wait_for_health_shape (P : forall X : Type, Op X -> Prop) fuel :
  (forall b, P _ (SetHealthy b)) -> (forall t, P _ (SetLastActivity t)) ->
  P _ (Call TimeMonotonic) -> P _ (Call (ClientGet (health_url cfg) 5)) ->
  (forall d, P _ (Call (AsyncioSleep d))) ->
  Always P (wait_for_health hz cfg fuel).
Proof.
  intros. unfold wait_for_health.
  apply Always_bind; [apply monotonic_shape; assumption|intros].
  apply poll_shape; assumption.
Qed.

(** What waiting for health adds to the log and leaves in the manager
    when it returns true. *)
Lemma wait_for_health_true (fuel : nat) (s : State W) :
  exists tr,
    trace (snd (run respond (wait_for_health hz cfg fuel) s)) = trace s ++ tr
    /\ count_events (ev_is_docker "start") tr = O
    /\ (fst (run respond (wait_for_health hz cfg fuel) s) = Ret true ->
        _healthy (mgr (snd (run respond (wait_for_health hz cfg fuel) s)))
        = true).
Proof.
  destruct (run_trace respond op_not_subprocess (wait_for_health hz cfg fuel) s)
    as (tr & Htr & Hok).
  { apply wait_for_health_shape; intros; exact I. }
  exists tr. split; [exact Htr|]. split.
  { apply count_events_none.
    eapply Forall_impl; [exact Hok|apply not_subprocess_event]. }
  unfold wait_for_health. rewrite run_bind.
  destruct (respond _ TimeMonotonic (world s)) as [t0 w0] eqn:E0.
  rewrite (run_monotonic respond s t0 w0 E0). apply poll_true_healthy.
Qed.

(** The first call on a stopped backend, when it returns true: one start
    command, and the backend cached as healthy. *)
Lemma cold_call (fuel : nat) (s : State W) r1 w1 :
  _lock (mgr s) = false ->
  _healthy (mgr s) = false ->
  respond _ (docker_inspect cfg) (world s) = (r1, w1) ->
  ordinary r1 ->
  says_running r1 = false ->
  fst (run respond (ensure_server_ready hz cfg fuel) s) = Ret true ->
  (exists tr,
     trace (snd (run respond (ensure_server_ready hz cfg fuel) s)) = trace s ++ tr
     /\ count_events (ev_is_docker "start") tr = 1%nat)
  /\ _healthy (mgr (snd (run respond (ensure_server_ready hz cfg fuel) s))) = true
  /\ _lock (mgr (snd (run respond (ensure_server_ready hz cfg fuel) s))) = false.
Proof.
  intros Hl Hh E1 O1 R1. unfold ensure_server_ready.
  rewrite run_with_lock by exact Hl. rewrite run_try_finally, run_ensure_body.
  cbn [with_mgr mgr set_lock _healthy]. rewrite Hh.
  rewrite run_slow_path, run_try_finally, run_bind.
  match goal with
  | |- context [run respond (is_container_running cfg) ?s0] =>
      rewrite (run_is_container_running respond cfg s0 r1 w1 E1 O1)
  end.
  rewrite R1. cbn [negb]. rewrite run_bind.
  destruct (respond _ (docker_start cfg) w1) as [r2 w2] eqn:E2.
  match goal with
  | |- context [run respond (start_container cfg) ?s0] =>
      rewrite (run_start_container_any s0 r2 w2 E2)
  end.
  destruct r2 as [c|e].
  2: { destruct (is_Exception e); simpl; discriminate. }
  destruct (returncode c =? 0); cbn [negb]; [|simpl; discriminate].
  match goal with
  | |- context [run respond (wait_for_health hz cfg fuel) ?s0] =>
      destruct (wait_for_health_true fuel s0) as (tr & Htr & Hc & Hhealthy);
      destruct (run respond (wait_for_health hz cfg fuel) s0) as [p s5]
  end.
  cbn [fst snd] in *.
  destruct p as [a|e| |X op k]; simpl; try discriminate.
  intros [= ->]. specialize (Hhealthy eq_refl).
  split; [|split; [exact Hhealthy|reflexivity]].
  exists ([Ev (docker_inspect cfg) r1; Ev (docker_start cfg) (Ok c)] ++ tr).
  rewrite Htr. unfold logged, with_mgr; simpl. rewrite <- !app_assoc.
  split; [reflexivity|]. rewrite Hc. reflexivity.
Qed.

Section Warm.
(** The worlds in which the backend is up and answers its health probe
    with 200, and stays so when probed. *)
Variable up : W -> Prop.
Hypothesis up_probe : forall w, up w ->
  fst (respond _ (ClientGet (health_url cfg) 5) w) = Ok 200
  /\ up (snd (respond _ (ClientGet (health_url cfg) 5) w)).

(** A call that finds the backend cached as healthy and up: the quick
    path, one probe and nothing else. *)
Lemma warm_call (fuel : nat) (s : State W) :
  _lock (mgr s) = false ->
  _healthy (mgr s) = true ->
  up (world s) ->
  let r := respond _ (ClientGet (health_url cfg) 5) (world s) in
  run respond (ensure_server_ready hz cfg fuel) s
  = (Ret true,
     mkState (mgr s) (snd r)
       (trace s ++ [Ev (ClientGet (health_url cfg) 5) (Ok 200)]))
  /\ up (snd r).
Proof.
  intros Hl Hh Hup r. subst r. unfold ensure_server_ready.
  rewrite run_with_lock by exact Hl. rewrite run_try_finally, run_ensure_body.
  cbn [with_mgr mgr set_lock _healthy world]. rewrite Hh.
  destruct (up_probe _ Hup) as [Hr Hup'].
  destruct (respond _ (ClientGet (health_url cfg) 5) (world s)) as [r w1].
  cbn [fst snd] in *. subst r. cbn zeta. simpl.
  split; [|exact Hup'].
  unfold with_mgr, logged, set_lock; simpl. rewrite <- Hl.
  destruct s as [[l k st h] w tr]; reflexivity.
Qed.

(** The state after one call or more on a backend that was stopped, came
    up with the first call and stays up. *)
Lemma warm_serial (fuel : nat) (s0 : State W) r1 w1 (j : nat) :
  _lock (mgr s0) = false ->
  _healthy (mgr s0) = false ->
  respond _ (docker_inspect cfg) (world s0) = (r1, w1) ->
  ordinary r1 ->
  says_running r1 = false ->
  fst (run respond (ensure_server_ready hz cfg fuel) s0) = Ret true ->
  up (world (snd (run respond (ensure_server_ready hz cfg fuel) s0))) ->
  let sj := serial respond (ensure_server_ready hz cfg fuel) (S j) s0 in
  _lock (mgr sj) = false
  /\ _healthy (mgr sj) = true
  /\ up (world sj)
  /\ count_events (ev_is_docker "start") (trace sj)
     = (count_events (ev_is_docker "start") (trace s0) + 1)%nat.
Proof.
  intros Hl Hh E1 O1 R1 Htrue Hup.
  induction j as [|j (IHl & IHh & IHu & IHc)]; cbn [serial] in *.
  - destruct (cold_call fuel s0 r1 w1 Hl Hh E1 O1 R1 Htrue)
      as ((tr & Htr & Hc) & Hh' & Hl').
    repeat split; try assumption.
    rewrite Htr, count_events_app, Hc. reflexivity.
  - destruct (warm_call fuel _ IHl IHh IHu) as [Hrun Hup'].
    rewrite Hrun. cbn [snd mgr world trace].
    repeat split; try assumption.
    rewrite count_events_app, IHc. simpl. lia.
Qed.

(** Callers of [ensure_server_ready] with no other code of the proxy
    running beside them.  When the backend is stopped, the first call's
    start and polling succeed and the backend then stays up, one start
    command is issued in all: no reachable state of the pool has seen a
    second one, and once every caller has finished each has returned true
    and the pool is in the state of that many calls made one after the
    other. *)
Lemma callers_alone_single_flight (fuel n : nat) (s0 : State W) r1 w1
  (ts : list (Prog bool)) (s : State W) :
  _lock (mgr s0) = false ->
  _healthy (mgr s0) = false ->
  respond _ (docker_inspect cfg) (world s0) = (r1, w1) ->
  ordinary r1 ->
  says_running r1 = false ->
  fst (run respond (ensure_server_ready hz cfg fuel) s0) = Ret true ->
  up (world (snd (run respond (ensure_server_ready hz cfg fuel) s0))) ->
  steps respond (replicate (S n) (ensure_server_ready hz cfg fuel), s0) (ts, s) ->
  let starts := count_events (ev_is_docker "start") in
  (starts (trace s) <= starts (trace s0) + 1)%nat
  /\ (Forall (fun t => finished t = true) ts ->
      starts (trace s) = (starts (trace s0) + 1)%nat
      /\ Forall (fun t => t = Ret true) ts
      /\ s = serial respond (ensure_server_ready hz cfg fuel) (S n) s0).
Proof.
  intros Hl Hh E1 O1 R1 Htrue Hup Hsteps starts. subst starts.
  pose proof (fun j => warm_serial fuel s0 r1 w1 j Hl Hh E1 O1 R1 Htrue Hup)
    as Hwarm. cbn zeta in Hwarm.
  assert (Hret : forall j,
    fst (run respond (ensure_server_ready hz cfg fuel)
           (serial respond (ensure_server_ready hz cfg fuel) j s0)) = Ret true).
  { intros [|j]; [exact Htrue|].
    destruct (Hwarm j) as (Hl' & Hh' & Hu' & _).
    destruct (warm_call fuel _ Hl' Hh' Hu') as [-> _]. reflexivity. }
  pose proof (serialization respond (ensure_body hz cfg fuel)
                (ensure_body_no_lock hz cfg fuel) (S n) s0 (ts, s) Hl Hsteps)
    as Hinv.
  inversion Hinv as [m ts' s' Hd Hs Hl' Hts Hn|m l1 t l2 s' Hd Hl' Hcs Hrun Hts Hn];
    subst;
    change (with_lock (ensure_body hz cfg fuel))
      with (ensure_server_ready hz cfg fuel) in *.
  - split.
    + destruct m as [|m]; [simpl; lia|].
      destruct (Hwarm m) as (_ & _ & _ & ->). lia.
    + intros Hfin. rewrite (unfinished_none ts Hfin) in Hn.
      assert (m = S n) as -> by lia.
      destruct (Hwarm n) as (_ & _ & _ & Hc). split; [exact Hc|].
      split; [|reflexivity].
      apply Forall_forall. intros t Hin.
      pose proof (proj1 (Forall_forall _ _) Hts t Hin) as [->|(j & _ & -> & _)];
        [|apply Hret].
      pose proof (proj1 (Forall_forall _ _) Hfin _ Hin) as Hf. discriminate.
  - split.
    + destruct (run_trace_grows t s) as (tr & Htr).
      rewrite Hrun in Htr.
      change (snd (run respond (ensure_server_ready hz cfg fuel)
                     (serial respond (ensure_server_ready hz cfg fuel) m s0)))
        with (serial respond (ensure_server_ready hz cfg fuel) (S m) s0) in Htr.
      destruct (Hwarm m) as (_ & _ & _ & Hc).
      rewrite Htr, count_events_app in Hc. lia.
    + intros Hfin. apply Forall_app in Hfin as [_ Hfin].
      apply Forall_cons in Hfin as [Hf _].
      destruct t; simpl in Hcs, Hf; try discriminate; destruct Hcs.
Qed.
End Warm.

(** *** The readiness protocol comes to an end *)

Section Termination.
(** The time at which the world is, in ticks. *)
Variable now : W -> Z.
Hypothesis hz_pos : 0 < hz.
Hypothesis clock_reads : forall w,
  now w <= fst (respond _ TimeMonotonic w)
  /\ fst (respond _ TimeMonotonic w) <= now (snd (respond _ TimeMonotonic w)).
Hypothesis clock_monotone : forall X (e : ExtOp X) w,
  now w <= now (snd (respond _ e w)).
(** A sleep that is not cancelled lasts its duration at least. *)
Hypothesis sleep_advances : forall d w u,
  fst (respond _ (AsyncioSleep d) w) = Ok u ->
  now w + d * hz <= now (snd (respond _ (AsyncioSleep d) w)).

Lemma poll_finishes (fuel : nat) (start count : Z) (s : State W) :
  start + STARTUP_TIMEOUT cfg * hz <= now (world s) + 2 * hz * Z.of_nat fuel ->
  finished (fst (run respond (poll hz cfg (S fuel) start count) s)) = true.
Proof.
  revert count s; induction fuel as [|fuel IH]; intros count s Hb;
    rewrite run_poll_S;
    pose proof (clock_reads (world s)) as [Hr1 Hr2];
    destruct (respond _ TimeMonotonic (world s)) as [t1 w1]; cbn [fst snd] in *;
    cbn zeta;
    (destruct (Z.ltb_spec (t1 - start) (STARTUP_TIMEOUT cfg * hz)) as [G|G];
     [|reflexivity]).
  - lia.
  - pose proof (clock_monotone _ (ClientGet (health_url cfg) 5) w1) as Hm2.
    destruct (respond _ (ClientGet (health_url cfg) 5) w1) as [r w2];
      cbn [fst snd] in *.
    destruct (probe_verdict r) as [[|]|e]; [| |reflexivity].
    + destruct (respond _ TimeMonotonic w2) as [t2 w3].
      destruct (respond _ TimeMonotonic w3) as [t3 w4]. reflexivity.
    + pose proof (clock_monotone _ TimeMonotonic w2) as Hm3.
      destruct (respond _ TimeMonotonic w2) as [t2 w3]; cbn [fst snd] in *.
      cbn zeta.
      set (d := if t2 - start <? 30 * hz then 2 else 5).
      assert (Hd : 2 <= d) by (subst d; destruct (_ <? _); lia).
      pose proof (sleep_advances d w3) as Hs4.
      destruct (respond _ (AsyncioSleep d) w3) as [[u|e] w4]; cbn [fst snd] in *;
        [|reflexivity].
      specialize (Hs4 u eq_refl).
      apply IH. cbn [logged world]. nia.
Qed.

Lemma wait_for_health_finishes (fuel : nat) (s : State W) :
  Z.max 0 (STARTUP_TIMEOUT cfg) + 2 <= 2 * Z.of_nat fuel ->
  finished (fst (run respond (wait_for_health hz cfg fuel) s)) = true.
Proof.
  intros Hf. destruct fuel as [|fuel]; [lia|].
  unfold wait_for_health. rewrite run_bind.
  pose proof (clock_reads (world s)) as [_ Hr].
  destruct (respond _ TimeMonotonic (world s)) as [t0 w0] eqn:E0;
    cbn [fst snd] in *.
  rewrite (run_monotonic respond _ _ _ E0).
  apply poll_finishes. cbn [logged world]. nia.
Qed.

Lemma finished_try_finally {A : Type} (p : Prog A) (op : Op unit) (s : State W) :
  enabled op (snd (run respond p s)) = true ->
  finished (fst (run respond p s)) = true ->
  finished (fst (run respond (try_finally p (perform op)) s)) = true.
Proof.
  intros He Hf. rewrite run_try_finally.
  destruct (run respond p s) as [[a|e| |X o k] s1]; try discriminate;
    cbn [fst snd] in *; simpl; rewrite He;
    destruct (exec respond op s1); reflexivity.
Qed.

Lemma slow_path_finishes (fuel : nat) (s : State W) :
  Z.max 0 (STARTUP_TIMEOUT cfg) + 2 <= 2 * Z.of_nat fuel ->
  finished (fst (run respond (slow_path hz cfg fuel) s)) = true.
Proof.
  intros Hf. rewrite run_slow_path.
  apply finished_try_finally; [reflexivity|].
  rewrite run_bind. unfold is_container_running.
  rewrite run_try_except, run_bind.
  destruct (respond _ (docker_inspect cfg) (world s)) as [r1 w1] eqn:E1.
  match goal with
  | |- context [run respond (call (docker_inspect cfg)) ?s0] =>
      rewrite (run_call respond (docker_inspect cfg) s0 r1 w1 E1)
  end.
  assert (Hgo : forall (running : bool) (s1 : State W),
    finished (fst (run respond
      (if negb running then
         let* started := start_container cfg in
         if negb started then Ret false else wait_for_health hz cfg fuel
       else wait_for_health hz cfg fuel) s1)) = true).
  { intros [|] s1; cbn [negb]; [apply wait_for_health_finishes, Hf|].
    rewrite run_bind.
    destruct (respond _ (docker_start cfg) (world s1)) as [r2 w2] eqn:E2.
    rewrite (run_start_container_any s1 r2 w2 E2).
    destruct r2 as [c|e].
    - destruct (returncode c =? 0); cbn [negb];
        [apply wait_for_health_finishes, Hf|reflexivity].
    - destruct (is_Exception e); reflexivity. }
  destruct r1 as [c|e]; simpl.
  - apply Hgo.
  - destruct (is_Exception e); [apply Hgo|reflexivity].
Qed.

(** With a clock that advances while the loop sleeps and a loop bound
    large enough for the startup timeout, every call of
    [ensure_server_ready] comes to its end. *)
Lemma ensure_server_ready_finishes (fuel : nat) (s : State W) :
  _lock (mgr s) = false ->
  Z.max 0 (STARTUP_TIMEOUT cfg) + 2 <= 2 * Z.of_nat fuel ->
  finished (fst (run respond (ensure_server_ready hz cfg fuel) s)) = true.
Proof.
  intros Hl Hf. unfold ensure_server_ready. rewrite run_with_lock by exact Hl.
  apply finished_try_finally; [reflexivity|].
  rewrite run_ensure_body.
  destruct (_healthy _); [|apply slow_path_finishes, Hf].
  destruct (respond _ _ _) as [[status|e] w]; cbn zeta.
  - destruct (status =? 200); [reflexivity|apply slow_path_finishes, Hf].
  - destruct (is_Exception e); [apply slow_path_finishes, Hf|reflexivity].
Qed.
End Termination.

(** C10. [_starting] is up only while a call of [ensure_server_ready] is
    in its slow path.  Every finished run of the slow path, by a return
    (success, start failure, timeout) or by an exception, leaves the flag
    down; so does every finished call of [ensure_server_ready] that found it
    down; in a pool of concurrent callers, at any moment at which the flag
    is up the lock is held: a call is still in progress; and with a clock
    that advances while the loop sleeps, every call does come to its end
    (the loop bound being large enough for the startup timeout), so the
    flag is never left up. *)
Theorem starting_flag_reset (fuel : nat) (s : State W) :
  (finished (fst (run respond (slow_path hz cfg fuel) s)) = true ->
   _starting (mgr (snd (run respond (slow_path hz cfg fuel) s))) = false)
  /\ (_lock (mgr s) = false ->
      _starting (mgr s) = false ->
      (finished (fst (run respond (ensure_server_ready hz cfg fuel) s)) = true ->
       _starting (mgr (snd (run respond (ensure_server_ready hz cfg fuel) s)))
       = false)
      /\ (forall n ts s',
            steps respond (replicate n (ensure_server_ready hz cfg fuel), s)
              (ts, s') ->
            _starting (mgr s') = true -> _lock (mgr s') = true)
      /\ (forall now : W -> Z,
            0 < hz ->
            (forall w,
               now w <= fst (respond _ TimeMonotonic w)
               /\ fst (respond _ TimeMonotonic w)
                  <= now (snd (respond _ TimeMonotonic w))) ->
            (forall X (e : ExtOp X) w, now w <= now (snd (respond _ e w))) ->
            (forall d w u,
               fst (respond _ (AsyncioSleep d) w) = Ok u ->
               now w + d * hz <= now (snd (respond _ (AsyncioSleep d) w))) ->
            Z.max 0 (STARTUP_TIMEOUT cfg) + 2 <= 2 * Z.of_nat fuel ->
            finished (fst (run respond (ensure_server_ready hz cfg fuel) s))
            = true
            /\ _starting
                 (mgr (snd (run respond (ensure_server_ready hz cfg fuel) s)))
               = false)).
Proof.
  split; [apply slow_path_resets_starting|].
  intros Hl Hs. split; [intros Hf; apply ensure_resets_starting; assumption|].
  split.
  2: { intros now Hz Hr Hm Ha Hf.
       pose proof (ensure_server_ready_finishes now Hz Hr Hm Ha fuel s Hl Hf)
         as Hfin.
       split; [exact Hfin|apply ensure_resets_starting; assumption]. }
  intros n ts s' Hsteps Hup.
  pose proof (serialization respond (ensure_body hz cfg fuel)
                (ensure_body_no_lock hz cfg fuel) n s (ts, s') Hl Hsteps) as Hinv.
  inversion Hinv as [m ts' s1 Hd Hs1 Hl' Hts Hn|m l1 t l2 s1 Hd Hl' Hcs Hrun Hts Hn];
    subst; [|exact Hl'].
  exfalso.
  assert (Hm : _lock (mgr (serial respond (with_lock (ensure_body hz cfg fuel)) m s))
               = false
               /\ _starting
                    (mgr (serial respond (with_lock (ensure_body hz cfg fuel)) m s))
                  = false).
  { clear - Hd Hl Hs.
    induction m as [|m IH]; [split; assumption|].
    destruct IH as [IHl IHs]; [intros j Hj; apply Hd; lia|].
    cbn [serial].
    destruct (ensure_resets_starting respond hz cfg fuel _ IHl IHs) as [H1 H2];
      [apply Hd; lia|].
    split; assumption. }
  destruct Hm as [_ Hm]. congruence.
Qed.
End SingleFlight.

(** ** Tasks that follow a protocol *)

Section ProtocolFacts.
Context {St : Type}.
Variable allowed : St -> forall X : Type, Op X -> Prop.
Variable feasible : St -> forall X : Type, Op X -> X -> Prop.
Variable next : St -> forall X : Type, Op X -> X -> St.

Local Abbreviation Follows := (Follows allowed feasible next).

Lemma Follows_bind {A B : Type} (Q : St -> A -> Prop) (QE : St -> exn -> Prop)
  (Q' : St -> B -> Prop) (QE' : St -> exn -> Prop)
  (p : Prog A) (f : A -> Prog B) (st : St) :
  Follows Q QE st p ->
  (forall st' a, Q st' a -> Follows Q' QE' st' (f a)) ->
  (forall st' e, QE st' e -> QE' st' e) ->
  Follows Q' QE' st (bind p f).
Proof.
  intros Hp Hf He. revert st Hp.
  induction p as [a|e| |X op k IH]; intros st Hp; simpl in *; auto.
  destruct Hp as [Ha Hk]. split; [exact Ha|]. intros x Hx. apply IH, Hk, Hx.
Qed.

Lemma Follows_mono {A : Type} (Q Q' : St -> A -> Prop)
  (QE QE' : St -> exn -> Prop) (p : Prog A) (st : St) :
  Follows Q QE st p ->
  (forall st' a, Q st' a -> Q' st' a) ->
  (forall st' e, QE st' e -> QE' st' e) ->
  Follows Q' QE' st p.
Proof.
  intros Hp HQ HE. revert st Hp.
  induction p as [a|e| |X op k IH]; intros st Hp; simpl in *; auto.
  destruct Hp as [Ha Hk]. split; [exact Ha|]. intros x Hx. apply IH, Hk, Hx.
Qed.

Lemma Follows_try_except {A : Type} (Q Q' : St -> A -> Prop)
  (QE QE' : St -> exn -> Prop) (p : Prog A) (h : exn -> Prog A) (st : St) :
  Follows Q QE st p ->
  (forall st' a, Q st' a -> Q' st' a) ->
  (forall st' e, QE st' e ->
     if is_Exception e then Follows Q' QE' st' (h e) else QE' st' e) ->
  Follows Q' QE' st (try_except p h).
Proof.
  intros Hp HQ HE. revert st Hp.
  induction p as [a|e| |X op k IH]; intros st Hp; simpl in *; auto.
  - specialize (HE st e Hp). destruct (is_Exception e); exact HE.
  - destruct Hp as [Ha Hk]. split; [exact Ha|]. intros x Hx. apply IH, Hk, Hx.
Qed.

Lemma Follows_try_finally {A : Type} (Q Q' : St -> A -> Prop)
  (QE QE' : St -> exn -> Prop) (p : Prog A) (q : Prog unit) (st : St) :
  Follows Q QE st p ->
  (forall st' a, Q st' a -> Follows Q' QE' st' (do q then Ret a)) ->
  (forall st' e, QE st' e -> Follows Q' QE' st' (do q then Raise e)) ->
  Follows Q' QE' st (try_finally p q).
Proof.
  intros Hp HQ HE. revert st Hp.
  induction p as [a|e| |X op k IH]; intros st Hp; simpl in *; auto.
  destruct Hp as [Ha Hk]. split; [exact Ha|]. intros x Hx. apply IH, Hk, Hx.
Qed.

(** A program all of whose operations leave the task where it is. *)
Lemma Follows_stays {A : Type} (st : St) (p : Prog A) :
  Always (stays allowed next st) p ->
  Follows (fun st' _ => st' = st) (fun st' _ => st' = st) st p.
Proof.
  induction 1 as [a|e| |X op k [Ha Hn] _ IH]; simpl; auto.
  split; [exact Ha|]. intros x _. rewrite Hn. apply IH.
Qed.

(** The same, with a continuation. *)
Lemma Follows_after {A B : Type} (Q : St -> B -> Prop) (QE : St -> exn -> Prop)
  (st : St) (p : Prog A) (f : A -> Prog B) :
  Always (stays allowed next st) p ->
  (forall a, Follows Q QE st (f a)) ->
  (forall e, QE st e) ->
  Follows Q QE st (bind p f).
Proof.
  intros Hp Hf He. eapply Follows_bind; [apply Follows_stays, Hp| |].
  - intros st' a ->. apply Hf.
  - intros st' e ->. apply He.
Qed.
End ProtocolFacts.

(** ** Handlers keep to the discipline of the lock *)

Section Discipline.
Variable hz : Z.
Variable cfg : Config.

Lemma plain_stays (r : Role) (X : Type) (op : Op X) :
  plain X op -> stays (role_allowed cfg) role_next r X op.
Proof.
  intros [Hl Hc]. destruct op; try destruct Hl; split; try exact I;
    try reflexivity.
  - destruct e; try exact I. destruct Hc.
  - intros x. destruct e; try reflexivity. destruct Hc.
Qed.

Lemma is_container_running_obeys (b : bool) :
  Follows (role_allowed cfg) (fun _ _ _ _ => True) role_next
    (fun r running => r = Inside (negb running)) (fun r _ => r <> Outside)
    (Inside b) (is_container_running cfg).
Proof.
  unfold is_container_running, call. cbn.
  split; [left; split; [discriminate|reflexivity]|].
  intros [c|e] _; cbn; [reflexivity|].
  destruct (is_Exception e); cbn; [reflexivity|discriminate].
Qed.

Lemma start_container_obeys :
  Follows (role_allowed cfg) (fun _ _ _ _ => True) role_next
    (fun r _ => r = Inside false) (fun r _ => r <> Outside)
    (Inside true) (start_container cfg).
Proof.
  unfold start_container, call. cbn.
  split; [right; split; reflexivity|].
  intros [c|e] _; cbn.
  - destruct (returncode c =? 0); reflexivity.
  - destruct (is_Exception e); cbn; [reflexivity|discriminate].
Qed.

Lemma wait_for_health_obeys (fuel : nat) (b : bool) :
  Follows (role_allowed cfg) (fun _ _ _ _ => True) role_next
    (fun r (_ : bool) => r <> Outside) (fun r _ => r <> Outside)
    (Inside b) (wait_for_health hz cfg fuel).
Proof.
  eapply Follows_mono.
  - apply Follows_stays.
    apply wait_for_health_shape; intros; apply plain_stays; split; exact I.
  - intros r _ ->. discriminate.
  - intros r _ ->. discriminate.
Qed.

Lemma slow_path_obeys (fuel : nat) (b : bool) :
  Follows (role_allowed cfg) (fun _ _ _ _ => True) role_next
    (fun r (_ : bool) => r <> Outside) (fun r _ => r <> Outside)
    (Inside b) (slow_path hz cfg fuel).
Proof.
  unfold slow_path.
  apply Follows_after;
    [apply Always_perform, plain_stays; split; exact I|intros _|discriminate].
  apply Follows_after;
    [apply Always_perform, plain_stays; split; exact I|intros _|discriminate].
  eapply Follows_try_finally
    with (Q := fun r (_ : bool) => r <> Outside) (QE := fun r _ => r <> Outside).
  - eapply Follows_bind; [apply is_container_running_obeys| |auto].
    intros r running ->. destruct running; cbn [negb].
    + apply wait_for_health_obeys.
    + eapply Follows_bind; [apply start_container_obeys| |auto].
      intros r started ->. destruct started; cbn [negb].
      * apply wait_for_health_obeys.
      * cbn. discriminate.
  - intros r a Hr. cbn. split; [exact I|]. intros u _. exact Hr.
  - intros r e Hr. cbn. split; [exact I|]. intros u _. exact Hr.
Qed.

Lemma ensure_server_ready_obeys (fuel : nat) :
  obeys cfg Outside (ensure_server_ready hz cfg fuel).
Proof.
  unfold obeys, ensure_server_ready, with_lock. cbn [Follows].
  split; [reflexivity|]. intros u _. cbn [role_next].
  eapply Follows_try_finally
    with (Q := fun r (_ : bool) => r <> Outside) (QE := fun r _ => r <> Outside).
  - unfold ensure_body.
    apply Follows_after;
      [apply Always_perform, plain_stays; split; exact I|intros healthy
      |discriminate].
    apply Follows_after; [|intros quick|discriminate].
    + destruct healthy; [|constructor].
      apply check_health_shape, plain_stays; split; exact I.
    + destruct quick; [cbn; discriminate|apply slow_path_obeys].
  - intros r a Hr. cbn. split; [exact Hr|]. intros u' _. reflexivity.
  - intros r e Hr. cbn. split; [exact Hr|]. intros u' _. reflexivity.
Qed.

Lemma proxy_obeys (fuel : nat) (request : Request) (path : string) :
  obeys cfg Outside (proxy hz cfg fuel request path).
Proof.
  unfold obeys, proxy.
  apply Follows_after; [|intros _|reflexivity].
  { apply record_activity_shape; intros; apply plain_stays; split; exact I. }
  eapply Follows_bind; [apply ensure_server_ready_obeys| |auto].
  intros r ready ->. destruct ready; cbn [negb]; [|reflexivity].
  apply Follows_stays.
  apply Always_try_except.
  - apply relay_shape; apply plain_stays; split; exact I.
  - intros e. unfold relay_failed.
    destruct (is_TimeoutException e); [constructor|].
    apply Always_bind; [|intros; constructor].
    apply Always_perform, plain_stays; split; exact I.
Qed.
End Discipline.

(** ** Handlers on a stopped backend issue a start command *)

Section Due.
Variable hz : Z.
Variable cfg : Config.

Local Abbreviation Owes :=
  (Follows (fun _ _ _ => True)
     (fun (due : bool) X op x => due = true -> cold_answer cfg X op x)
     owes_next).

Lemma owes_nothing {A : Type} (p : Prog A) :
  Owes (fun due _ => due = false) (fun due _ => due = false) false p.
Proof.
  induction p as [a|e| |X op k IH]; simpl; auto.
  split; [exact I|]. intros x _.
  replace (owes_next false X op x) with false; [apply IH|].
  destruct op; reflexivity.
Qed.

Lemma check_health_cold :
  Owes (fun due ok => due = true /\ ok = false) (fun _ _ => False)
    true (check_health cfg).
Proof.
  unfold check_health, call. cbn.
  split; [exact I|]. intros r Hr. specialize (Hr eq_refl eq_refl eq_refl).
  destruct r as [status|e]; cbn in *.
  - injection Hr as ->. auto.
  - destruct (is_Exception e); [cbn; auto|discriminate].
Qed.

Lemma is_container_running_cold :
  Owes (fun due running => due = true /\ running = false)
    (fun _ _ => False) true (is_container_running cfg).
Proof.
  unfold is_container_running, call. cbn.
  split; [exact I|]. intros r Hr. destruct (Hr eq_refl eq_refl) as [Ho Hs].
  destruct r as [c|e]; cbn in *; [auto|].
  rewrite Ho. cbn. auto.
Qed.

Lemma start_container_pays :
  Owes (fun due _ => due = false) (fun due _ => due = false)
    true (start_container cfg).
Proof.
  unfold start_container, call. cbn.
  split; [exact I|]. intros r _.
  destruct r as [c|e]; cbn.
  - destruct (returncode c =? 0); reflexivity.
  - destruct (is_Exception e); reflexivity.
Qed.

Lemma slow_path_owes (fuel : nat) :
  Owes (fun due _ => due = false) (fun due _ => due = false)
    true (slow_path hz cfg fuel).
Proof.
  unfold slow_path, perform. cbn [bind Follows owes_next].
  split; [exact I|]. intros u1 _. split; [exact I|]. intros u2 _.
  eapply Follows_try_finally
    with (Q := fun due (_ : bool) => due = false) (QE := fun due _ => due = false).
  - eapply Follows_bind; [apply is_container_running_cold| |intros ? ? []].
    intros due running [-> ->]. cbn [negb].
    eapply Follows_bind; [apply start_container_pays| |auto].
    intros due started ->. apply owes_nothing.
  - intros due a ->. apply owes_nothing.
  - intros due e ->. apply owes_nothing.
Qed.

Lemma ensure_server_ready_owes (fuel : nat) :
  Owes (fun due _ => due = false) (fun due _ => due = false)
    true (ensure_server_ready hz cfg fuel).
Proof.
  unfold ensure_server_ready, with_lock. cbn [Follows owes_next].
  split; [exact I|]. intros u _.
  eapply Follows_try_finally
    with (Q := fun due (_ : bool) => due = false) (QE := fun due _ => due = false).
  - unfold ensure_body, perform. cbn [bind Follows owes_next].
    split; [exact I|]. intros healthy _.
    eapply Follows_bind
      with (Q := fun due quick => due = true /\ quick = false)
           (QE := fun _ _ => False);
      [|intros due quick [-> ->]; apply slow_path_owes|intros ? ? []].
    destruct healthy; [apply check_health_cold|cbn; auto].
  - intros due a ->. apply owes_nothing.
  - intros due e ->. apply owes_nothing.
Qed.

Lemma proxy_owes (fuel : nat) (request : Request) (path : string) :
  owes_start cfg (proxy hz cfg fuel request path).
Proof.
  unfold owes_start, proxy, record_activity, monotonic, perform.
  cbn [bind Follows owes_next ev_is_docker andb negb].
  split; [exact I|]. intros t _. split; [exact I|]. intros u _.
  eapply Follows_bind; [apply ensure_server_ready_owes| |auto].
  intros due ready ->. apply owes_nothing.
Qed.
End Due.

(** ** Single flight of the handlers *)

Section Flight.
Context {W : Type}.
Variable respond : forall X : Type, ExtOp X -> W -> X * W.
Variable hz : Z.
Variable cfg : Config.
(** The worlds in which the container is down, and those in which it is
    up. *)
Variables down up : W -> Prop.
(** Calls other than docker commands neither bring the container up
    nor take it down. *)
Hypothesis down_stays : forall X (e : ExtOp X) w,
  op_not_subprocess X e -> down w -> down (snd (respond X e w)).
Hypothesis up_stays : forall X (e : ExtOp X) w,
  op_not_subprocess X e -> up w -> up (snd (respond X e w)).
(** While the container is down the health probe fails and
    [docker inspect] reports no running container. *)
Hypothesis down_probe : forall w, down w ->
  probe_verdict (fst (respond _ (ClientGet (health_url cfg) 5) w)) = Ok false.
Hypothesis down_inspect : forall w, down w ->
  ordinary (fst (respond _ (docker_inspect cfg) w))
  /\ says_running (fst (respond _ (docker_inspect cfg) w)) = false
  /\ down (snd (respond _ (docker_inspect cfg) w)).
(** The start command brings the container up, and [docker inspect]
    reports a container that is up as running. *)
Hypothesis down_start : forall w, down w ->
  up (snd (respond _ (docker_start cfg) w)).
Hypothesis up_inspect : forall w, up w ->
  says_running (fst (respond _ (docker_inspect cfg) w)) = true
  /\ up (snd (respond _ (docker_inspect cfg) w)).

Section Steps.
Context {A : Type}.
Variable before : nat.

Local Abbreviation starts := (count_events (ev_is_docker "start")).
Local Abbreviation phase := (flight_phase (A:=A) cfg down up before).

Lemma roles_update (ts : list (Prog A)) holder holder' (i : nat) p' :
  (forall j t, ts !! j = Some t -> obeys cfg (role_at holder j) t) ->
  (i < length ts)%nat ->
  obeys cfg (role_at holder' i) p' ->
  (forall j, j <> i -> role_at holder' j = role_at holder j) ->
  forall j t, <[i := p']> ts !! j = Some t -> obeys cfg (role_at holder' j) t.
Proof.
  intros Hts Hi Hp Hothers j t.
  destruct (decide (j = i)) as [->|Hne].
  - rewrite list_lookup_insert_eq by exact Hi. intros [= <-]. exact Hp.
  - rewrite list_lookup_insert_ne by congruence. rewrite Hothers by exact Hne.
    apply Hts.
Qed.

Lemma role_at_self (i : nat) (b : bool) : role_at (Some (i, b)) i = Inside b.
Proof. unfold role_at. rewrite Nat.eqb_refl. reflexivity. Qed.

Lemma role_at_inside holder (i : nat) :
  role_at holder i <> Outside -> exists b, holder = Some (i, b).
Proof.
  destruct holder as [[j b]|]; simpl; [|congruence].
  destruct (Nat.eqb_spec i j) as [->|]; [eauto|congruence].
Qed.

Lemma role_at_other (i j : nat) (b : bool) :
  j <> i -> role_at (Some (i, b)) j = Outside.
Proof.
  intros H. unfold role_at. destruct (Nat.eqb_spec j i); [contradiction|reflexivity].
Qed.

(** A step that issues no start command and leaves the container as it
    is. *)
Lemma phase_kept (ts : list (Prog A)) (s s' : State W) (i : nat) p p' :
  phase (ts, s) ->
  ts !! i = Some p ->
  starts (trace s') = starts (trace s) ->
  (down (world s) -> down (world s')) ->
  (up (world s) -> up (world s')) ->
  (down (world s) -> owes_start cfg p -> owes_start cfg p') ->
  phase (<[i := p']> ts, s').
Proof.
  intros [(Hc & Hd & Ho)|(Hc & Hu)] Hi Hs Hdown Hup Howes; cbn [fst snd] in *.
  - left. cbn [fst snd]. rewrite Hs. split; [exact Hc|]. split; [auto|].
    intros j t. destruct (decide (j = i)) as [->|Hne].
    + rewrite list_lookup_insert_eq by (eapply lookup_lt_Some; exact Hi).
      intros [= <-]. apply Howes; [exact Hd|]. apply (Ho i), Hi.
    + rewrite list_lookup_insert_ne by congruence. apply Ho.
  - right. cbn [fst snd]. rewrite Hs. auto.
Qed.

Lemma starts_logged {X : Type} (s : State W) (e : ExtOp X) (x : X) (w : W) :
  starts (trace (logged s e x w))
  = (starts (trace s) + if ev_is_docker "start" (Ev e x) then 1 else 0)%nat.
Proof. unfold logged; simpl. rewrite count_events_app. simpl. lia. Qed.

Lemma flight_step (ps ps' : Pool A) :
  flight cfg down up before ps -> step respond ps ps' ->
  flight cfg down up before ps'.
Proof.
  destruct ps as [ts s].
  intros (holder & Hlock & Hroles & Hlic & Hphase) [i Hstep].
  unfold step_at in Hstep. cbn [fst snd] in *.
  destruct (ts !! i) as [p|] eqn:Hi; [|discriminate].
  pose proof (lookup_lt_Some _ _ _ Hi) as Hlen.
  pose proof (Hroles i p Hi) as Hobeys.
  destruct p as [a|e| |X op k]; simpl in Hstep; try discriminate.
  destruct (enabled op s) eqn:Hen; [|discriminate].
  destruct Hobeys as [Hallowed Hnext].
  destruct op as [ |t| |b| |b| | |Y e].
  all: try (injection Hstep as <-;
            exists holder; cbn [fst snd exec with_mgr mgr world trace];
            split; [exact Hlock|]; split;
            [eapply roles_update; eauto; apply (Hnext _ I)|];
            split; [exact Hlic|];
            apply (phase_kept ts s _ i _ _ Hphase Hi); auto;
            intros _ [_ Ho]; apply (Ho _ (fun _ => I))).
  - (* Acquire *)
    injection Hstep as <-. simpl in Hen, Hallowed.
    destruct holder as [[j b]|]; [rewrite Hlock in Hen; discriminate|].
    exists (Some (i, false)). cbn [fst snd exec with_mgr mgr world trace].
    split; [reflexivity|]. split.
    { eapply roles_update; eauto.
      - rewrite role_at_self. apply (Hnext tt I).
      - intros j Hj. rewrite role_at_other by exact Hj. reflexivity. }
    split; [intros j [=]|].
    apply (phase_kept ts s _ i _ _ Hphase Hi); auto.
    intros _ [_ Ho]. apply (Ho _ (fun _ => I)).
  - (* Release *)
    injection Hstep as <-. simpl in Hallowed.
    destruct (role_at_inside holder i Hallowed) as [b ->].
    exists None. cbn [fst snd exec with_mgr mgr world trace].
    split; [reflexivity|]. split.
    { eapply roles_update; eauto.
      - apply (Hnext tt I).
      - intros j Hj. rewrite role_at_other by exact Hj. reflexivity. }
    split; [intros j [=]|].
    apply (phase_kept ts s _ i _ _ Hphase Hi); auto.
    intros _ [_ Ho]. apply (Ho _ (fun _ => I)).
  - (* an external call *)
    cbn [exec] in Hstep.
    destruct (respond Y e (world s)) as [x w] eqn:E.
    injection Hstep as <-.
    assert (Hx : x = fst (respond Y e (world s))) by (rewrite E; reflexivity).
    assert (Hw : w = snd (respond Y e (world s))) by (rewrite E; reflexivity).
    specialize (Hnext x I).
    destruct e as [ |url timeout|args timeout|d|rq| | ].
    3: { (* a docker command *)
      simpl in Hallowed.
      destruct Hallowed as [[Hin Heq]|[Hin Heq]].
      - (* docker inspect *)
        destruct (role_at_inside holder i Hin) as [b ->].
        unfold docker_inspect in Heq. injection Heq as -> ->.
        fold (docker_inspect cfg) in *.
        rewrite role_at_self in Hnext. cbn in Hnext.
        exists (Some (i, negb (says_running x))).
        cbn [fst snd]. split; [exact Hlock|]. split.
        { eapply roles_update; eauto.
          - rewrite role_at_self. exact Hnext.
          - intros j Hj. rewrite !role_at_other by exact Hj. reflexivity. }
        split.
        { intros j [= _ Hsays]. rewrite starts_logged. cbn.
          destruct Hphase as [(Hc & _)|(_ & Hu)]; cbn [fst snd] in *; [lia|].
          destruct (up_inspect _ Hu) as [Hr _]. rewrite <- Hx in Hr.
          rewrite Hr in Hsays. discriminate. }
        apply (phase_kept ts s _ i _ _ Hphase Hi).
        + rewrite starts_logged. cbn. lia.
        + intros Hd. rewrite Hw. apply (down_inspect _ Hd).
        + intros Hu. rewrite Hw. apply (up_inspect _ Hu).
        + intros Hd [_ Ho].
          apply (Ho x). intros _ _. rewrite Hx.
          destruct (down_inspect _ Hd) as (H1 & H2 & _). split; assumption.
      - (* docker start *)
        rewrite Hin in Hnext.
        destruct (role_at_inside holder i) as [b Hb];
          [rewrite Hin; discriminate|].
        subst holder. rewrite role_at_self in Hin. injection Hin as ->.
        unfold docker_start in Heq. injection Heq as -> ->.
        fold (docker_start cfg) in *. cbn in Hnext.
        exists (Some (i, false)).
        cbn [fst snd]. split; [exact Hlock|]. split.
        { eapply roles_update; eauto.
          - rewrite role_at_self. exact Hnext.
          - intros j Hj. rewrite !role_at_other by exact Hj. reflexivity. }
        split; [intros j [=]|].
        specialize (Hlic i eq_refl).
        destruct Hphase as [(Hc & Hd & _)|(Hc & _)]; cbn [fst snd] in *;
          [|lia].
        right. cbn [fst snd]. rewrite starts_logged. cbn.
        split; [lia|]. rewrite Hw. apply (down_start _ Hd). }
    all: exists holder; cbn [fst snd];
      (split; [exact Hlock|]); (split; [eapply roles_update; eauto|]);
      (split; [intros j Hj; rewrite starts_logged; cbn;
               rewrite Nat.add_0_r; apply (Hlic j Hj)|]);
      apply (phase_kept ts s _ i _ _ Hphase Hi);
      [rewrite starts_logged; cbn; lia
      |intros Hd; rewrite Hw; apply down_stays; [exact I|exact Hd]
      |intros Hu; rewrite Hw; apply up_stays; [exact I|exact Hu]
      |intros Hd [_ Ho]; apply (Ho x); intros _].
    all: try exact I.
    intros -> ->. rewrite Hx. apply down_probe, Hd.
Qed.
End Steps.

(** C1, as the code has it.  The handlers of any number of concurrent
    requests, interleaved in any way, on a backend whose container is down:
    as long as it is down the health probe fails and [docker inspect]
    reports no running container; the start command brings it up; once up
    it is reported as running.  Then one start command is issued and never
    a second: every reachable state has seen none, with the container still
    down, or exactly one, with the container up; and no handler comes to
    its end before the start command has been issued.  Throughout, at
    most one handler is under the lock, and a start command is issued only
    there, right after a [docker inspect] under the same lock found the
    container not running ([flight]). *)
Theorem cold_start_single_flight (fuel : nat)
  (requests : list (Request * string)) (s0 : State W)
  (ts : list (Prog HandlerResponse)) (s : State W) :
  _lock (mgr s0) = false ->
  down (world s0) ->
  steps respond
    (map (fun r => proxy hz cfg fuel (fst r) (snd r)) requests, s0) (ts, s) ->
  let starts := count_events (ev_is_docker "start") in
  (starts (trace s) = starts (trace s0) /\ down (world s)
   \/ starts (trace s) = (starts (trace s0) + 1)%nat /\ up (world s))
  /\ ((exists i t, ts !! i = Some t /\ finished t = true) ->
      starts (trace s) = (starts (trace s0) + 1)%nat)
  /\ flight cfg down up (starts (trace s0)) (ts, s).
Proof.
  intros Hl Hd Hsteps starts. subst starts.
  set (before := count_events (ev_is_docker "start") (trace s0)).
  assert (Hinv : flight cfg down up before (ts, s)).
  { remember (map (fun r => proxy hz cfg fuel (fst r) (snd r)) requests, s0)
      as ps0 eqn:E0.
    remember (ts, s) as ps eqn:E. clear E.
    induction Hsteps as [ps|ps1 ps2 ps3 _ IH Hstep].
    - subst ps. exists None. cbn [fst snd].
      split; [exact Hl|]. split; [|split; [intros j [=]|]].
      + intros i t Hi. apply list_lookup_fmap_Some in Hi as (r & -> & _).
        apply proxy_obeys.
      + left. cbn [fst snd]. split; [reflexivity|]. split; [exact Hd|].
        intros i t Hi. apply list_lookup_fmap_Some in Hi as (r & -> & _).
        apply proxy_owes.
    - eapply flight_step; [apply IH; exact E0|exact Hstep]. }
  pose proof Hinv as (holder & _ & _ & _ & Hphase).
  destruct Hphase as [(Hc & Hdown & Howes)|(Hc & Hup)]; cbn [fst snd] in *.
  - split; [left; split; assumption|]. split; [|exact Hinv].
    intros (i & t & Hi & Hf). specialize (Howes i t Hi).
    destruct t; simpl in *; discriminate.
  - split; [right; split; [lia|exact Hup]|]. split; [|exact Hinv].
    intros _. lia.
Qed.
End Flight.


(** ** The theorems at work on the simulated deployment *)

Lemma idle_seconds_since_last_activity_witness :
  let s := mock_state (new_manager 0) (mkMock 7 true 0 true Serves) in
  fst (run (mock_respond 1) (do record_activity then get_idle_seconds) s)
  = Ret 0.
Proof.
  intros s.
  apply (idle_seconds_since_last_activity (mock_respond 1) s 7
           (mkMock 7 true 0 true Serves) 7 (mkMock 7 true 0 true Serves));
    reflexivity.
Defined.

Lemma check_health_never_raises_witness :
  let w := mkMock 0 true 2 true Serves in
  exists b : bool,
    run (mock_respond 1) (check_health default_config)
      (mock_state (new_manager 0) w)
    = (Ret b,
       logged (mock_state (new_manager 0) w)
         (ClientGet (health_url default_config) 5) (Ok 503)
         (mkMock 0 true 1 true Serves))
    /\ (b = true <-> Ok 503 = Ok 200)
    /\ (True -> b = false).
Proof.
  intros w.
  apply (check_health_never_raises (mock_respond 1) default_config
           (mock_state (new_manager 0) w) (Ok 503)
           (mkMock 0 true 1 true Serves)).
  - reflexivity.
  - simpl. exact I.
Defined.

Lemma start_failure_fails_fast_witness :
  let w := mkMock 0 false 0 false Serves in
  let s := mock_state (new_manager 0) w in
  fst (run (mock_respond 1) (ensure_server_ready 1 default_config 0) s)
  = Ret false
  /\ trace (snd (run (mock_respond 1) (ensure_server_ready 1 default_config 0) s))
     = [Ev (docker_inspect default_config) (completed 0 ("false" ++ nl));
        Ev (docker_start default_config) (completed 1 "")].
Proof.
  intros w s.
  apply (start_failure_fails_fast (mock_respond 1) 1 default_config 0 s
           (completed 0 ("false" ++ nl)) w (completed 1 "") w);
    solve [reflexivity | simpl; exact I].
Defined.

Lemma unhealthy_backend_gives_503_witness :
  let s := mkState (new_manager 0) 0 [] in
  fst (run (dead_respond 1) (proxy 1 default_config 302 sample_request "health") s)
  = Ret (Response (json_error "Backend server failed to start") 503 ∅
           (Some "application/json")).
Proof.
  intros s.
  apply (unhealthy_backend_gives_503 (dead_respond 1) 1 default_config
           (fun t => t)).
  - lia.
  - intros w; simpl; lia.
  - intros X e w; destruct e; simpl; lia.
  - intros d w; simpl; split; [reflexivity|lia].
  - intros w; reflexivity.
  - intros args timeout w; simpl; exact I.
  - reflexivity.
  - vm_compute. discriminate.
Defined.

Lemma idle_monitor_stops_once_witness :
  let w := mkMock 1000 true 0 true Serves in
  let s := mkState (mkManager 0 false false true) w [] in
  count_events (ev_is_docker "stop")
    (trace (snd (run (mock_respond 1) (idle_monitor_turn 1 default_config) s)))
  = 1%nat
  /\ _healthy
       (mgr (snd (run (mock_respond 1) (idle_monitor_turn 1 default_config) s)))
     = false.
Proof.
  intros w s.
  destruct (idle_monitor_stops_once (mock_respond 1) 1 default_config s tt
              (mkMock 1030 true 0 true Serves) 1030
              (mkMock 1030 true 0 true Serves) (completed 0 "")
              (mkMock 1030 false 0 true Serves))
    as (_ & Htr & Hc & Hh & _);
    try solve [reflexivity | simpl; exact I | vm_compute; discriminate].
  split; [rewrite Htr; exact Hc|exact Hh].
Defined.

Lemma forwarding_strips_hop_by_hop_witness :
  let s := mkState (mkManager 0 false false true)
             (mkMock 0 true 0 true Serves) [] in
  let rq := backend_request default_config sample_request "v1/models" in
  rq_headers rq !! "host" = None
  /\ rq_headers rq !! "content-type" = Some "application/json"
  /\ exists hdrs s',
       run (mock_respond 1)
         (proxy 1 default_config 1 sample_request "v1/models") s
       = (Ret (Response "{}" 200 hdrs None), s')
       /\ count_events ev_is_send (trace s') = 1%nat
       /\ hdrs !! "connection" = None
       /\ hdrs !! "content-type" = Some "application/json".
Proof.
  intros s rq.
  destruct (forwarding_strips_hop_by_hop (mock_respond 1) 1 default_config 1
              sample_request "v1/models" s) as (_ & _ & Hh & _ & Hr & _).
  split; [rewrite Hh; reflexivity|]. split; [rewrite Hh; reflexivity|].
  destruct (Hr (snd (run (mock_respond 1)
                       (do record_activity then
                        ensure_server_ready 1 default_config 1) s))
              (mkBackendResponse 200
                 (<["content-type" := "application/json"]>
                    (<["connection" := "keep-alive"]> ∅)))
              (mkMock 0 true 0 true Serves))
    as (hdrs & Hk & _ & Hbuf);
    [vm_compute; reflexivity|vm_compute; reflexivity|].
  exists hdrs. eexists. split.
  - apply (Hbuf ltac:(vm_compute; reflexivity) "{}"
             (mkMock 0 true 0 true Serves) tt (mkMock 0 true 0 true Serves));
      reflexivity.
  - split; [vm_compute; reflexivity|]. rewrite !Hk. split; reflexivity.
Defined.

Lemma polling_pace_witness :
  let s := mock_state (new_manager 0) (mkMock 0 true 1 true Serves) in
  let out := run (mock_respond 1) (wait_for_health 1 default_config 3) s in
  exists start tr,
    trace (snd out) = Ev TimeMonotonic start :: tr
    /\ poll_rounds 1 600 (health_url default_config) start 3 tr (Ret true).
Proof.
  intros s out.
  destruct (polling_pace (mock_respond 1) 1 default_config 3 s)
    as (start & tr & Htr & Hrounds & _).
  exists start, tr. split; [exact Htr|].
  replace (Ret true) with (fst out) by reflexivity. exact Hrounds.
Defined.

(** The clock of the simulated deployment never goes back. *)
Lemma mock_clock_monotone (hz : Z) (X : Type) (e : ExtOp X) (w : Mock) :
  0 < hz -> clock w <= clock (snd (mock_respond hz X e w)).
Proof.
  intros Hz. destruct e; simpl; try lia.
  - unfold mock_probe. destruct (container_up w); [|simpl; lia].
    destruct (warmup w); simpl; lia.
  - unfold mock_subprocess. destruct args as [|a [|verb args]]; simpl; try lia.
    destruct (String.eqb verb "inspect"); simpl; [lia|].
    destruct (String.eqb verb "start"); simpl;
      [destruct (start_works w); simpl; lia|].
    destruct (String.eqb verb "stop"); simpl; lia.
Qed.

Lemma starting_flag_reset_witness :
  let s := mock_state (new_manager 0) (mkMock 0 false 1 true Serves) in
  let out := run (mock_respond 1) (ensure_server_ready 1 default_config 400) s in
  finished (fst out) = true /\ _starting (mgr (snd out)) = false.
Proof.
  intros s.
  destruct (starting_flag_reset (mock_respond 1) 1 default_config 400 s)
    as [_ H].
  destruct H as (_ & _ & H); [reflexivity|reflexivity|].
  apply (H clock).
  - lia.
  - intros w. simpl. lia.
  - intros X e w. apply mock_clock_monotone. lia.
  - intros d w u _. simpl. lia.
  - vm_compute. discriminate.
Defined.

Lemma relay_failure_response_witness :
  let rq := backend_request default_config sample_request "v1/models" in
  let s := mkState (mkManager 0 false false true)
             (mkMock 0 true 0 true Refuses) [] in
  let out := run (mock_respond 1) (try_except (relay rq) relay_failed) s in
  fst out
  = Ret (Response (json_error "Backend request failed: connection refused") 502
           ∅ (Some "application/json"))
  /\ mgr (snd out) = set_healthy false (mgr s).
Proof.
  intros rq s.
  apply (relay_failure_response (mock_respond 1) rq s
           (logged s (ClientSend rq) (Err (OtherException "connection refused"))
              (mkMock 0 true 0 true Refuses))
           (OtherException "connection refused"));
    reflexivity.
Defined.

(** C7, as stated, fails for a request in which two header lines carry
    the same name: the handler forwards the dictionary it makes of the
    header lines, which holds one value for the name, so the second line
    does not reach the backend, though [accept] is none of the headers to
    remove.  Whatever dictionary the lines were turned into, the request
    built from it could not carry both values. *)
Lemma repeated_header_line_is_lost :
  let lines := [("accept", "text/html"); ("accept", "application/json");
                ("host", "proxy:8000")] in
  let request := mkRequest "GET" "" (dict_of_lines lines) "" in
  let rq := backend_request default_config request "v1/models" in
  In ("accept", "application/json") lines
  /\ ~ In "accept" request_hop_by_hop
  /\ rq_headers rq !! "accept" = Some "text/html"
  /\ rq_headers rq !! "accept" <> Some "application/json"
  /\ (forall d : Headers,
        let rq' := backend_request default_config (mkRequest "GET" "" d "")
                     "v1/models" in
        ~ (rq_headers rq' !! "accept" = Some "text/html"
           /\ rq_headers rq' !! "accept" = Some "application/json")).
Proof.
  split; [right; left; reflexivity|]. split.
  { intros H. repeat (destruct H as [H|H]; [discriminate|]). destruct H. }
  split; [vm_compute; reflexivity|]. split; [vm_compute; discriminate|].
  intros d rq' [H1 H2]. rewrite H1 in H2. discriminate.
Qed.

(** C3, as stated, fails: a request whose forwarding times out is answered
    with 504 while the backend stays cached as healthy. *)
Lemma timeout_keeps_backend_healthy :
  let s := mkState (mkManager 0 false false true)
             (mkMock 0 true 0 true TimesOut) [] in
  let out := run (mock_respond 1)
               (proxy 1 default_config 1 sample_request "v1/models") s in
  fst out
  = Ret (Response (json_error "Backend request timeout") 504 ∅
           (Some "application/json"))
  /\ _healthy (mgr (snd out)) = true
  /\ _healthy (mgr (snd out)) <> false.
Proof. vm_compute. repeat split; discriminate. Qed.

(** The simulated backend, once up and warm, answers its probe with 200
    and stays so. *)
Lemma mock_stays_up (hz : Z) (cfg : Config) (w : Mock) :
  container_up w = true /\ warmup w = O ->
  fst (mock_respond hz _ (ClientGet (health_url cfg) 5) w) = Ok 200
  /\ (container_up (snd (mock_respond hz _ (ClientGet (health_url cfg) 5) w))
      = true
      /\ warmup (snd (mock_respond hz _ (ClientGet (health_url cfg) 5) w)) = O).
Proof.
  intros [Hu Hw]. simpl. unfold mock_probe. rewrite Hu, Hw. simpl. auto.
Qed.

Lemma cold_start_single_flight_witness :
  let s0 := mock_state (new_manager 0) (mkMock 0 false 1 true Serves) in
  let handler := proxy 1 default_config 400 sample_request "v1/models" in
  let ps := schedule (mock_respond 1) (concat (replicate 40 [0; 1]%nat))
              ([handler; handler], s0) in
  count_events (ev_is_docker "start") (trace (snd ps)) = 1%nat.
Proof.
  intros s0 handler ps.
  pose proof (schedule_steps (mock_respond 1) (concat (replicate 40 [0; 1]%nat))
                ([handler; handler], s0)) as Hsteps.
  fold ps in Hsteps.
  assert (Hfin : exists i t, fst ps !! i = Some t /\ finished t = true).
  { exists 0%nat. vm_compute. eexists. split; reflexivity. }
  destruct ps as [ts s].
  apply (cold_start_single_flight (mock_respond 1) 1 default_config
           (fun w => container_up w = false /\ start_works w = true)
           (fun w => container_up w = true))
    with (fuel := 400%nat)
         (requests := [(sample_request, "v1/models");
                       (sample_request, "v1/models")])
         (s0 := s0) (ts := ts) (s := s).
  - intros X e w He [Hc Hs]. destruct e; simpl; try (destruct He); auto.
    unfold mock_probe. rewrite Hc. auto.
  - intros X e w He Hc. destruct e; simpl; try (destruct He); auto.
    unfold mock_probe. rewrite Hc. destruct (warmup w); auto.
  - intros w [Hc Hs]. simpl. unfold mock_probe. rewrite Hc. reflexivity.
  - intros w [Hc Hs]. simpl. rewrite Hc. auto.
  - intros w [Hc Hs]. simpl. rewrite Hs. reflexivity.
  - intros w Hc. simpl. rewrite Hc. auto.
  - reflexivity.
  - split; reflexivity.
  - exact Hsteps.
  - exact Hfin.
Defined.

(** C1, as stated, fails: when the start command fails, the second of two
    concurrent callers finds the backend still stopped and issues a start
    command of its own. *)
Lemma failed_start_is_retried :
  let s0 := mock_state (new_manager 0) (mkMock 0 false 0 false Serves) in
  let call := ensure_server_ready 1 default_config 400 in
  let ps := schedule (mock_respond 1) (concat (replicate 20 [0; 1]%nat))
              ([call; call], s0) in
  steps (mock_respond 1) ([call; call], s0) ps
  /\ fst ps = [Ret false; Ret false]
  /\ count_events (ev_is_docker "start") (trace (snd ps)) = 2%nat.
Proof.
  split; [apply schedule_steps|]. vm_compute. split; reflexivity.
Qed.


(** ** Scenarios on the simulated deployment *)

Example strip_lower_true : py_lower (py_strip ("  True" ++ nl)) = "true".
Proof. reflexivity. Qed.

Example chunked_is_found : py_contains "chunked" "gzip, chunked" = true.
Proof. reflexivity. Qed.

(** A request on a stopped backend that needs one failed probe to warm
    up: one start command, the response of the backend relayed without its
    [connection] header, the backend cached as healthy. *)
Example scenario_cold_start :
  let s := mock_state (new_manager 0) (mkMock 0 false 1 true Serves) in
  let out := run (mock_respond 1)
               (proxy 1 default_config 400 sample_request "v1/models") s in
  fst out
  = Ret (Response "{}" 200 (<["content-type" := "application/json"]> ∅) None)
  /\ count_events (ev_is_docker "start") (trace (snd out)) = 1%nat
  /\ count_events ev_is_send (trace (snd out)) = 1%nat
  /\ _healthy (mgr (snd out)) = true
  /\ last_activity_time (mgr (snd out)) = 2.
Proof. vm_compute. repeat split. Qed.

(** A healthy backend left idle: with the default idle timeout of 300
    seconds and a check every 30 seconds, twenty turns of the monitor stop
    the container once. *)
Example scenario_idle_stop :
  let s := mkState (mkManager 0 false false true)
             (mkMock 0 true 0 true Serves) [] in
  let out := run (mock_respond 1) (idle_monitor 1 default_config 20) s in
  count_events (ev_is_docker "stop") (trace (snd out)) = 1%nat
  /\ _healthy (mgr (snd out)) = false
  /\ container_up (world (snd out)) = false
  /\ clock (world (snd out)) = 600.
Proof. vm_compute. repeat split. Qed.


(** * More of the proxy *)

(** ** Stripping white space *)

Lemma after_prefix_Some (p l rest : list ascii) :
  after_prefix p l = Some rest <-> l = p ++ rest.
Proof.
  revert l; induction p as [|a p IH]; intros l; simpl.
  - split; [intros [= ->]; reflexivity|intros ->; reflexivity].
  - destruct l as [|b l]; [split; discriminate|].
    destruct (Ascii.eqb_spec a b) as [->|Hne].
    + rewrite IH. split; [intros ->; reflexivity|intros [= ->]; reflexivity].
    + split; [discriminate|intros [= -> _]; contradiction].
Qed.

Section Chars.
Variable chars : list (list ascii).
(** No character is empty, and a string that starts with one character
    starts with no other. *)
Hypothesis chars_nonempty : forall c, In c chars -> c <> [].
Hypothesis chars_code : forall c rest,
  In c chars -> drop_char chars (c ++ rest) = Some rest.

Lemma drop_char_Some (l rest : list ascii) :
  drop_char chars l = Some rest -> exists c, In c chars /\ l = c ++ rest.
Proof.
  clear chars_nonempty chars_code.
  induction chars as [|c cs IH]; simpl; [discriminate|].
  destruct (after_prefix c l) as [r|] eqn:E.
  - intros [= ->]. apply after_prefix_Some in E. exists c. auto.
  - intros H. destruct (IH H) as (c' & Hc & Hl). exists c'. auto.
Qed.

Lemma made_of_app (l1 l2 : list ascii) :
  made_of chars l1 -> made_of chars l2 -> made_of chars (l1 ++ l2).
Proof.
  induction 1 as [|c l Hc _ IH]; intros H2; [exact H2|].
  rewrite <- app_assoc. constructor; auto.
Qed.

Lemma drop_char_shorter (l rest : list ascii) :
  drop_char chars l = Some rest -> (length rest < length l)%nat.
Proof.
  intros H. destruct (drop_char_Some l rest H) as (c & Hc & ->).
  rewrite length_app. pose proof (chars_nonempty c Hc).
  destruct c; [contradiction|simpl; lia].
Qed.

(** What [drop_chars] takes off is made of characters, and what it
    leaves starts with none. *)
Lemma drop_chars_spec (fuel : nat) (l : list ascii) :
  (length l <= fuel)%nat ->
  exists pre,
    made_of chars pre /\ l = pre ++ drop_chars chars fuel l
    /\ drop_char chars (drop_chars chars fuel l) = None.
Proof.
  revert l; induction fuel as [|fuel IH]; intros l Hl; simpl.
  - destruct l; [|simpl in Hl; lia]. exists []. split; [constructor|].
    split; [reflexivity|].
    destruct (drop_char chars []) as [r|] eqn:E; [|reflexivity].
    apply drop_char_shorter in E. simpl in E. lia.
  - destruct (drop_char chars l) as [r|] eqn:E.
    + pose proof (drop_char_shorter l r E) as Hlt.
      destruct (drop_char_Some l r E) as (c & Hc & ->).
      destruct (IH r) as (pre & Hpre & Hr & Hnone); [lia|].
      exists (c ++ pre). split; [constructor; assumption|].
      split; [|exact Hnone]. rewrite <- app_assoc, <- Hr. reflexivity.
    + exists []. split; [constructor|]. split; [reflexivity|exact E].
Qed.

(** Characters in front of a string that starts with none are all
    taken off. *)
Lemma drop_chars_made (fuel : nat) (pre l : list ascii) :
  made_of chars pre -> drop_char chars l = None ->
  (length (pre ++ l) <= fuel)%nat ->
  drop_chars chars fuel (pre ++ l) = l.
Proof.
  intros Hpre Hl. revert fuel.
  induction Hpre as [|c pre Hc _ IH]; intros fuel Hlen.
  - destruct fuel; simpl; [reflexivity|]. rewrite Hl. reflexivity.
  - rewrite <- app_assoc in *. rewrite length_app in Hlen.
    pose proof (chars_nonempty c Hc).
    destruct fuel as [|fuel]; [destruct c; [contradiction|simpl in Hlen; lia]|].
    simpl. rewrite chars_code by exact Hc. apply IH.
    destruct c; [contradiction|simpl in Hlen; lia].
Qed.

Lemma all_chars_spec (fuel : nat) (l : list ascii) :
  (length l <= fuel)%nat -> all_chars chars fuel l = true <-> made_of chars l.
Proof.
  revert l; induction fuel as [|fuel IH]; intros l Hl.
  - destruct l; [|simpl in Hl; lia]. simpl. split; [constructor|reflexivity].
  - destruct l as [|a l]; [simpl; split; [constructor|reflexivity]|].
    cbn [all_chars].
    destruct (drop_char chars (a :: l)) as [r|] eqn:E.
    + pose proof (drop_char_shorter _ r E) as Hlt.
      destruct (drop_char_Some _ r E) as (c & Hc & Heq).
      rewrite IH by lia. rewrite Heq. split; [intros H; constructor; assumption|].
      intros H. inversion H as [Hn|c' l' Hc' Hl' Heq'].
      { destruct c; [destruct (chars_nonempty [] Hc eq_refl)|discriminate]. }
      assert (Some r = Some l') as [= ->]; [|exact Hl'].
      rewrite <- (chars_code c r Hc), <- (chars_code c' l' Hc'). congruence.
    + split; [discriminate|].
      intros H. inversion H as [Hn|c' l' Hc' Hl' Heq'].
      rewrite <- Heq', (chars_code c' l' Hc') in E. discriminate.
Qed.

Lemma made_of_starts (l : list ascii) :
  made_of chars l -> l <> [] -> exists rest, drop_char chars l = Some rest.
Proof.
  induction 1 as [|c l Hc _ _]; [congruence|].
  intros _. exists l. apply chars_code, Hc.
Qed.
End Chars.

Lemma made_of_rev (chars : list (list ascii)) (l : list ascii) :
  made_of chars l -> made_of (map (@rev ascii) chars) (rev l).
Proof.
  induction 1 as [|c l Hc _ IH]; [constructor|].
  rewrite rev_app_distr. apply made_of_app; [exact IH|].
  rewrite <- (app_nil_r (rev c)). constructor; [|constructor].
  apply in_map, Hc.
Qed.

Lemma made_of_unrev (chars : list (list ascii)) (l : list ascii) :
  made_of (map (@rev ascii) chars) l -> made_of chars (rev l).
Proof.
  induction 1 as [|c l Hc _ IH]; [constructor|].
  rewrite rev_app_distr. apply made_of_app; [exact IH|].
  apply in_map_iff in Hc as (c0 & <- & Hc0). rewrite rev_involutive.
  rewrite <- (app_nil_r c0). constructor; [exact Hc0|constructor].
Qed.

(** The white space characters, as bytes, and the same read backwards,
    are codes: a string starts with at most one of them. *)
Lemma space_chars_nonempty c : In c space_chars -> c <> [].
Proof.
  intros H. repeat (destruct H as [<-|H]; [discriminate|]). destruct H.
Qed.

Lemma space_chars_code c rest :
  In c space_chars -> drop_char space_chars (c ++ rest) = Some rest.
Proof.
  intros H. repeat (destruct H as [<-|H]; [reflexivity|]). destruct H.
Qed.

Lemma rev_space_chars_nonempty c :
  In c (map (@rev ascii) space_chars) -> c <> [].
Proof.
  intros H. repeat (destruct H as [<-|H]; [discriminate|]). destruct H.
Qed.

Lemma rev_space_chars_code c rest :
  In c (map (@rev ascii) space_chars) ->
  drop_char (map (@rev ascii) space_chars) (c ++ rest) = Some rest.
Proof.
  intros H. repeat (destruct H as [<-|H]; [reflexivity|]). destruct H.
Qed.

Lemma bytes_app (a b : string) :
  list_ascii_of_string (a ++ b)
  = list_ascii_of_string a ++ list_ascii_of_string b.
Proof. induction a as [|c a IH]; simpl; [reflexivity|rewrite IH; reflexivity]. Qed.

Lemma text_app (a b : list ascii) :
  string_of_list_ascii (a ++ b)
  = (string_of_list_ascii a ++ string_of_list_ascii b)%string.
Proof. induction a as [|c a IH]; simpl; [reflexivity|rewrite IH; reflexivity]. Qed.

Lemma blank_spec (s : string) :
  blank s = true <-> made_of space_chars (list_ascii_of_string s).
Proof.
  unfold blank.
  apply (all_chars_spec space_chars space_chars_nonempty space_chars_code).
  lia.
Qed.

Lemma blank_text (l : list ascii) :
  made_of space_chars l -> blank (string_of_list_ascii l) = true.
Proof.
  intros H. apply blank_spec. rewrite list_ascii_of_string_of_list_ascii.
  exact H.
Qed.

(** [lstrip] takes white space off the front, and what is left starts
    with none. *)
Lemma py_lstrip_parts (s : string) :
  exists pre,
    blank pre = true /\ s = (pre ++ py_lstrip s)%string
    /\ drop_char space_chars (list_ascii_of_string (py_lstrip s)) = None.
Proof.
  unfold py_lstrip. cbn zeta.
  destruct (drop_chars_spec space_chars space_chars_nonempty
              (length (list_ascii_of_string s)) (list_ascii_of_string s))
    as (pre & Hpre & Heq & Hnone); [lia|].
  exists (string_of_list_ascii pre). split; [apply blank_text, Hpre|].
  rewrite list_ascii_of_string_of_list_ascii. split; [|exact Hnone].
  rewrite <- text_app, <- Heq, string_of_list_ascii_of_string. reflexivity.
Qed.

Lemma py_rstrip_parts (s : string) :
  exists post,
    blank post = true /\ s = (py_rstrip s ++ post)%string
    /\ drop_char (map (@rev ascii) space_chars)
         (rev (list_ascii_of_string (py_rstrip s))) = None.
Proof.
  unfold py_rstrip. cbn zeta.
  destruct (drop_chars_spec (map (@rev ascii) space_chars)
              rev_space_chars_nonempty
              (length (rev (list_ascii_of_string s)))
              (rev (list_ascii_of_string s)))
    as (pre & Hpre & Heq & Hnone); [lia|].
  exists (string_of_list_ascii (rev pre)).
  split; [apply blank_text, made_of_unrev, Hpre|].
  rewrite list_ascii_of_string_of_list_ascii, rev_involutive.
  split; [|exact Hnone].
  rewrite <- text_app, <- rev_app_distr, <- Heq, rev_involutive.
  rewrite string_of_list_ascii_of_string. reflexivity.
Qed.

(** [strip] takes white space off both ends. *)
Lemma py_strip_parts (s : string) :
  exists pre post,
    s = (pre ++ py_strip s ++ post)%string
    /\ blank pre = true /\ blank post = true.
Proof.
  destruct (py_lstrip_parts s) as (pre & Hpre & Hs & _).
  destruct (py_rstrip_parts (py_lstrip s)) as (post & Hpost & Ht & _).
  exists pre, post. unfold py_strip. rewrite <- Ht. auto.
Qed.

Lemma py_lstrip_made (pre rest : list ascii) :
  made_of space_chars pre -> drop_char space_chars rest = None ->
  py_lstrip (string_of_list_ascii (pre ++ rest)) = string_of_list_ascii rest.
Proof.
  intros Hpre Hrest. unfold py_lstrip. cbn zeta.
  rewrite list_ascii_of_string_of_list_ascii.
  rewrite (drop_chars_made space_chars space_chars_nonempty space_chars_code)
    by (assumption || lia).
  reflexivity.
Qed.

Lemma py_rstrip_made (rest post : list ascii) :
  made_of space_chars post ->
  drop_char (map (@rev ascii) space_chars) (rev rest) = None ->
  py_rstrip (string_of_list_ascii (rest ++ post)) = string_of_list_ascii rest.
Proof.
  intros Hpost Hrest. unfold py_rstrip. cbn zeta.
  rewrite list_ascii_of_string_of_list_ascii, rev_app_distr.
  rewrite (drop_chars_made (map (@rev ascii) space_chars)
             rev_space_chars_nonempty rev_space_chars_code)
    by (try apply made_of_rev; assumption || lia).
  rewrite rev_involutive. reflexivity.
Qed.

Lemma py_strip_empty (s : string) : py_strip s = "" <-> blank s = true.
Proof.
  split.
  - intros H.
    destruct (py_lstrip_parts s) as (pre & Hpre & Hs & Hnone).
    destruct (py_rstrip_parts (py_lstrip s)) as (post & Hpost & Ht & _).
    unfold py_strip in H. rewrite H in Ht.
    change ("" ++ post)%string with post in Ht.
    apply blank_spec in Hpost. rewrite <- Ht in Hpost.
    destruct (list_ascii_of_string (py_lstrip s)) as [|a l] eqn:El.
    + apply blank_spec. rewrite Hs, bytes_app, El, app_nil_r.
      apply blank_spec, Hpre.
    + destruct (made_of_starts space_chars space_chars_code _ Hpost)
        as (rest & Hr); [discriminate|]. congruence.
  - intros H. apply blank_spec in H. unfold py_strip.
    rewrite <- (string_of_list_ascii_of_string s).
    rewrite <- (app_nil_r (list_ascii_of_string s)).
    rewrite py_lstrip_made by (exact H || reflexivity). reflexivity.
Qed.

(** A word that neither starts nor ends with white space, whatever
    surrounds it, is what [strip] leaves of it with white space around. *)
Lemma py_strip_padded (pre word post : string) :
  blank pre = true -> blank post = true ->
  (forall rest,
     drop_char space_chars (list_ascii_of_string word ++ rest) = None) ->
  (forall rest,
     drop_char (map (@rev ascii) space_chars)
       (rev (list_ascii_of_string word) ++ rest) = None) ->
  py_strip (pre ++ word ++ post) = word.
Proof.
  intros Hpre Hpost Hfront Hback. apply blank_spec in Hpre, Hpost.
  unfold py_strip.
  rewrite <- (string_of_list_ascii_of_string (pre ++ word ++ post)).
  rewrite !bytes_app, py_lstrip_made by (exact Hpre || apply Hfront).
  rewrite py_rstrip_made.
  - apply string_of_list_ascii_of_string.
  - exact Hpost.
  - rewrite <- (app_nil_r (rev _)). apply Hback.
Qed.

Lemma py_lower_ascii_letter (c lower : ascii) :
  (97 <= nat_of_ascii lower <= 122)%nat ->
  py_lower_ascii c = lower ->
  c = lower \/ c = ascii_of_nat (nat_of_ascii lower - 32).
Proof.
  intros Hl <-. unfold py_lower_ascii in *.
  destruct ((65 <=? nat_of_ascii c) && (nat_of_ascii c <=? 90))%nat eqn:E;
    [|left; reflexivity].
  right. rewrite nat_ascii_embedding.
  - replace (nat_of_ascii c + 32 - 32)%nat with (nat_of_ascii c) by lia.
    symmetry. apply ascii_nat_embedding.
  - apply andb_prop in E as [_ E]. apply Nat.leb_le in E. lia.
Qed.

Lemma py_lower_true (word : string) :
  py_lower word = "true" <-> spells_true word.
Proof.
  split.
  - destruct word as [|t [|r [|u [|e [|x w]]]]]; simpl; try discriminate.
    intros [= Ht Hr Hu He].
    exists t, r, u, e. split; [reflexivity|].
    apply py_lower_ascii_letter in Ht, Hr, Hu, He;
      try (split; apply Nat.leb_le; reflexivity).
    exact (conj Ht (conj Hr (conj Hu He))).
  - intros (t & r & u & e & -> & Ht & Hr & Hu & He).
    destruct Ht as [->| ->], Hr as [->| ->], Hu as [->| ->], He as [->| ->];
      reflexivity.
Qed.

Lemma spells_true_bare (word : string) :
  spells_true word ->
  (forall rest,
     drop_char space_chars (list_ascii_of_string word ++ rest) = None)
  /\ (forall rest,
        drop_char (map (@rev ascii) space_chars)
          (rev (list_ascii_of_string word) ++ rest) = None).
Proof.
  intros (t & r & u & e & -> & Ht & _ & _ & He).
  split; intros rest.
  - destruct Ht as [->| ->]; reflexivity.
  - destruct He as [->| ->]; reflexivity.
Qed.

(** [s.strip().lower() == "true"] holds exactly of the word true, in
    any mix of upper and lower case, with white space around it. *)
Lemma strip_lower_true_iff (s : string) :
  String.eqb (py_lower (py_strip s)) "true" = true
  <-> exists pre word post,
        s = (pre ++ word ++ post)%string
        /\ blank pre = true /\ blank post = true /\ spells_true word.
Proof.
  rewrite String.eqb_eq, py_lower_true. split.
  - intros Hw. destruct (py_strip_parts s) as (pre & post & Hs & Hpre & Hpost).
    exists pre, (py_strip s), post. auto.
  - intros (pre & word & post & -> & Hpre & Hpost & Hw).
    destruct (spells_true_bare word Hw) as [Hf Hb].
    rewrite py_strip_padded by assumption. exact Hw.
Qed.

(** ** Reading the configuration *)

(** X1. [get_env_int] falls back on the default when the variable is not
    set, when its value is empty or white space only ([int] is then not
    consulted), and when [int] rejects the value; otherwise it is what [int]
    makes of the value. *)
Theorem get_env_int_fallback (py_int : string -> option Z)
  (environ : string -> option string) (name : string) (default : Z) :
  (environ name = None -> get_env_int py_int environ name default = default)
  /\ (forall v, environ name = Some v -> blank v = true ->
        get_env_int py_int environ name default = default)
  /\ (forall v, environ name = Some v -> py_int v = None ->
        get_env_int py_int environ name default = default)
  /\ (forall v n, environ name = Some v -> blank v = false ->
        py_int v = Some n ->
        get_env_int py_int environ name default = n).
Proof.
  unfold get_env_int, environ_get. repeat split.
  - intros ->. reflexivity.
  - intros v -> Hb. apply py_strip_empty in Hb. rewrite Hb. reflexivity.
  - intros v -> ->. destruct (negb _); reflexivity.
  - intros v n -> Hb ->.
    destruct (String.eqb_spec (py_strip v) "") as [He|_]; [|reflexivity].
    apply py_strip_empty in He. congruence.
Qed.

(** ** The backend controller and the idle monitor *)

Section Controller.
Context {W : Type}.
Variable respond : forall X : Type, ExtOp X -> W -> X * W.
Variable hz : Z.
Variable cfg : Config.

(** X2. [is_container_running] looks at what [docker inspect] printed
    and at nothing else.  It returns true exactly when the output is the
    word true, each letter in upper or lower case, with nothing but white
    space (Unicode white space included) before and after it; the exit code
    is not consulted, and an exception of the command gives false. *)
Theorem is_container_running_reads_stdout (s : State W) :
  (forall c w,
     respond _ (docker_inspect cfg) (world s) = (Ok c, w) ->
     exists running : bool,
       run respond (is_container_running cfg) s
       = (Ret running, logged s (docker_inspect cfg) (Ok c) w)
       /\ (running = true <->
           exists pre word post,
             stdout c = (pre ++ word ++ post)%string
             /\ blank pre = true /\ blank post = true
             /\ spells_true word))
  /\ (forall e w,
        respond _ (docker_inspect cfg) (world s) = (Err e, w) ->
        is_Exception e = true ->
        run respond (is_container_running cfg) s
        = (Ret false, logged s (docker_inspect cfg) (Err e) w)).
Proof.
  split.
  - intros c w E.
    exists (String.eqb (py_lower (py_strip (stdout c))) "true").
    rewrite (run_is_container_running respond cfg s (Ok c) w E I).
    split; [reflexivity|apply strip_lower_true_iff].
  - intros e w E He.
    rewrite (run_is_container_running respond cfg s (Err e) w E He). reflexivity.
Qed.

Lemma run_stop_container_any (s : State W) r w :
  respond _ (docker_stop cfg) (world s) = (r, w) ->
  exists p s',
    run respond (stop_container cfg) s = (p, s')
    /\ trace s' = trace s ++ [Ev (docker_stop cfg) r]
    /\ world s' = w
    /\ match p with Act _ _ | Pending => False | _ => True end.
Proof.
  intros E; unfold stop_container.
  rewrite run_try_except, run_bind, (run_call respond _ s r w E).
  destruct r as [c|e]; simpl.
  - destruct (returncode c =? 0); simpl; eauto 10.
  - destruct (is_Exception e); simpl; eauto 10.
Qed.

(** A turn of the monitor that is due. *)
Lemma run_idle_monitor_turn_due (s : State W) u w1 t w2 r w3 :
  respond _ (AsyncioSleep (CHECK_INTERVAL cfg)) (world s) = (Ok u, w1) ->
  _starting (mgr s) = false ->
  _healthy (mgr s) = true ->
  respond _ TimeMonotonic w1 = (t, w2) ->
  IDLE_TIMEOUT cfg * hz <= t - last_activity_time (mgr s) ->
  respond _ (docker_stop cfg) w2 = (r, w3) ->
  ordinary r ->
  run respond (idle_monitor_turn hz cfg) s
  = (Ret tt,
     mkState (if exit_zero r then set_healthy false (mgr s) else mgr s) w3
       (trace s ++ [Ev (AsyncioSleep (CHECK_INTERVAL cfg)) (Ok u);
                    Ev TimeMonotonic t; Ev (docker_stop cfg) r])).
Proof.
  intros E1 Hs Hh E2 Hidle E3 Or.
  rewrite run_idle_monitor_turn, E1. cbn zeta. rewrite Hs, Hh. cbn [negb].
  rewrite E2. cbn zeta.
  replace (IDLE_TIMEOUT cfg * hz - (t - last_activity_time (mgr s)) <=? 0)
    with true by (symmetry; apply Z.leb_le; lia).
  rewrite run_bind.
  rewrite (run_stop_container respond cfg _ r w3) by exact E3 || exact Or.
  destruct (exit_zero r); unfold with_mgr, logged; simpl;
    rewrite <- !app_assoc; reflexivity.
Qed.

(** X3. A stop that fails is tried again: when the stop command of a due
    turn fails, the manager is left as it was, and the next turn, the clock
    not having gone back, issues the stop command again. *)
Theorem failed_stop_is_retried (s : State W) u w1 t w2 r w3 u' w4 t' w5 r' w6 :
  respond _ (AsyncioSleep (CHECK_INTERVAL cfg)) (world s) = (Ok u, w1) ->
  _starting (mgr s) = false ->
  _healthy (mgr s) = true ->
  respond _ TimeMonotonic w1 = (t, w2) ->
  IDLE_TIMEOUT cfg * hz <= t - last_activity_time (mgr s) ->
  respond _ (docker_stop cfg) w2 = (r, w3) ->
  ordinary r ->
  exit_zero r = false ->
  respond _ (AsyncioSleep (CHECK_INTERVAL cfg)) w3 = (Ok u', w4) ->
  respond _ TimeMonotonic w4 = (t', w5) ->
  t <= t' ->
  respond _ (docker_stop cfg) w5 = (r', w6) ->
  ordinary r' ->
  mgr (snd (run respond (idle_monitor_turn hz cfg) s)) = mgr s
  /\ run respond (do idle_monitor_turn hz cfg then idle_monitor_turn hz cfg) s
     = (Ret tt,
        mkState (if exit_zero r' then set_healthy false (mgr s) else mgr s) w6
          (trace s ++ [Ev (AsyncioSleep (CHECK_INTERVAL cfg)) (Ok u);
                       Ev TimeMonotonic t; Ev (docker_stop cfg) r;
                       Ev (AsyncioSleep (CHECK_INTERVAL cfg)) (Ok u');
                       Ev TimeMonotonic t'; Ev (docker_stop cfg) r'])).
Proof.
  intros E1 Hs Hh E2 Hidle E3 Or Hfail E4 E5 Hle E6 Or'.
  pose proof (run_idle_monitor_turn_due s u w1 t w2 r w3 E1 Hs Hh E2 Hidle E3 Or)
    as H1.
  rewrite Hfail in H1. split; [rewrite H1; reflexivity|].
  rewrite run_bind, H1.
  rewrite (run_idle_monitor_turn_due _ u' w4 t' w5 r' w6);
    try assumption; [|simpl; lia].
  simpl. rewrite <- app_assoc. reflexivity.
Qed.

(** X4. The monitor stops the backend only when it is due: in any turn,
    whatever the outside world does, at most one stop command is issued,
    and one is issued only if the sleep was not cancelled, no startup was in
    progress, the backend was cached as healthy and the clock reading taken
    in the turn was at least the idle timeout after the last activity. *)
Theorem idle_monitor_stop_only_when_due (s : State W) :
  exists tr,
    trace (snd (run respond (idle_monitor_turn hz cfg) s)) = trace s ++ tr
    /\ (count_events (ev_is_docker "stop") tr <= 1)%nat
    /\ (count_events (ev_is_docker "stop") tr = 1%nat ->
        _starting (mgr s) = false
        /\ _healthy (mgr s) = true
        /\ exists u w1 t w2,
             respond _ (AsyncioSleep (CHECK_INTERVAL cfg)) (world s) = (Ok u, w1)
             /\ respond _ TimeMonotonic w1 = (t, w2)
             /\ IDLE_TIMEOUT cfg * hz <= t - last_activity_time (mgr s)).
Proof.
  rewrite run_idle_monitor_turn.
  destruct (respond _ (AsyncioSleep (CHECK_INTERVAL cfg)) (world s))
    as [[u|e] w1] eqn:E1; cbn zeta.
  2: { exists [Ev (AsyncioSleep (CHECK_INTERVAL cfg)) (Err e)].
       simpl. repeat split; try lia; discriminate. }
  destruct (_starting (mgr s)) eqn:Hs.
  { exists [Ev (AsyncioSleep (CHECK_INTERVAL cfg)) (Ok u)].
    simpl. repeat split; try lia; discriminate. }
  destruct (_healthy (mgr s)) eqn:Hh; cbn [negb].
  2: { exists [Ev (AsyncioSleep (CHECK_INTERVAL cfg)) (Ok u)].
       simpl. repeat split; try lia; discriminate. }
  destruct (respond _ TimeMonotonic w1) as [t w2] eqn:E2. cbn zeta.
  destruct (Z.leb_spec (IDLE_TIMEOUT cfg * hz - (t - last_activity_time (mgr s))) 0)
    as [Hdue|Hnot].
  2: { exists [Ev (AsyncioSleep (CHECK_INTERVAL cfg)) (Ok u); Ev TimeMonotonic t].
       unfold logged; simpl. rewrite <- app_assoc.
       repeat split; try lia; discriminate. }
  rewrite run_bind.
  destruct (respond _ (docker_stop cfg) w2) as [r w3] eqn:E3.
  match goal with
  | |- context [run respond (stop_container cfg) ?s2] =>
      destruct (run_stop_container_any s2 r w3 E3) as (p & s3 & Hrun & Htr & _ & Hp)
  end.
  rewrite Hrun.
  exists [Ev (AsyncioSleep (CHECK_INTERVAL cfg)) (Ok u); Ev TimeMonotonic t;
          Ev (docker_stop cfg) r].
  assert (Htrace : trace s3
                   = trace s ++ [Ev (AsyncioSleep (CHECK_INTERVAL cfg)) (Ok u);
                                 Ev TimeMonotonic t; Ev (docker_stop cfg) r]).
  { rewrite Htr. unfold logged; simpl. rewrite <- !app_assoc. reflexivity. }
  split; [destruct p; try destruct Hp; simpl; exact Htrace|].
  split; [simpl; lia|].
  intros _. split; [reflexivity|]. split; [reflexivity|].
  exists u, w1, t, w2.
  split; [first [reflexivity|exact E1]|].
  split; [first [reflexivity|exact E2]|lia].
Qed.

Lemma idle_monitor_shape (turns : nat) :
  Always (calls_only (op_monitor cfg)) (idle_monitor hz cfg turns).
Proof.
  induction turns as [|turns IH]; cbn [idle_monitor]; [constructor|].
  apply Always_bind; [|intros _; exact IH].
  unfold idle_monitor_turn, is_starting, get_idle_seconds, stop_container,
    monotonic.
  apply Always_bind; [apply Always_call; reflexivity|intros _].
  apply Always_bind; [shape|intros starting].
  destruct starting; [constructor|].
  apply Always_bind; [shape|intros healthy].
  destruct (negb healthy); [constructor|].
  apply Always_bind; [shape|intros idle].
  destruct (_ <=? 0); [|constructor].
  apply Always_bind; [|shape].
  apply Always_try_except; [|shape].
  apply Always_bind; [apply Always_call; simpl; auto|intros c].
  destruct (returncode c =? 0); shape.
Qed.

(** X5. The monitor never starts the container and never contacts the
    backend: over any number of turns its external calls are sleeps of the
    check interval, clock readings and [docker stop], and it leaves the
    lock, the startup flag and the time of the last activity alone. *)
Theorem idle_monitor_only_sleeps_reads_and_stops (turns : nat) (s : State W) :
  let s' := snd (run respond (idle_monitor hz cfg turns) s) in
  (exists tr,
     trace s' = trace s ++ tr
     /\ Forall (ev_ok (op_monitor cfg)) tr
     /\ count_events (ev_is_docker "start") tr = O
     /\ count_events ev_is_send tr = O)
  /\ _lock (mgr s') = _lock (mgr s)
  /\ _starting (mgr s') = _starting (mgr s)
  /\ last_activity_time (mgr s') = last_activity_time (mgr s).
Proof.
  intros s'. subst s'. split.
  - destruct (run_trace respond (op_monitor cfg) (idle_monitor hz cfg turns) s
                (idle_monitor_shape turns)) as (tr & Htr & Hok).
    exists tr. split; [exact Htr|]. split; [exact Hok|].
    split; apply count_events_none; (eapply Forall_impl; [exact Hok|]);
      intros [X e a]; destruct e; simpl; try tauto.
    intros [-> _]. reflexivity.
  - revert s; induction turns as [|turns IH]; intros s; [simpl; auto|].
    cbn [idle_monitor]. rewrite run_bind.
    assert (Hturn :
      let s1 := snd (run respond (idle_monitor_turn hz cfg) s) in
      _lock (mgr s1) = _lock (mgr s)
      /\ _starting (mgr s1) = _starting (mgr s)
      /\ last_activity_time (mgr s1) = last_activity_time (mgr s)).
    { rewrite run_idle_monitor_turn.
      destruct (respond _ (AsyncioSleep (CHECK_INTERVAL cfg)) (world s))
        as [[u|e] w1]; cbn zeta; [|simpl; auto].
      destruct (_starting (mgr s)) eqn:Hs; [simpl; auto|].
      destruct (negb (_healthy (mgr s))); [simpl; auto|].
      destruct (respond _ TimeMonotonic w1) as [t w2]. cbn zeta.
      match goal with
      | |- context [if ?b then _ else _] => destruct b
      end; [|simpl; auto].
      rewrite run_bind. unfold stop_container.
      rewrite run_try_except, run_bind.
      destruct (respond _ (docker_stop cfg) w2) as [r w3] eqn:E3.
      match goal with
      | |- context [run respond (call (docker_stop cfg)) ?s2] =>
          rewrite (run_call respond (docker_stop cfg) s2 r w3 E3)
      end.
      destruct r as [c|e]; simpl.
      - destruct (returncode c =? 0); simpl; auto.
      - destruct (is_Exception e); simpl; auto. }
    cbn zeta in Hturn.
    destruct (run respond (idle_monitor_turn hz cfg) s) as [[[]|e| |X op k] s1];
      cbn [fst snd] in *; try exact Hturn.
    destruct Hturn as (<- & <- & <-). apply IH.
Qed.
End Controller.

(** ** What a request can and cannot do *)

Section Requests.
Context {W : Type}.
Variable respond : forall X : Type, ExtOp X -> W -> X * W.
Variable hz : Z.
Variable cfg : Config.

Lemma Budget_mono {A : Type} cls (n m : nat) (p : Prog A) :
  (n <= m)%nat -> Budget cls n p -> Budget cls m p.
Proof.
  intros Hle H; revert m Hle.
  induction H as [n a|n e|n|n X op k Hop _ IH|n X op k _ IH]; intros m Hle.
  - constructor.
  - constructor.
  - constructor.
  - apply Budget_free; auto.
  - destruct m as [|m]; [lia|]. apply Budget_pay. intros x. apply IH. lia.
Qed.

Lemma Budget_bind {A B : Type} cls (n1 n2 : nat) (p : Prog A) (f : A -> Prog B) :
  Budget cls n1 p -> (forall a, Budget cls n2 (f a)) ->
  Budget cls (n1 + n2) (bind p f).
Proof.
  intros H Hf.
  induction H as [n a|n e|n|n X op k Hop _ IH|n X op k _ IH]; simpl.
  - eapply Budget_mono; [|apply Hf]. lia.
  - constructor.
  - constructor.
  - apply Budget_free; auto.
  - apply Budget_pay. exact IH.
Qed.

Lemma Budget_try_except {A : Type} cls (n1 n2 : nat) (p : Prog A) h :
  Budget cls n1 p -> (forall e, Budget cls n2 (h e)) ->
  Budget cls (n1 + n2) (try_except p h).
Proof.
  intros H Hh.
  induction H as [n a|n e|n|n X op k Hop _ IH|n X op k _ IH]; simpl.
  - constructor.
  - destruct (is_Exception e); [|constructor].
    eapply Budget_mono; [|apply Hh]. lia.
  - constructor.
  - apply Budget_free; auto.
  - apply Budget_pay. exact IH.
Qed.

Lemma Budget_try_finally {A : Type} cls (n1 n2 : nat) (p : Prog A) q :
  Budget cls n1 p -> Budget cls n2 q -> Budget cls (n1 + n2) (try_finally p q).
Proof.
  intros H Hq.
  induction H as [n a|n e|n|n X op k Hop _ IH|n X op k _ IH]; simpl.
  - eapply Budget_mono;
      [|apply (Budget_bind cls n2 0 q); [exact Hq|intros; constructor]].
    lia.
  - eapply Budget_mono;
      [|apply (Budget_bind cls n2 0 q); [exact Hq|intros; constructor]].
    lia.
  - constructor.
  - apply Budget_free; auto.
  - apply Budget_pay. exact IH.
Qed.

(** A program none of whose operations is counted. *)
Lemma Budget_zero {A : Type} cls (p : Prog A) :
  Always (uncounted cls) p -> Budget cls 0 p.
Proof.
  induction 1; [constructor|constructor|constructor|apply Budget_free; auto].
Qed.

Lemma run_budget {A : Type} cls (n : nat) (p : Prog A) (s : State W) :
  Budget cls n p ->
  exists tr, trace (snd (run respond p s)) = trace s ++ tr
             /\ (count_events cls tr <= n)%nat.
Proof.
  intros H; revert s.
  induction H as [n a|n e|n|n X op k Hop _ IH|n X op k _ IH]; intros s; simpl;
    try (exists []; rewrite app_nil_r; split; [reflexivity|simpl; lia]).
  - destruct (enabled op s);
      [|exists []; rewrite app_nil_r; split; [reflexivity|simpl; lia]].
    destruct (exec respond op s) as [x s'] eqn:E.
    destruct (IH x s') as (tr & -> & Htr).
    destruct op as [ |t| |b| |b| | |Y e]; simpl in E;
      try (inversion E; subst; exists tr; split; [reflexivity|exact Htr]).
    destruct (respond Y e (world s)) as [y w].
    inversion E; subst; unfold logged; simpl.
    exists (Ev e x :: tr). rewrite <- app_assoc. split; [reflexivity|].
    simpl. rewrite (Hop x). exact Htr.
  - destruct (enabled op s);
      [|exists []; rewrite app_nil_r; split; [reflexivity|simpl; lia]].
    destruct (exec respond op s) as [x s'] eqn:E.
    destruct (IH x s') as (tr & -> & Htr).
    destruct op as [ |t| |b| |b| | |Y e]; simpl in E;
      try (inversion E; subst; exists tr; split; [reflexivity|lia]).
    destruct (respond Y e (world s)) as [y w].
    inversion E; subst; unfold logged; simpl.
    exists (Ev e x :: tr). rewrite <- app_assoc. split; [reflexivity|].
    simpl. destruct (cls (Ev e x)); lia.
Qed.

Section Counting.
Variable cls : Event -> bool.
Hypothesis cls_clock : forall a, cls (Ev TimeMonotonic a) = false.
Hypothesis cls_probe : forall a, cls (Ev (ClientGet (health_url cfg) 5) a) = false.
Hypothesis cls_inspect : forall a, cls (Ev (docker_inspect cfg) a) = false.
Hypothesis cls_sleep : forall d a, cls (Ev (AsyncioSleep d) a) = false.
Hypothesis cls_read : forall a, cls (Ev ResponseARead a) = false.
Hypothesis cls_close : forall a, cls (Ev ResponseAClose a) = false.

(** [ensure_server_ready] makes one call at most that [cls] counts, and
    it can only be the start command. *)
Lemma ensure_server_ready_budget (fuel : nat) :
  Budget cls 1 (ensure_server_ready hz cfg fuel).
Proof.
  assert (Hw : Budget cls 0 (wait_for_health hz cfg fuel)).
  { apply Budget_zero, wait_for_health_shape; intros; simpl; auto. }
  unfold ensure_server_ready, with_lock.
  apply Budget_free; [exact I|intros _].
  apply (Budget_try_finally cls 1 0); [|apply Budget_zero; shape].
  unfold ensure_body.
  apply (Budget_bind cls 0 1); [apply Budget_zero; shape|intros healthy].
  apply (Budget_bind cls 0 1).
  { destruct healthy; [|constructor].
    apply Budget_zero, check_health_shape; simpl; auto. }
  intros [|]; [constructor|]. unfold slow_path.
  apply (Budget_bind cls 0 1); [apply Budget_zero; shape|intros _].
  apply (Budget_bind cls 0 1); [apply Budget_zero; shape|intros _].
  apply (Budget_try_finally cls 1 0); [|apply Budget_zero; shape].
  apply (Budget_bind cls 0 1).
  { apply Budget_zero. unfold is_container_running. shape. }
  intros [|]; cbn [negb]; [eapply Budget_mono; [|exact Hw]; lia|].
  apply (Budget_bind cls 1 0).
  - unfold start_container.
    apply (Budget_try_except cls 1 0); [|intros; constructor].
    apply (Budget_bind cls 1 0).
    + unfold call. apply Budget_pay. intros [c|e]; constructor.
    + intros c. destruct (returncode c =? 0); constructor.
  - intros [|]; cbn [negb]; [exact Hw|constructor].
Qed.

(** The forwarding makes one such call at most, and it can only be the
    send. *)
Lemma relay_budget (rq : BackendRequest) :
  Budget cls 1 (try_except (relay rq) relay_failed).
Proof.
  apply (Budget_try_except cls 1 0).
  - unfold relay. apply (Budget_bind cls 1 0).
    + unfold call. apply Budget_pay. intros [c|e]; constructor.
    + intros response. destruct (_ || _); [constructor|].
      apply Budget_zero.
      apply Always_bind; [apply Always_call; exact cls_read|intros content].
      apply Always_bind; [apply Always_call; exact cls_close|intros _].
      constructor.
  - intros e. unfold relay_failed. apply Budget_zero.
    destruct (is_TimeoutException e); [constructor|].
    apply Always_bind; [apply Always_perform; exact I|intros _; constructor].
Qed.
End Counting.

(** X6. Whatever the outside world does, one request issues no stop
    command, at most one start command, and sends at most one request to
    the backend: the handler never stops the container, never starts it
    twice and never forwards twice. *)
Theorem request_calls_are_bounded (fuel : nat) (request : Request)
  (path : string) (s : State W) :
  exists tr,
    trace (snd (run respond (proxy hz cfg fuel request path) s)) = trace s ++ tr
    /\ count_events (ev_is_docker "stop") tr = O
    /\ (count_events (ev_is_docker "start") tr <= 1)%nat
    /\ (count_events ev_is_send tr <= 1)%nat.
Proof.
  assert (Hrec : forall cls, (forall a, cls (Ev TimeMonotonic a) = false) ->
            Budget cls 0 record_activity).
  { intros cls H. apply Budget_zero, record_activity_shape; simpl; auto. }
  assert (Hstop : Budget (ev_is_docker "stop") 0 (proxy hz cfg fuel request path)).
  { apply Budget_zero. unfold proxy.
    apply Always_bind; [apply record_activity_shape; simpl; auto|intros _].
    apply Always_bind.
    { unfold ensure_server_ready, with_lock. constructor; [exact I|intros _].
      apply Always_try_finally; [|shape].
      apply ensure_body_shape; intros; simpl; auto. }
    intros ready. destruct (negb ready); [constructor|].
    apply Always_try_except.
    - apply relay_shape; simpl; auto.
    - intros e. unfold relay_failed. shape. }
  assert (Hstart : Budget (ev_is_docker "start") 1 (proxy hz cfg fuel request path)).
  { unfold proxy. apply (Budget_bind _ 0 1); [apply Hrec; reflexivity|intros _].
    apply (Budget_bind _ 1 0).
    - apply ensure_server_ready_budget; intros; reflexivity.
    - intros ready. destruct (negb ready); [constructor|].
      apply Budget_zero, Always_try_except.
      + apply relay_shape; simpl; auto.
      + intros e. unfold relay_failed. shape. }
  assert (Hsend : Budget ev_is_send 1 (proxy hz cfg fuel request path)).
  { unfold proxy. apply (Budget_bind _ 0 1); [apply Hrec; reflexivity|intros _].
    apply (Budget_bind _ 0 1).
    - apply Budget_zero.
      unfold ensure_server_ready, with_lock. constructor; [exact I|intros _].
      apply Always_try_finally; [|shape].
      apply ensure_body_shape; intros; simpl; auto.
    - intros ready. destruct (negb ready); [constructor|].
      apply relay_budget; intros; reflexivity. }
  destruct (run_budget _ _ _ s Hstop) as (tr & Htr & H0).
  destruct (run_budget _ _ _ s Hstart) as (tr1 & Htr1 & H1).
  destruct (run_budget _ _ _ s Hsend) as (tr2 & Htr2 & H2).
  rewrite Htr in Htr1, Htr2.
  apply app_inv_head in Htr1, Htr2. subst tr1 tr2.
  exists tr. split; [exact Htr|]. split; [lia|]. split; assumption.
Qed.
End Requests.

(** ** Forwarding only to a backend found healthy *)

Section Soundness.
Context {W : Type}.
Variable respond : forall X : Type, ExtOp X -> W -> X * W.
Variable hz : Z.
Variable cfg : Config.

Lemma saw_later (old mid new : list Event) tr :
  mid = old ++ tr -> saw_healthy_probe cfg mid new ->
  saw_healthy_probe cfg old new.
Proof.
  intros -> (pre & post & ->). exists (tr ++ pre), post.
  rewrite <- !app_assoc. reflexivity.
Qed.

Lemma saw_earlier (old mid new : list Event) tr :
  saw_healthy_probe cfg old mid -> new = mid ++ tr ->
  saw_healthy_probe cfg old new.
Proof.
  intros (pre & post & ->) ->. exists pre, (post ++ tr).
  rewrite <- !app_assoc. reflexivity.
Qed.

Lemma probe_verdict_true (r : result Z) :
  probe_verdict r = Ok true -> r = Ok 200.
Proof.
  destruct r as [status|e]; simpl.
  - intros [= H]. apply Z.eqb_eq in H. congruence.
  - destruct (is_Exception e); discriminate.
Qed.

Lemma poll_outcome (fuel : nat) (start count : Z) (s : State W) (b : bool) :
  fst (run respond (poll hz cfg fuel start count) s) = Ret b ->
  let s' := snd (run respond (poll hz cfg fuel start count) s) in
  if b then _healthy (mgr s') = true /\ saw_healthy_probe cfg (trace s) (trace s')
  else mgr s' = mgr s.
Proof.
  revert count s; induction fuel as [|fuel IH]; intros count s;
    [simpl; discriminate|].
  rewrite run_poll_S.
  destruct (respond _ TimeMonotonic (world s)) as [t1 w1]. cbn zeta.
  destruct (_ <? _); [|intros [= <-]; reflexivity].
  destruct (respond _ (ClientGet (health_url cfg) 5) w1) as [r w2].
  destruct (probe_verdict r) as [[|]|e] eqn:Hv; [| |discriminate].
  - apply probe_verdict_true in Hv. subst r.
    destruct (respond _ TimeMonotonic w2) as [t2 w3].
    destruct (respond _ TimeMonotonic w3) as [t3 w4].
    intros [= <-]. split; [reflexivity|].
    exists [Ev TimeMonotonic t1], [Ev TimeMonotonic t2; Ev TimeMonotonic t3].
    unfold logged, with_mgr; simpl. rewrite <- !app_assoc. reflexivity.
  - destruct (respond _ TimeMonotonic w2) as [t2 w3]. cbn zeta.
    destruct (respond _ (AsyncioSleep _) w3) as [[u|e] w4]; [|discriminate].
    intros Hb. specialize (IH _ _ Hb). cbn zeta in IH.
    destruct b; [|rewrite IH; reflexivity].
    destruct IH as [Hh Hsaw]. split; [exact Hh|].
    eapply saw_later; [|exact Hsaw].
    unfold logged; simpl. rewrite <- !app_assoc. reflexivity.
Qed.

Lemma wait_for_health_outcome (fuel : nat) (s : State W) (b : bool) :
  fst (run respond (wait_for_health hz cfg fuel) s) = Ret b ->
  let s' := snd (run respond (wait_for_health hz cfg fuel) s) in
  if b then _healthy (mgr s') = true /\ saw_healthy_probe cfg (trace s) (trace s')
  else mgr s' = mgr s.
Proof.
  unfold wait_for_health. rewrite run_bind.
  destruct (respond _ TimeMonotonic (world s)) as [t0 w0] eqn:E0.
  rewrite (run_monotonic respond s t0 w0 E0).
  intros Hb. pose proof (poll_outcome _ _ _ _ _ Hb) as H. cbn zeta in *.
  destruct b; [|rewrite H; reflexivity].
  destruct H as [Hh Hsaw]. split; [exact Hh|].
  eapply saw_later; [|exact Hsaw]. reflexivity.
Qed.

Lemma slow_path_outcome (fuel : nat) (s : State W) (b : bool) :
  fst (run respond (slow_path hz cfg fuel) s) = Ret b ->
  let s' := snd (run respond (slow_path hz cfg fuel) s) in
  _healthy (mgr s') = b
  /\ (b = true -> saw_healthy_probe cfg (trace s) (trace s')).
Proof.
  rewrite run_slow_path, run_try_finally.
  set (s0 := with_mgr (set_starting true) (with_mgr (set_healthy false) s)).
  assert (Hbody : forall a,
    fst (run respond
           (let* running := is_container_running cfg in
            if negb running then
              let* started := start_container cfg in
              if negb started then Ret false else wait_for_health hz cfg fuel
            else wait_for_health hz cfg fuel) s0) = Ret a ->
    let s1 := snd (run respond
           (let* running := is_container_running cfg in
            if negb running then
              let* started := start_container cfg in
              if negb started then Ret false else wait_for_health hz cfg fuel
            else wait_for_health hz cfg fuel) s0) in
    _healthy (mgr s1) = a
    /\ (a = true -> saw_healthy_probe cfg (trace s) (trace s1))).
  { intros a. rewrite run_bind. unfold is_container_running.
    rewrite run_try_except, run_bind.
    destruct (respond _ (docker_inspect cfg) (world s0)) as [r1 w1] eqn:E1.
    rewrite (run_call respond (docker_inspect cfg) s0 r1 w1 E1).
    set (s2 := logged s0 (docker_inspect cfg) r1 w1).
    assert (Hwait : forall s3 tr, mgr s3 = mgr s0 -> trace s3 = trace s ++ tr ->
      fst (run respond (wait_for_health hz cfg fuel) s3) = Ret a ->
      _healthy (mgr (snd (run respond (wait_for_health hz cfg fuel) s3))) = a
      /\ (a = true ->
          saw_healthy_probe cfg (trace s)
            (trace (snd (run respond (wait_for_health hz cfg fuel) s3))))).
    { intros s3 tr Hm Ht Ha.
      pose proof (wait_for_health_outcome fuel s3 a Ha) as H. cbn zeta in H.
      destruct a.
      - destruct H as [Hh Hsaw]. split; [exact Hh|]. intros _.
        eapply saw_later; [exact Ht|exact Hsaw].
      - rewrite H, Hm. split; [reflexivity|discriminate]. }
    assert (Hgo : forall running : bool,
      fst (run respond
             (if negb running then
                let* started := start_container cfg in
                if negb started then Ret false else wait_for_health hz cfg fuel
              else wait_for_health hz cfg fuel) s2) = Ret a ->
      _healthy (mgr (snd (run respond
             (if negb running then
                let* started := start_container cfg in
                if negb started then Ret false else wait_for_health hz cfg fuel
              else wait_for_health hz cfg fuel) s2))) = a
      /\ (a = true -> saw_healthy_probe cfg (trace s) (trace (snd (run respond
             (if negb running then
                let* started := start_container cfg in
                if negb started then Ret false else wait_for_health hz cfg fuel
              else wait_for_health hz cfg fuel) s2))))).
    { intros [|]; cbn [negb].
      - apply (Hwait s2 [Ev (docker_inspect cfg) r1]); reflexivity.
      - rewrite run_bind.
        destruct (respond _ (docker_start cfg) (world s2)) as [r2 w2] eqn:E2.
        rewrite (run_start_container_any respond cfg s2 r2 w2 E2).
        assert (Hret : forall started : bool,
          fst (run respond
                 (if negb started then Ret false else wait_for_health hz cfg fuel)
                 (logged s2 (docker_start cfg) r2 w2)) = Ret a ->
          _healthy (mgr (snd (run respond
                 (if negb started then Ret false else wait_for_health hz cfg fuel)
                 (logged s2 (docker_start cfg) r2 w2)))) = a
          /\ (a = true -> saw_healthy_probe cfg (trace s) (trace (snd (run respond
                 (if negb started then Ret false else wait_for_health hz cfg fuel)
                 (logged s2 (docker_start cfg) r2 w2)))))).
        { intros [|]; cbn [negb].
          - apply (Hwait _ [Ev (docker_inspect cfg) r1; Ev (docker_start cfg) r2]);
              [reflexivity|].
            unfold logged; simpl. rewrite <- app_assoc. reflexivity.
          - simpl. intros [= <-]. split; [reflexivity|discriminate]. }
        destruct r2 as [c|e]; [apply Hret|].
        destruct (is_Exception e); [apply Hret|discriminate]. }
    destruct r1 as [c|e]; simpl; [apply Hgo|].
    destruct (is_Exception e); [apply Hgo|discriminate]. }
  destruct (run respond _ s0) as [[a|e| |X op k] s1]; simpl; try discriminate.
  intros [= <-]. destruct (Hbody a eq_refl) as [Hh Hsaw].
  split; [exact Hh|]. intros Ha. destruct (Hsaw Ha) as (pre & post & Ht).
  exists pre, post. exact Ht.
Qed.

Lemma ensure_outcome (fuel : nat) (s : State W) (b : bool) :
  _lock (mgr s) = false ->
  fst (run respond (ensure_server_ready hz cfg fuel) s) = Ret b ->
  let s' := snd (run respond (ensure_server_ready hz cfg fuel) s) in
  _healthy (mgr s') = b
  /\ (b = true -> saw_healthy_probe cfg (trace s) (trace s')).
Proof.
  intros Hl. unfold ensure_server_ready. rewrite run_with_lock by exact Hl.
  rewrite run_try_finally, run_ensure_body.
  set (s0 := with_mgr (set_lock true) s).
  assert (Hslow : forall s1 tr, trace s1 = trace s ++ tr ->
    fst (let '(p, s2) := run respond (slow_path hz cfg fuel) s1 in
         match p with
         | Ret a => run respond (do perform Release then Ret a) s2
         | Raise e => run respond (do perform Release then Raise e) s2
         | Pending => (Pending, s2)
         | Act op k => (try_finally (Act op k) (perform Release), s2)
         end) = Ret b ->
    _healthy (mgr (snd (let '(p, s2) := run respond (slow_path hz cfg fuel) s1 in
         match p with
         | Ret a => run respond (do perform Release then Ret a) s2
         | Raise e => run respond (do perform Release then Raise e) s2
         | Pending => (Pending, s2)
         | Act op k => (try_finally (Act op k) (perform Release), s2)
         end))) = b
    /\ (b = true -> saw_healthy_probe cfg (trace s)
         (trace (snd (let '(p, s2) := run respond (slow_path hz cfg fuel) s1 in
         match p with
         | Ret a => run respond (do perform Release then Ret a) s2
         | Raise e => run respond (do perform Release then Raise e) s2
         | Pending => (Pending, s2)
         | Act op k => (try_finally (Act op k) (perform Release), s2)
         end))))).
  { intros s1 tr Ht.
    pose proof (slow_path_outcome fuel s1) as H.
    destruct (run respond (slow_path hz cfg fuel) s1) as [[a|e| |X op k] s2];
      simpl; try discriminate.
    intros [= <-]. destruct (H a eq_refl) as [Hh Hsaw].
    split; [exact Hh|]. intros Ha. eapply saw_later; [exact Ht|apply Hsaw, Ha]. }
  destruct (_healthy (mgr s0)) eqn:Hh.
  2: { apply (Hslow s0 []). simpl. rewrite app_nil_r. reflexivity. }
  destruct (respond _ (ClientGet (health_url cfg) 5) (world s0)) as [r w1] eqn:E.
  cbn zeta. destruct r as [status|e].
  - destruct (Z.eqb_spec status 200) as [->|Hne].
    + simpl. intros [= <-]. split; [exact Hh|]. intros _.
      exists [], []. reflexivity.
    + apply (Hslow _ [Ev (ClientGet (health_url cfg) 5) (Ok status)]). reflexivity.
  - destruct (is_Exception e).
    + apply (Hslow _ [Ev (ClientGet (health_url cfg) 5) (Err e)]). reflexivity.
    + simpl. discriminate.
Qed.

Local Abbreviation Earns :=
  (Follows (fun _ _ _ => True) (fun _ _ _ _ => True) (seen_next cfg)).

Lemma healthy_probe_event {X : Type} (e : ExtOp X) (x : X) :
  ev_is_healthy_probe cfg (Ev e x) = true ->
  Ev e x = Ev (ClientGet (health_url cfg) 5) (Ok 200).
Proof.
  destruct e; simpl; try discriminate.
  intros [[Hu Ht]%andb_prop Hs]%andb_prop.
  apply String.eqb_eq in Hu. apply Z.eqb_eq in Ht. subst.
  destruct x as [status|e]; simpl in Hs; [|discriminate].
  apply Z.eqb_eq in Hs. subst. reflexivity.
Qed.

Lemma earned_kept {A : Type} (p : Prog A) :
  Earns (fun seen _ => seen = true) (fun _ _ => True) true p.
Proof.
  induction p as [a|e| |X op k IH]; simpl; auto.
  split; [exact I|]. intros x _.
  replace (seen_next cfg true X op x) with true; [apply IH|].
  destruct op; reflexivity.
Qed.

Lemma check_health_earns (seen : bool) :
  Earns (fun seen' ok => ok = true -> seen' = true) (fun _ _ => True)
    seen (check_health cfg).
Proof.
  unfold check_health, call. cbn.
  split; [exact I|]. intros [status|e] _; cbn.
  - rewrite String.eqb_refl. cbn. intros ->. apply orb_true_r.
  - destruct (is_Exception e); cbn; [discriminate|exact I].
Qed.

Lemma poll_earns (fuel : nat) (start count : Z) (seen : bool) :
  earns_true cfg seen (poll hz cfg fuel start count).
Proof.
  unfold earns_true.
  revert count seen; induction fuel as [|fuel IH]; intros count seen;
    cbn [poll]; [exact I|].
  unfold monotonic, perform. cbn [bind Follows seen_next].
  split; [exact I|]. intros t _. cbn [ev_is_healthy_probe].
  rewrite orb_false_r.
  destruct (t - start <? _); [|cbn; discriminate].
  eapply Follows_bind; [apply check_health_earns| |auto].
  intros seen' [|] Hok.
  - rewrite (Hok eq_refl). eapply Follows_mono; [apply earned_kept| |auto].
    intros ? ? -> _. reflexivity.
  - cbn [bind Follows seen_next]. split; [exact I|]. intros t2 _.
    unfold call. cbn [bind Follows seen_next]. split; [exact I|].
    intros [u|e] _; cbn [bind Follows]; [apply IH|exact I].
Qed.

Lemma ensure_server_ready_earns (fuel : nat) (seen : bool) :
  earns_true cfg seen (ensure_server_ready hz cfg fuel).
Proof.
  assert (Hwait : forall seen',
            earns_true cfg seen' (wait_for_health hz cfg fuel)).
  { intros seen'. unfold earns_true, wait_for_health, monotonic, perform.
    cbn [bind Follows seen_next]. split; [exact I|]. intros t _.
    apply poll_earns. }
  unfold earns_true, ensure_server_ready, with_lock.
  cbn [Follows seen_next]. split; [exact I|]. intros u _.
  eapply Follows_try_finally
    with (Q := fun seen' (b : bool) => b = true -> seen' = true)
         (QE := fun _ _ => True).
  2: { intros seen' a Ha. cbn. split; [exact I|]. intros u' _. exact Ha. }
  2: { intros seen' e _. cbn. split; [exact I|]. intros u' _. exact I. }
  unfold ensure_body, perform. cbn [bind Follows seen_next].
  split; [exact I|]. intros healthy _.
  eapply Follows_bind
    with (Q := fun seen' quick => quick = true -> seen' = true)
         (QE := fun _ _ => True); [| |auto].
  { destruct healthy; [apply check_health_earns|cbn; discriminate]. }
  intros seen' [|] Hq; [cbn; exact Hq|].
  unfold slow_path, perform. cbn [bind Follows seen_next].
  split; [exact I|]. intros u1 _. split; [exact I|]. intros u2 _.
  eapply Follows_try_finally
    with (Q := fun seen2 (b : bool) => b = true -> seen2 = true)
         (QE := fun _ _ => True).
  2: { intros seen2 a Ha. cbn. split; [exact I|]. intros u' _. exact Ha. }
  2: { intros seen2 e _. cbn. split; [exact I|]. intros u' _. exact I. }
  unfold is_container_running, start_container, call.
  cbn [bind try_except Follows seen_next].
  split; [exact I|]. intros r1 _.
  assert (Hstart : forall seen2,
    Earns (fun seen3 (b : bool) => b = true -> seen3 = true) (fun _ _ => True)
      seen2
      (let* started :=
         try_except
           (Act (Call (docker_start cfg))
              (fun r => let* result := match r with
                                       | Ok a => Ret a
                                       | Err x => Raise x
                                       end in
                        if returncode result =? 0 then Ret true else Ret false))
           (fun _ => Ret false) in
       if negb started then Ret false else wait_for_health hz cfg fuel)).
  { intros seen2. cbn [bind try_except Follows seen_next].
    split; [exact I|]. intros r2 _.
    destruct r2 as [c|e]; cbn.
    - destruct (returncode c =? 0); cbn; [apply Hwait|discriminate].
    - destruct (is_Exception e); cbn; [discriminate|exact I]. }
  destruct r1 as [c|e]; cbn [bind try_except].
  - destruct (String.eqb _ _); cbn [negb]; [apply Hwait|apply Hstart].
  - destruct (is_Exception e); cbn [bind negb]; [apply Hstart|exact I].
Qed.

(** What a task returns true for holds in every pool it runs in. *)
Lemma earned_in_pool (i : nat) (s0 : State W) (ps0 ps : Pool bool) :
  steps respond ps0 ps ->
  snd ps0 = s0 ->
  (exists t, fst ps0 !! i = Some t /\ earns_true cfg false t) ->
  exists seen t tr,
    fst ps !! i = Some t /\ earns_true cfg seen t
    /\ trace (snd ps) = trace s0 ++ tr
    /\ (seen = true -> saw_healthy_probe cfg (trace s0) (trace (snd ps))).
Proof.
  intros Hsteps Hs0 (t0 & Ht0 & He0).
  induction Hsteps as [ps|ps1 ps2 ps3 _ IH Hstep].
  { exists false, t0, []. rewrite Hs0, app_nil_r.
    split; [exact Ht0|]. split; [exact He0|]. split; [reflexivity|discriminate]. }
  destruct (IH Hs0 Ht0) as (seen & t & tr & Hi & He & Htr & Hsaw). clear IH.
  destruct Hstep as [j Hstep]. unfold step_at in Hstep.
  destruct ps2 as [ts s]. cbn [fst snd] in *.
  destruct (ts !! j) as [p|] eqn:Hj; [|discriminate].
  pose proof (lookup_lt_Some _ _ _ Hj) as Hlen.
  destruct p as [a|e| |X op k]; simpl in Hstep; try discriminate.
  destruct (enabled op s); [|discriminate].
  destruct (exec respond op s) as [x s'] eqn:Hex.
  injection Hstep as <-. cbn [fst snd].
  assert (Hgrow : exists ev, trace s' = trace s ++ ev).
  { destruct op; simpl in Hex; try (injection Hex as <- <-; exists [];
      rewrite app_nil_r; reflexivity).
    destruct (respond X e (world s)) as [y w]. injection Hex as <- <-.
    exists [Ev e y]. reflexivity. }
  destruct (decide (j = i)) as [->|Hne].
  - rewrite Hi in Hj. injection Hj as ->.
    destruct He as [_ Hnext]. specialize (Hnext x I).
    exists (seen_next cfg seen X op x), (k x).
    rewrite list_lookup_insert_eq by exact Hlen.
    destruct op; simpl in Hex;
      try (injection Hex as <- <-; exists tr; cbn [seen_next] in *; auto).
    destruct (respond X e (world s)) as [y w]. injection Hex as <- <-.
    exists (tr ++ [Ev e y]). split; [reflexivity|]. split; [exact Hnext|].
    unfold logged; cbn [trace]. rewrite Htr, <- app_assoc.
    split; [reflexivity|]. cbn [seen_next].
    destruct seen; cbn [orb].
    + intros _. destruct (Hsaw eq_refl) as (pre & post & Hp).
      rewrite Htr in Hp. apply app_inv_head in Hp.
      exists pre, (post ++ [Ev e y]). rewrite Hp, <- !app_assoc. reflexivity.
    + intros Hev. rewrite (healthy_probe_event e y Hev).
      exists tr, []. reflexivity.
  - exists seen, t.
    rewrite list_lookup_insert_ne by congruence.
    destruct Hgrow as (ev & Hev). exists (tr ++ ev).
    split; [exact Hi|]. split; [exact He|].
    rewrite Hev, Htr, <- app_assoc. split; [reflexivity|].
    intros Hseen. destruct (Hsaw Hseen) as (pre & post & Hp).
    rewrite Htr in Hp. apply app_inv_head in Hp.
    exists pre, (post ++ ev). rewrite Hp, <- !app_assoc. reflexivity.
Qed.

(** X7. [ensure_server_ready] returns true only if a health probe was
    answered with status 200 after the call began: this holds in every
    pool the call runs in, whatever the other tasks are and however they
    are interleaved with it.  When the call runs with no other task taking
    a step in between, the cached flag [_healthy] moreover equals the value
    returned when it returns.  (That second part needs the call to run
    undisturbed: the failure branch of a handler writes [_healthy] outside
    the lock.) *)
Theorem ensure_result_is_cached_state (fuel : nat) :
  (forall (ts0 : list (Prog bool)) (i : nat) (s0 : State W)
          (ts : list (Prog bool)) (s : State W),
     ts0 !! i = Some (ensure_server_ready hz cfg fuel) ->
     steps respond (ts0, s0) (ts, s) ->
     ts !! i = Some (Ret true) ->
     saw_healthy_probe cfg (trace s0) (trace s))
  /\ (forall (s : State W) (b : bool),
        _lock (mgr s) = false ->
        fst (run respond (ensure_server_ready hz cfg fuel) s) = Ret b ->
        let s' := snd (run respond (ensure_server_ready hz cfg fuel) s) in
        _healthy (mgr s') = b
        /\ (b = true -> saw_healthy_probe cfg (trace s) (trace s'))).
Proof.
  split; [|intros s b; exact (ensure_outcome fuel s b)].
  intros ts0 i s0 ts s H0 Hsteps Hi.
  destruct (earned_in_pool i s0 (ts0, s0) (ts, s) Hsteps eq_refl)
    as (seen & t & tr & Ht & He & _ & Hsaw).
  { exists (ensure_server_ready hz cfg fuel).
    split; [exact H0|apply ensure_server_ready_earns]. }
  cbn [fst snd] in *. rewrite Hi in Ht. injection Ht as <-.
  apply Hsaw, He. reflexivity.
Qed.

(** A send that occurs in a log whose beginning holds none occurs after
    that beginning. *)
Lemma send_after_sendless (l1 l2 pre post : list Event) (ev : Event) :
  Forall (fun e => ev_is_send e = false) l1 ->
  ev_is_send ev = true ->
  l1 ++ l2 = pre ++ ev :: post ->
  exists pre', pre = l1 ++ pre' /\ l2 = pre' ++ ev :: post.
Proof.
  intros Hl1 Hev. revert pre.
  induction Hl1 as [|e l1 He _ IH]; intros pre Heq; simpl in *.
  - exists pre. auto.
  - destruct pre as [|e' pre]; simpl in Heq.
    + injection Heq as -> _. congruence.
    + injection Heq as -> Heq. destruct (IH _ Heq) as (pre' & -> & ->).
      exists pre'. auto.
Qed.

Lemma sendless_has_no_send (tr pre post : list Event) (ev : Event) :
  Forall (fun e => ev_is_send e = false) tr ->
  ev_is_send ev = true ->
  tr = pre ++ ev :: post -> False.
Proof.
  intros Htr Hev ->. apply Forall_app in Htr as [_ H].
  apply Forall_cons in H as [H _]. congruence.
Qed.

Lemma sendless_ensure (fuel : nat) (s : State W) :
  exists tr,
    trace (snd (run respond (ensure_server_ready hz cfg fuel) s)) = trace s ++ tr
    /\ Forall (fun e => ev_is_send e = false) tr.
Proof.
  destruct (run_trace respond op_not_send (ensure_server_ready hz cfg fuel) s)
    as (tr & Htr & Hok).
  { apply ensure_server_ready_calls; intros; exact I. }
  exists tr. split; [exact Htr|].
  eapply Forall_impl; [exact Hok|].
  intros [X e a]; destruct e; simpl; tauto.
Qed.

(** X8. The handler never forwards to a backend it has not just found
    healthy: in the log of one request, a request sent to the backend is
    preceded by a health probe answered with status 200. *)
Theorem forward_only_after_healthy_probe (fuel : nat) (request : Request)
  (path : string) (s : State W) tr pre rq a post :
  trace (snd (run respond (proxy hz cfg fuel request path) s)) = trace s ++ tr ->
  tr = pre ++ Ev (ClientSend rq) a :: post ->
  exists pre1 pre2,
    pre = pre1 ++ Ev (ClientGet (health_url cfg) 5) (Ok 200) :: pre2.
Proof.
  unfold proxy. rewrite run_bind.
  destruct (respond _ TimeMonotonic (world s)) as [t0 w0] eqn:E0.
  rewrite (run_record_activity respond s t0 w0 E0).
  set (s1 := with_mgr (set_last_activity_time t0) (logged s TimeMonotonic t0 w0)).
  rewrite run_bind.
  destruct (sendless_ensure fuel s1) as (tre & Htre & Hno).
  assert (Ht1 : trace s1 = trace s ++ [Ev TimeMonotonic t0]) by reflexivity.
  assert (Hblocked : forall tr0,
    trace (snd (run respond (ensure_server_ready hz cfg fuel) s1)) = trace s ++ tr0 ->
    tr0 = pre ++ Ev (ClientSend rq) a :: post -> False).
  { intros tr0 H0 Hsplit. rewrite Htre, Ht1, <- app_assoc in H0.
    apply app_inv_head in H0. subst tr0.
    eapply (sendless_has_no_send _ pre post (Ev (ClientSend rq) a));
      [|reflexivity|exact Hsplit].
    apply Forall_app; split; [repeat constructor|exact Hno]. }
  destruct (_lock (mgr s)) eqn:Hl.
  { (* the lock is held: the call waits *)
    assert (Hwait : run respond (ensure_server_ready hz cfg fuel) s1
                    = (ensure_server_ready hz cfg fuel, s1)).
    { unfold ensure_server_ready, with_lock. simpl. rewrite Hl. reflexivity. }
    intros Htr Hsplit. exfalso. apply (Hblocked tr); [|exact Hsplit].
    rewrite Hwait in Htr |- *. exact Htr. }
  pose proof (ensure_outcome fuel s1) as Hout.
  destruct (run respond (ensure_server_ready hz cfg fuel) s1)
    as [[[|]|e| |X op k] s2] eqn:Hrun; cbn [fst snd negb] in *;
    try (intros Htr Hsplit; exfalso; apply (Hblocked tr); [exact Htr|exact Hsplit]).
  destruct (Hout true Hl eq_refl) as [_ Hsaw]. specialize (Hsaw eq_refl).
  destruct Hsaw as (p0 & q0 & Hs2).
  destruct (run_trace_grows respond
              (try_except (relay (backend_request cfg request path)) relay_failed)
              s2) as (trr & Htrr).
  intros Htr Hsplit. rewrite Htrr, Htre, Ht1, <- !app_assoc in Htr.
  apply app_inv_head in Htr. simpl in Htr.
  rewrite Hsplit in Htr.
  destruct (send_after_sendless (Ev TimeMonotonic t0 :: tre) trr pre post
              (Ev (ClientSend rq) a)) as (pre' & -> & _).
  - constructor; [reflexivity|exact Hno].
  - reflexivity.
  - exact Htr.
  - rewrite Htre in Hs2. apply app_inv_head in Hs2. subst tre.
    exists (Ev TimeMonotonic t0 :: p0), (q0 ++ pre').
    simpl. rewrite <- !app_assoc. reflexivity.
Qed.

(** X9. A streaming response is not buffered by the handler.  When the
    backend's answer has [text/event-stream] in its content type or
    [chunked] in its transfer encoding, the handler returns a
    [StreamingResponse] with the backend's status and the filtered headers
    after the send alone: the body is neither read nor closed there.
    Otherwise the body is read once, the response closed, and the content
    returned. *)
Theorem streaming_response_not_buffered (rq : BackendRequest) (s : State W)
  response w :
  respond _ (ClientSend rq) (world s) = (Ok response, w) ->
  let content_type := get_or_empty (rs_headers response) "content-type" in
  let is_streaming :=
    py_contains "text/event-stream" content_type
    || py_contains "chunked"
         (get_or_empty (rs_headers response) "transfer-encoding") in
  let hdrs := pop_all response_hop_by_hop (rs_headers response) in
  (is_streaming = true ->
   run respond (try_except (relay rq) relay_failed) s
   = (Ret (StreamingResponse (rs_status_code response) hdrs content_type),
      logged s (ClientSend rq) (Ok response) w))
  /\ (is_streaming = false ->
      forall content w2 u w3,
        respond _ ResponseARead w = (Ok content, w2) ->
        respond _ ResponseAClose w2 = (Ok u, w3) ->
        run respond (try_except (relay rq) relay_failed) s
        = (Ret (Response content (rs_status_code response) hdrs None),
           mkState (mgr s) w3
             (trace s ++ [Ev (ClientSend rq) (Ok response);
                          Ev ResponseARead (Ok content);
                          Ev ResponseAClose (Ok u)]))).
Proof.
  intros E content_type is_streaming hdrs. subst content_type is_streaming hdrs.
  split.
  - intros Hs. rewrite run_try_except. unfold relay.
    rewrite run_bind, (run_call respond _ s _ w E). rewrite Hs. reflexivity.
  - intros Hs content w2 u w3 E2 E3. rewrite run_try_except. unfold relay.
    rewrite run_bind, (run_call respond _ s _ w E). rewrite Hs.
    rewrite run_bind, (run_call respond _ _ (Ok content) w2) by exact E2.
    rewrite run_bind, (run_call respond _ _ (Ok u) w3) by exact E3.
    unfold logged; simpl. rewrite <- !app_assoc. reflexivity.
Qed.

(** X10. A stale cache costs one probe and nothing else: a call that
    finds the backend cached as healthy but gets no 200 from its quick
    probe goes on exactly as a call that found it cached as not healthy,
    from the world the probe left. *)
Theorem stale_healthy_flag_costs_one_probe (fuel : nat) (s : State W) r w :
  _lock (mgr s) = false ->
  _healthy (mgr s) = true ->
  respond _ (ClientGet (health_url cfg) 5) (world s) = (r, w) ->
  probe_verdict r = Ok false ->
  run respond (ensure_server_ready hz cfg fuel) s
  = run respond (ensure_server_ready hz cfg fuel)
      (mkState (set_healthy false (mgr s)) w
         (trace s ++ [Ev (ClientGet (health_url cfg) 5) r])).
Proof.
  intros Hl Hh E Hv. unfold ensure_server_ready.
  rewrite !run_with_lock by (simpl; exact Hl).
  rewrite !run_try_finally, !run_ensure_body.
  cbn [with_mgr mgr set_lock set_healthy _healthy world]. rewrite Hh, E.
  cbn zeta.
  assert (Hsame :
    run respond (slow_path hz cfg fuel)
      (logged (with_mgr (set_lock true) s) (ClientGet (health_url cfg) 5) r w)
    = run respond (slow_path hz cfg fuel)
        (mkState (mkManager (last_activity_time (mgr s)) true
                    (_starting (mgr s)) false) w
           (trace s ++ [Ev (ClientGet (health_url cfg) 5) r])))
    by (rewrite !run_slow_path; reflexivity).
  destruct r as [status|e]; cbn [probe_verdict] in Hv.
  - injection Hv as ->. rewrite Hsame. reflexivity.
  - destruct (is_Exception e); [|discriminate]. rewrite Hsame. reflexivity.
Qed.
End Soundness.

(** ** The activity clock *)

Section ActivityClock.
Context {W : Type}.
Variable respond : forall X : Type, ExtOp X -> W -> X * W.
Variable hz : Z.
Variable cfg : Config.

Lemma Stamps_bind {A B : Type} (p : Prog A) (f : A -> Prog B) :
  Stamps p -> (forall a, Stamps (f a)) -> Stamps (bind p f).
Proof.
  intros H Hf. induction H as [a|e| |X op k Hop _ IH|k _ IH]; simpl.
  - apply Hf.
  - constructor.
  - constructor.
  - apply Stamps_act; assumption.
  - apply (Stamps_record (fun u => bind (k u) f)). exact IH.
Qed.

Lemma Stamps_try_except {A : Type} (p : Prog A) h :
  Stamps p -> (forall e, Stamps (h e)) -> Stamps (try_except p h).
Proof.
  intros H Hh. induction H as [a|e| |X op k Hop _ IH|k _ IH]; simpl.
  - constructor.
  - destruct (is_Exception e); [apply Hh|constructor].
  - constructor.
  - apply Stamps_act; assumption.
  - apply (Stamps_record (fun u => try_except (k u) h)). exact IH.
Qed.

Lemma Stamps_try_finally {A : Type} (p : Prog A) q :
  Stamps p -> Stamps q -> Stamps (try_finally p q).
Proof.
  intros H Hq. induction H as [a|e| |X op k Hop _ IH|k _ IH]; simpl.
  - apply Stamps_bind; [exact Hq|intros; constructor].
  - apply Stamps_bind; [exact Hq|intros; constructor].
  - constructor.
  - apply Stamps_act; assumption.
  - apply (Stamps_record (fun u => try_finally (k u) q)). exact IH.
Qed.

(** A program that never writes the time of the last activity. *)
Lemma Stamps_never {A : Type} (p : Prog A) :
  Always (fun X op => is_set_last op = false) p -> Stamps p.
Proof.
  induction 1; [constructor|constructor|constructor|apply Stamps_act; auto].
Qed.

Lemma Stamps_record_activity : Stamps record_activity.
Proof. apply (Stamps_record Ret). intros u. constructor. Qed.

Lemma Stamps_poll (fuel : nat) (start count : Z) :
  Stamps (poll hz cfg fuel start count).
Proof.
  revert count; induction fuel as [|fuel IH]; intros count; cbn [poll].
  - constructor.
  - apply Stamps_bind; [apply Stamps_never; unfold monotonic; shape|intros t1].
    destruct (t1 - start <? _); [|constructor].
    apply Stamps_bind;
      [apply Stamps_never, check_health_shape; reflexivity|intros [|]].
    + apply Stamps_bind; [apply Stamps_never; unfold monotonic; shape|intros _].
      apply Stamps_bind; [apply Stamps_never; shape|intros _].
      apply Stamps_bind; [apply Stamps_record_activity|intros; constructor].
    + apply Stamps_bind; [apply Stamps_never; unfold monotonic; shape|intros t2].
      apply Stamps_bind; [apply Stamps_never; shape|intros _; apply IH].
Qed.

Lemma Stamps_proxy (fuel : nat) (request : Request) (path : string) :
  Stamps (proxy hz cfg fuel request path).
Proof.
  assert (Hw : Stamps (wait_for_health hz cfg fuel)).
  { apply Stamps_bind; [apply Stamps_never; unfold monotonic; shape|intros].
    apply Stamps_poll. }
  unfold proxy.
  apply Stamps_bind; [apply Stamps_record_activity|intros _].
  apply Stamps_bind.
  - unfold ensure_server_ready, with_lock.
    apply Stamps_act; [reflexivity|intros _].
    apply Stamps_try_finally; [|apply Stamps_never; shape].
    unfold ensure_body.
    apply Stamps_bind; [apply Stamps_never; shape|intros healthy].
    apply Stamps_bind.
    { destruct healthy; [|constructor].
      apply Stamps_never, check_health_shape; reflexivity. }
    intros [|]; [constructor|]. unfold slow_path.
    apply Stamps_bind; [apply Stamps_never; shape|intros _].
    apply Stamps_bind; [apply Stamps_never; shape|intros _].
    apply Stamps_try_finally; [|apply Stamps_never; shape].
    apply Stamps_bind.
    { apply Stamps_never. unfold is_container_running. shape. }
    intros [|]; cbn [negb]; [exact Hw|].
    apply Stamps_bind.
    { apply Stamps_never. unfold start_container. shape. }
    intros [|]; cbn [negb]; [exact Hw|constructor].
  - intros ready. destruct (negb ready); [constructor|].
    apply Stamps_try_except.
    + apply Stamps_never, relay_shape; reflexivity.
    + intros e. unfold relay_failed. apply Stamps_never. shape.
Qed.

Section Clock.
(** The time at which the world is, in ticks. *)
Variable now : W -> Z.
Hypothesis clock_reads : forall w,
  now w <= fst (respond _ TimeMonotonic w)
  /\ fst (respond _ TimeMonotonic w) <= now (snd (respond _ TimeMonotonic w)).
Hypothesis clock_monotone : forall X (e : ExtOp X) w,
  now w <= now (snd (respond _ e w)).

Lemma run_stamps {A : Type} (p : Prog A) (s : State W) :
  Stamps p ->
  last_activity_time (mgr s) <= now (world s) ->
  last_activity_time (mgr s)
  <= last_activity_time (mgr (snd (run respond p s)))
  /\ last_activity_time (mgr (snd (run respond p s)))
     <= now (world (snd (run respond p s))).
Proof.
  intros H; revert s.
  induction H as [a|e| |X op k Hop _ IH|k _ IH]; intros s Hs; simpl;
    try (split; [lia|exact Hs]).
  - destruct (enabled op s); [|simpl; split; [lia|exact Hs]].
    destruct op; simpl in *; try discriminate;
      try (match goal with
           | |- context [run respond (k ?x) ?s1] => apply (IH x s1); exact Hs
           end).
    match goal with
    | |- context [respond ?Y ?e (world s)] =>
        pose proof (clock_monotone Y e (world s)) as Hm;
        destruct (respond Y e (world s)) as [y w]; cbn [snd] in Hm;
        destruct (IH y (logged s e y w)) as [H1 H2]; [simpl; lia|];
        simpl in H1; split; [exact H1|exact H2]
    end.
  - pose proof (clock_reads (world s)) as [Hr1 Hr2].
    destruct (respond Z TimeMonotonic (world s)) as [t w]; cbn [fst snd] in *.
    simpl.
    destruct (IH tt (with_mgr (set_last_activity_time t)
                       (logged s TimeMonotonic t w))) as [H1 H2];
      [simpl; lia|].
    simpl in H1. split; [lia|exact H2].
Qed.

(** X11. The time of the last activity never goes back and never runs
    ahead of the clock: with a clock that does not go back, a request
    leaves [last_activity_time] at least where it was and at most at the
    current time, however the request ends. *)
Theorem activity_clock_never_goes_back (fuel : nat) (request : Request)
  (path : string) (s : State W) :
  last_activity_time (mgr s) <= now (world s) ->
  let s' := snd (run respond (proxy hz cfg fuel request path) s) in
  last_activity_time (mgr s) <= last_activity_time (mgr s')
  /\ last_activity_time (mgr s') <= now (world s').
Proof. intros Hs. apply run_stamps; [apply Stamps_proxy|exact Hs]. Qed.
End Clock.
End ActivityClock.

(** ** Concurrent callers *)

Section Callers.
Context {W : Type}.
Variable respond : forall X : Type, ExtOp X -> W -> X * W.
Variable hz : Z.
Variable cfg : Config.

Lemma settled_outside (fuel : nat) (s0 : State W) (m : nat) (t : Prog bool) :
  settled respond (ensure_body hz cfg fuel) s0 m t -> ~ InCS t.
Proof.
  intros [->|(j & _ & _ & Hf)]; [simpl; tauto|].
  destruct t; simpl in *; try discriminate; tauto.
Qed.

(** X12. Mutual exclusion.  In every state that concurrent callers of
    [ensure_server_ready] reach, whatever the interleaving, at most one of
    them is inside the block under the lock; the lock is held exactly when
    one of them is. *)
Theorem one_caller_under_the_lock (fuel n : nat) (s0 : State W)
  (ts : list (Prog bool)) (s : State W) :
  _lock (mgr s0) = false ->
  steps respond (replicate n (ensure_server_ready hz cfg fuel), s0) (ts, s) ->
  (forall i j t1 t2,
     ts !! i = Some t1 -> ts !! j = Some t2 -> InCS t1 -> InCS t2 -> i = j)
  /\ (_lock (mgr s) = true <-> exists i t, ts !! i = Some t /\ InCS t).
Proof.
  intros Hl Hsteps.
  pose proof (serialization respond (ensure_body hz cfg fuel)
                (ensure_body_no_lock hz cfg fuel) n s0 (ts, s) Hl Hsteps) as Hinv.
  inversion Hinv as [m ts' s1 Hd Hs1 Hl' Hts Hn|m l1 t l2 s1 Hd Hl' Hcs Hrun Hts Hn];
    subst.
  - assert (Hout : forall i t, ts !! i = Some t -> ~ InCS t).
    { intros i t Hi. eapply settled_outside, Forall_lookup_1; eassumption. }
    split.
    + intros i j t1 t2 Hi _ H1 _. destruct (Hout i t1 Hi H1).
    + rewrite Hl'. split; [discriminate|].
      intros (i & t & Hi & Hin). destruct (Hout i t Hi Hin).
  - apply Forall_app in Hts as [Ht1 Ht2].
    assert (Hat : forall i t', (l1 ++ t :: l2) !! i = Some t' -> InCS t' ->
                          i = length l1).
    { intros i t' Hi Hin. apply lookup_app_Some in Hi as [Hi|[Hge Hi]].
      - destruct (settled_outside fuel s0 m t' (Forall_lookup_1 _ _ _ _ Ht1 Hi) Hin).
      - apply lookup_cons_Some in Hi as [[Hz _]|[Hpos Hi]]; [lia|].
        destruct (settled_outside fuel s0 m t' (Forall_lookup_1 _ _ _ _ Ht2 Hi) Hin). }
    split.
    + intros i j t1 t2 Hi Hj H1 H2.
      rewrite (Hat i t1 Hi H1), (Hat j t2 Hj H2). reflexivity.
    + split; [|intros _; exact Hl'].
      intros _. exists (length l1), t. split; [|exact Hcs].
      apply list_lookup_middle. reflexivity.
Qed.

(** X13. No deadlock.  In every state that concurrent callers reach, if
    some caller has not finished then some caller can take a step, unless
    the caller holding the lock has been cut short by the loop bound. *)
Theorem callers_never_deadlock (fuel n : nat) (s0 : State W)
  (ts : list (Prog bool)) (s : State W) :
  _lock (mgr s0) = false ->
  steps respond (replicate n (ensure_server_ready hz cfg fuel), s0) (ts, s) ->
  (exists i t, ts !! i = Some t /\ finished t = false) ->
  (exists ps', step respond (ts, s) ps')
  \/ (exists i, ts !! i = Some Pending).
Proof.
  intros Hl Hsteps (i & t & Hi & Hf).
  pose proof (serialization respond (ensure_body hz cfg fuel)
                (ensure_body_no_lock hz cfg fuel) n s0 (ts, s) Hl Hsteps) as Hinv.
  inversion Hinv as [m ts' s1 Hd Hs1 Hl' Hts Hn|m l1 t' l2 s1 Hd Hl' Hcs Hrun Hts Hn];
    subst.
  - left.
    pose proof (Forall_lookup_1 _ _ _ _ Hts Hi) as [->|(j & _ & _ & Hfin)];
      [|congruence].
    assert (Hgo : forall s' : State W, _lock (mgr s') = false ->
              exists q, step_task respond (with_lock (ensure_body hz cfg fuel)) s' = Some q).
    { intros s' H. unfold with_lock. simpl. rewrite H. simpl.
      eexists; reflexivity. }
    destruct (Hgo _ Hl') as [[p' s'] Hq].
    exists (<[i := p']> ts, s'). exists i. unfold step_at. cbn [fst snd].
    rewrite Hi, Hq. reflexivity.
  - destruct t' as [a|e| |X op k]; simpl in Hcs; try tauto.
    { right. exists (length l1). apply list_lookup_middle. reflexivity. }
    left.
    assert (Hen : enabled op s = true).
    { destruct op; simpl in *; try reflexivity. destruct Hcs. }
    destruct (exec respond op s) as [x s'] eqn:E.
    exists (<[length l1 := k x]> (l1 ++ Act op k :: l2), s'). exists (length l1).
    unfold step_at. cbn [fst snd].
    rewrite list_lookup_middle by reflexivity. simpl. rewrite Hen, E. reflexivity.
Qed.
End Callers.

(** ** The status endpoint *)

Section Status.
Context {W : Type}.
Variable respond : forall X : Type, ExtOp X -> W -> X * W.
Variable hz : Z.
Variable cfg : Config.

(** A program that only reads leaves the manager as it was. *)
Lemma run_reading_keeps_mgr {A : Type} (p : Prog A) (s : State W) :
  Always reading_op p -> mgr (snd (run respond p s)) = mgr s.
Proof.
  intros H; revert s; induction H as [a|e| |X op k Hop _ IH]; intros s;
    simpl; try reflexivity.
  destruct op; try destruct Hop; simpl; try apply IH.
  match goal with
  | |- context [respond ?Y ?e (world s)] =>
      destruct (respond Y e (world s)) as [x w]
  end.
  rewrite IH. reflexivity.
Qed.

Lemma proxy_status_shape (P : forall X : Type, Op X -> Prop) :
  P _ GetStarting -> P _ GetLastActivity ->
  P _ (Call TimeMonotonic) -> P _ (Call (ClientGet (health_url cfg) 5)) ->
  P _ (Call (docker_inspect cfg)) ->
  Always P (proxy_status hz cfg).
Proof.
  intros. unfold proxy_status, is_container_running, is_starting,
    get_idle_seconds, monotonic.
  apply Always_bind; [shape|intros running].
  apply Always_bind;
    [destruct running; [apply check_health_shape; assumption|constructor]
    |intros healthy].
  shape.
Qed.

(** X14. The status endpoint only looks.  It leaves the manager as it
    was (the time of the last activity included, so asking for the status
    does not keep the backend alive), it calls nothing but [docker inspect],
    the health probe and the clock, it does not probe a container that is
    not reported running, and in its report the remaining time is not
    negative and a backend is healthy only if its container runs. *)
Theorem proxy_status_only_looks (s : State W) :
  let s' := snd (run respond (proxy_status hz cfg) s) in
  mgr s' = mgr s
  /\ (exists tr,
        trace s' = trace s ++ tr
        /\ Forall (ev_ok (op_status cfg)) tr
        /\ (says_running (fst (respond _ (docker_inspect cfg) (world s))) = false ->
            Forall (fun ev => match ev with
                              | Ev (ClientGet _ _) _ => False
                              | _ => True
                              end) tr))
  /\ (forall report,
        fst (run respond (proxy_status hz cfg) s) = Ret report ->
        0 <= st_remaining report
        /\ (st_healthy report = true -> st_running report = true)
        /\ st_starting report = _starting (mgr s)).
Proof.
  intros s'. subst s'. split; [|split].
  - apply run_reading_keeps_mgr, proxy_status_shape; exact I.
  - destruct (run_trace respond (op_status cfg) (proxy_status hz cfg) s)
      as (tr & Htr & Hok).
    { apply proxy_status_shape; simpl; auto. }
    exists tr. split; [exact Htr|]. split; [exact Hok|].
    intros Hdown. revert Htr. unfold proxy_status.
    rewrite run_bind. unfold is_container_running.
    rewrite run_try_except, run_bind.
    destruct (respond _ (docker_inspect cfg) (world s)) as [r1 w1] eqn:E1.
    rewrite (run_call respond (docker_inspect cfg) s r1 w1 E1).
    cbn [fst] in Hdown.
    assert (Hrest : forall s1 : State W,
      trace s1 = trace s ++ [Ev (docker_inspect cfg) r1] ->
      trace (snd (run respond
        (let* is_healthy := Ret false in
         let* starting := is_starting in
         let* seconds := get_idle_seconds in
         let* idle := get_idle_seconds in
         Ret (mkStatus (CONTAINER_NAME cfg) false is_healthy starting seconds
                (IDLE_TIMEOUT cfg) (Z.max 0 (IDLE_TIMEOUT cfg * hz - idle)))) s1))
      = trace s ++ tr ->
      Forall (fun ev => match ev with
                        | Ev (ClientGet _ _) _ => False
                        | _ => True
                        end) tr).
    { intros s1 Ht1.
      destruct (run_trace respond
                  (fun X e => match e with ClientGet _ _ => False | _ => True end)
                  (let* is_healthy := Ret false in
                   let* starting := is_starting in
                   let* seconds := get_idle_seconds in
                   let* idle := get_idle_seconds in
                   Ret (mkStatus (CONTAINER_NAME cfg) false is_healthy starting
                          seconds (IDLE_TIMEOUT cfg)
                          (Z.max 0 (IDLE_TIMEOUT cfg * hz - idle)))) s1)
        as (tr1 & Htr1 & Hok1).
      { unfold is_starting, get_idle_seconds, monotonic. shape. }
      rewrite Htr1, Ht1, <- app_assoc. intros Heq.
      apply app_inv_head in Heq. subst tr. simpl.
      constructor; [unfold docker_inspect; exact I|].
      eapply Forall_impl; [exact Hok1|].
      intros [X e a]; destruct e; simpl; tauto. }
    destruct r1 as [c|e]; simpl in Hdown |- *.
    + rewrite Hdown. apply Hrest. reflexivity.
    + destruct (is_Exception e).
      * apply Hrest. reflexivity.
      * simpl. intros Heq.
        replace (trace s ++ [Ev (docker_inspect cfg) (Err e)])
          with (trace s ++ [Ev (docker_inspect cfg) (Err e)] ++ []) in Heq
          by reflexivity.
        apply app_inv_head in Heq. subst tr. repeat constructor.
  - intros report. unfold proxy_status.
    rewrite run_bind.
    destruct (run respond (is_container_running cfg) s) as [[running|e| |X op k] s1] eqn:E1;
      try discriminate.
    assert (Hm1 : mgr s1 = mgr s).
    { change s1 with (snd (Ret (A:=bool) running, s1)). rewrite <- E1.
      apply run_reading_keeps_mgr. unfold is_container_running. shape. }
    rewrite run_bind.
    destruct (run respond (if running then check_health cfg else Ret false) s1)
      as [[healthy|e| |X op k] s2] eqn:E2; try discriminate.
    assert (Hm2 : mgr s2 = mgr s).
    { change s2 with (snd (Ret (A:=bool) healthy, s2)). rewrite <- E2, <- Hm1.
      apply run_reading_keeps_mgr.
      destruct running; [apply check_health_shape; exact I|constructor]. }
    assert (Himp : healthy = true -> running = true).
    { destruct running; [reflexivity|]. simpl in E2. congruence. }
    unfold is_starting, get_idle_seconds, monotonic. simpl.
    destruct (respond Z TimeMonotonic (world s2)) as [t1 w3]. simpl.
    destruct (respond Z TimeMonotonic w3) as [t2 w4]. simpl.
    intros [= <-]. simpl. rewrite Hm2. split; [lia|]. split; [exact Himp|reflexivity].
Qed.
End Status.

(** ** The further theorems at work on the simulated deployments *)

Lemma get_env_int_fallback_witness :
  let py_int := fun v : string => if String.eqb v "42" then Some 42 else None in
  let environ := fun name : string =>
    if String.eqb name "PROXY_PORT" then Some "  "
    else if String.eqb name "CHECK_INTERVAL" then Some "soon"
    else if String.eqb name "IDLE_TIMEOUT" then Some "42"
    else None in
  get_env_int py_int environ "STARTUP_TIMEOUT" 600 = 600
  /\ get_env_int py_int environ "PROXY_PORT" 8000 = 8000
  /\ get_env_int py_int environ "CHECK_INTERVAL" 30 = 30
  /\ get_env_int py_int environ "IDLE_TIMEOUT" 300 = 42.
Proof.
  intros py_int environ.
  split; [|split; [|split]].
  - apply (get_env_int_fallback py_int environ "STARTUP_TIMEOUT" 600).
    reflexivity.
  - destruct (get_env_int_fallback py_int environ "PROXY_PORT" 8000)
      as (_ & H & _).
    apply (H "  "); reflexivity.
  - destruct (get_env_int_fallback py_int environ "CHECK_INTERVAL" 30)
      as (_ & _ & H & _).
    apply (H "soon"); reflexivity.
  - destruct (get_env_int_fallback py_int environ "IDLE_TIMEOUT" 300)
      as (_ & _ & _ & H).
    apply (H "42"); reflexivity.
Defined.

Lemma is_container_running_reads_stdout_witness :
  let w := mkMock 0 true 0 true Serves in
  let s := mock_state (new_manager 0) w in
  run (mock_respond 1) (is_container_running default_config) s
  = (Ret true,
     logged s (docker_inspect default_config)
       (completed 0 ("true" ++ nl)) w).
Proof.
  intros w s.
  destruct (is_container_running_reads_stdout (mock_respond 1) default_config s)
    as [H _].
  destruct (H (mkCompleted 0 ("true" ++ nl) "") w eq_refl)
    as (running & Hrun & Hiff).
  rewrite Hrun. replace running with true; [reflexivity|].
  symmetry. apply Hiff. exists "", "true", nl.
  split; [reflexivity|]. split; [reflexivity|]. split; [reflexivity|].
  exists "t"%char, "r"%char, "u"%char, "e"%char. auto 10.
Defined.

Lemma failed_stop_is_retried_witness :
  let s := mkState (mkManager 0 false false true) 1000 [] in
  mgr (snd (run (stubborn_respond 1) (idle_monitor_turn 1 default_config) s))
  = mgr s
  /\ count_events (ev_is_docker "stop")
       (trace (snd (run (stubborn_respond 1)
                      (do idle_monitor_turn 1 default_config then
                       idle_monitor_turn 1 default_config) s)))
     = 2%nat.
Proof.
  intros s.
  destruct (failed_stop_is_retried (stubborn_respond 1) 1 default_config s
              tt 1030 1030 1030 (completed 1 "") 1030
              tt 1060 1060 1060 (completed 1 "") 1060)
    as [Hm Hrun];
    try solve [reflexivity | simpl; exact I | vm_compute; discriminate].
  split; [exact Hm|]. rewrite Hrun. reflexivity.
Defined.

Lemma idle_monitor_stop_only_when_due_witness :
  let s := mkState (mkManager 0 false false true)
             (mkMock 1000 true 0 true Serves) [] in
  exists u w1 t w2,
    mock_respond 1 _ (AsyncioSleep (CHECK_INTERVAL default_config)) (world s)
    = (Ok u, w1)
    /\ mock_respond 1 _ TimeMonotonic w1 = (t, w2)
    /\ IDLE_TIMEOUT default_config * 1 <= t - last_activity_time (mgr s).
Proof.
  intros s.
  destruct (idle_monitor_stop_only_when_due (mock_respond 1) 1 default_config s)
    as (tr & Htr & _ & H).
  vm_compute in Htr. apply H. rewrite <- Htr. reflexivity.
Defined.

Lemma ensure_result_is_cached_state_witness :
  let s0 := mock_state (new_manager 0) (mkMock 0 false 1 true Serves) in
  let call := ensure_server_ready 1 default_config 400 in
  let ps := schedule (mock_respond 1) (concat (replicate 30 [0; 1]%nat))
              ([call; call], s0) in
  saw_healthy_probe default_config (trace s0) (trace (snd ps))
  /\ _healthy (mgr (snd (run (mock_respond 1) call s0))) = true.
Proof.
  intros s0 call ps.
  destruct (ensure_result_is_cached_state (mock_respond 1) 1 default_config 400)
    as [Hpool Halone].
  split.
  - pose proof (schedule_steps (mock_respond 1)
                  (concat (replicate 30 [0; 1]%nat)) ([call; call], s0))
      as Hsteps.
    fold ps in Hsteps.
    assert (Hret : fst ps !! 1%nat = Some (Ret true)) by (vm_compute; reflexivity).
    destruct ps as [ts s].
    apply (Hpool [call; call] 1%nat s0 ts s); [reflexivity|exact Hsteps|exact Hret].
  - apply (Halone s0 true); [reflexivity|vm_compute; reflexivity].
Defined.

Lemma forward_only_after_healthy_probe_witness :
  exists pre1 pre2,
    [Ev TimeMonotonic 0; Ev (ClientGet (health_url default_config) 5) (Ok 200)]
    = pre1 ++ Ev (ClientGet (health_url default_config) 5) (Ok 200) :: pre2.
Proof.
  apply (forward_only_after_healthy_probe (mock_respond 1) 1 default_config 1
           sample_request "v1/models"
           (mkState (mkManager 0 false false true)
              (mkMock 0 true 0 true Serves) [])
           ([Ev TimeMonotonic 0;
             Ev (ClientGet (health_url default_config) 5) (Ok 200)]
            ++ Ev (ClientSend
                     (backend_request default_config sample_request "v1/models"))
                 (mock_send (mkMock 0 true 0 true Serves))
            :: [Ev ResponseARead (Ok "{}"); Ev ResponseAClose (Ok tt)])
           _
           (backend_request default_config sample_request "v1/models")
           (mock_send (mkMock 0 true 0 true Serves))
           [Ev ResponseARead (Ok "{}"); Ev ResponseAClose (Ok tt)]);
    reflexivity.
Defined.

Lemma streaming_response_not_buffered_witness :
  let rq := backend_request default_config sample_request "v1/completions" in
  let s := mkState (mkManager 0 false false true) 0 [] in
  let out := run (stubborn_respond 1) (try_except (relay rq) relay_failed) s in
  fst out
  = Ret (StreamingResponse 200 (<["content-type" := "text/event-stream"]> ∅)
           "text/event-stream")
  /\ count_events ev_is_send (trace (snd out)) = 1%nat
  /\ length (trace (snd out)) = 1%nat.
Proof.
  intros rq s out.
  destruct (streaming_response_not_buffered (stubborn_respond 1) rq s
              (mkBackendResponse 200
                 (<["content-type" := "text/event-stream"]>
                    (<["transfer-encoding" := "chunked"]> ∅))) 0)
    as [H _]; [reflexivity|].
  subst out. rewrite H by reflexivity.
  split; [vm_compute; reflexivity|split; reflexivity].
Defined.

Lemma stale_healthy_flag_costs_one_probe_witness :
  let w := mkMock 0 false 1 true Serves in
  let call := ensure_server_ready 1 default_config 400 in
  run (mock_respond 1) call (mkState (mkManager 0 false false true) w [])
  = run (mock_respond 1) call
      (mkState (mkManager 0 false false false) w
         [Ev (ClientGet (health_url default_config) 5)
            (Err (OtherException "connection refused"))]).
Proof.
  intros w call.
  apply (stale_healthy_flag_costs_one_probe (mock_respond 1) 1 default_config
           400 (mkState (mkManager 0 false false true) w [])
           (Err (OtherException "connection refused")) w);
    reflexivity.
Defined.

Lemma activity_clock_never_goes_back_witness :
  let s := mock_state (new_manager 3) (mkMock 5 false 1 true Serves) in
  let s' := snd (run (mock_respond 1)
                   (proxy 1 default_config 400 sample_request "v1/models") s) in
  3 <= last_activity_time (mgr s')
  /\ last_activity_time (mgr s') <= clock (world s').
Proof.
  intros s.
  refine (activity_clock_never_goes_back (mock_respond 1) 1 default_config clock
            _ _ 400 sample_request "v1/models" s _).
  - intros w. simpl. lia.
  - intros X e w. apply mock_clock_monotone. lia.
  - simpl. lia.
Defined.

Lemma one_caller_under_the_lock_witness :
  let s0 := mock_state (new_manager 0) (mkMock 0 false 1 true Serves) in
  let call := ensure_server_ready 1 default_config 1 in
  let ps := schedule (mock_respond 1) [0; 0; 1; 0]%nat ([call; call], s0) in
  _lock (mgr (snd ps)) = true
  <-> exists i t, fst ps !! i = Some t /\ InCS t.
Proof.
  intros s0 call ps.
  pose proof (schedule_steps (mock_respond 1) [0; 0; 1; 0]%nat
                ([call; call], s0)) as Hsteps.
  fold ps in Hsteps. destruct ps as [ts s].
  apply (one_caller_under_the_lock (mock_respond 1) 1 default_config 1 2 s0 ts s);
    [reflexivity|exact Hsteps].
Defined.

Lemma callers_never_deadlock_witness :
  let s0 := mock_state (new_manager 0) (mkMock 0 false 1 true Serves) in
  let call := ensure_server_ready 1 default_config 1 in
  let ps := schedule (mock_respond 1) [0; 0; 1; 0]%nat ([call; call], s0) in
  (exists ps', step (mock_respond 1) ps ps')
  \/ exists i, fst ps !! i = Some Pending.
Proof.
  intros s0 call ps.
  pose proof (schedule_steps (mock_respond 1) [0; 0; 1; 0]%nat
                ([call; call], s0)) as Hsteps.
  assert (Hwaits : fst ps !! 1%nat = Some call) by reflexivity.
  fold ps in Hsteps. destruct ps as [ts s].
  apply (callers_never_deadlock (mock_respond 1) 1 default_config 1 2 s0 ts s);
    [reflexivity|exact Hsteps|].
  exists 1%nat, call. split; [exact Hwaits|reflexivity].
Defined.

Lemma proxy_status_only_looks_witness :
  let s := mkState (mkManager 100 false true false)
             (mkMock 500 false 0 true Serves) [] in
  let out := run (mock_respond 1) (proxy_status 1 default_config) s in
  mgr (snd out) = mgr s
  /\ Forall (fun ev => match ev with
                       | Ev (ClientGet _ _) _ => False
                       | _ => True
                       end) (trace (snd out))
  /\ forall report, fst out = Ret report ->
       0 <= st_remaining report /\ st_starting report = true.
Proof.
  intros s out.
  destruct (proxy_status_only_looks (mock_respond 1) 1 default_config s)
    as (Hm & (tr & Htr & _ & Hno) & Hrep).
  split; [exact Hm|]. split.
  - subst out. rewrite Htr. apply Hno. reflexivity.
  - intros report H. destruct (Hrep report H) as (H0 & _ & Hs).
    split; [exact H0|exact Hs].
Defined.
